(** * The filter-reactor module editor of ChemSCAD

    A shallow embedding of
    [chemscad/gui_modules/module_filter_reactor/module_filter_reactor.py]:
    the class [ChemModule], its I/O registry (three dicts and the table
    that mirrors them), the slots that enable and disable the radius
    widgets, and the two commit paths ([_buildNewModule], [_updateModule]).

    Python objects are mutated in place and survive an exception, so every
    method is a function from the world to a result and a new world; the
    world holds the dialog ([self]), the CAD objects that exist (a heap,
    [self.cad_obj] is a reference into it) and the trace of everything the
    dialog did to the outside (log lines, message boxes, calls on CAD
    objects and on the parent window). *)

From Stdlib Require Import QArith.
From stdpp Require Import base list strings.

Open Scope string_scope.
Open Scope list_scope.

(** ** Values and exceptions *)

(** The numbers of the form are the doubles of [QDoubleSpinBox]. The dialog
    never computes with them, it only carries them from a widget to the CAD
    object and back, so a rational stands for each of them. *)
Definition num := Q.

Inductive exn_class :=
| IndexError
| KeyError
| ValueError
| AttributeError
| IncompatibilityError
| ConstraintError
| OtherException.

#[global] Instance exn_class_eq_dec : EqDecision exn_class.
Proof. solve_decision. Defined.

(** An exception: its class and [str(e)]. All classes derive from
    [Exception]. *)
Record exn := Exn { exn_cls : exn_class; exn_str : string }.

(** ** Python dicts

    A [dict] keeps its keys in insertion order, [d[k] = v] on a key that is
    present replaces the value where it stands, and [del d[k]] raises
    [KeyError] on a key that is absent. The loops of [buildInputs] and its
    siblings walk [d.items()], so the order is part of the model. *)

Abbreviation pydict V := (list (string * V)).

Section PyDict.
Context {V : Type}.

Fixpoint dict_get (k : string) (d : pydict V) : option V :=
  match d with
  | [] => None
  | (k', v) :: d' => if decide (k' = k) then Some v else dict_get k d'
  end.

(** [k in d] *)
Definition dict_mem (k : string) (d : pydict V) : bool :=
  match dict_get k d with Some _ => true | None => false end.

(** [d[k] = v] *)
Fixpoint dict_set (k : string) (v : V) (d : pydict V) : pydict V :=
  match d with
  | [] => [(k, v)]
  | (k', v') :: d' =>
      if decide (k' = k) then (k', v) :: d' else (k', v') :: dict_set k v d'
  end.

Definition dict_remove (k : string) (d : pydict V) : pydict V :=
  filter (fun kv => kv.1 <> k) d.

(** [del d[k]]: [None] stands for the [KeyError]. *)
Definition dict_del (k : string) (d : pydict V) : option (pydict V) :=
  if dict_mem k d then Some (dict_remove k d) else None.

Definition dict_keys (d : pydict V) : list string := map fst d.

End PyDict.

(** ** The CAD object

    [FilterReactorCAD] lives in the [ccad] package, outside this file. An
    object of it is what the dialog can reach: the attributes that
    [restoreParams], [restoreIO] and [deleteIO] read or delete from. What
    its constructor, its methods and its attribute setters do is a
    parameter of the development ([Collaborators] below). *)

Record InputOutput := {
  io_height : num;
  io_angle : num;
  io_diameter : num;
  io_external : bool;
  io_connected : bool
}.

Record TopInlet := {
  ti_diameter : num;
  ti_length : num;
  ti_walls : num;
  ti_type_io : string
}.

Record CadObj := {
  cad_volume : num;
  cad_type_top : string;
  cad_type_bottom : string;
  cad_h_filter : num;
  cad_d_filter : num;
  cad_d_can : num;
  cad_r : num;
  cad_r_constrained : bool;
  cad_align_top_strategy : string;
  cad_align_filter_strategy : string;
  cad_inputs : pydict InputOutput;
  cad_outputs : pydict InputOutput;
  cad_top_inlets : pydict TopInlet
}.

(** [obj.attr = value], for the attributes [_updateModule] and
    [_buildCADObject] assign. *)
Inductive attr_write :=
| Set_r (v : num)
| Set_r_constrained (b : bool)
| Set_volume (v : num)
| Set_type_top (s : string)
| Set_type_bottom (s : string)
| Set_d_can (v : num)
| Set_h_filter (v : num)
| Set_d_filter (v : num)
| Set_align_top_strategy (s : string)
| Set_align_filter_strategy (s : string).

(** A call on a CAD object. *)
Inductive method :=
| setattr (a : attr_write)
| addInputPercentage (name : string) (height_per angle diameter : num)
    (external : bool)
| addOutputPercentage (name : string) (height_per angle diameter : num)
    (external : bool)
| addCustomTopInlet (name : string) (diameter length walls : num)
    (type_io : string)
| autoPlaceTopInlets.

(** CAD objects are Python objects: the dialog, the parent window and the
    assembly hold references to the same object. *)
Definition ref := nat.

(** A call on [self.parent], the window that owns the assembly. *)
Inductive parent_call :=
| parent_buildModule (reactor : ref)
| parent_refresh
| parent_deleteModule (cad_obj : option ref).

(** Everything the dialog takes from outside this file: the constants of
    [FilterReactorCAD] and of [ccad.constants], the constructor [f_rea(...)],
    the methods and attribute setters of a CAD object (each returns the
    object as the call left it, and the exception it raised if it raised
    one), and the methods of the parent window. *)
Class Collaborators := {
  TOPS : list string;
  BOTTOMS : list string;
  B_ROUND : string;
  THREADED_TOPS : list string;
  BOTTOMS_PIPE : list string;
  ALIGN_TOP_STRATEGIES : list string;
  ALIGN_FILTER_STRATEGIES : list string;
  D_CAN : num;
  f_rea : num -> string -> string -> num -> num -> num -> string -> string ->
          exn + CadObj;
  cad_method : method -> CadObj -> option exn * CadObj;
  getHeightPercentage : CadObj -> InputOutput -> num;
  parent_method : parent_call -> list CadObj -> option exn
}.

(** ** The dialog *)

(** [self.params] *)
Record Params := {
  p_volume : num;
  p_type_top : string;
  p_type_bottom : string;
  p_h_filter : num;
  p_d_filter : num;
  p_d_can : num;
  p_r : num;
  p_r_constrained : bool;
  p_align_top_strategy : string;
  p_align_filter_strategy : string
}.

(** A value of [dict_inputs] or [dict_outputs]. [restoreIO] stores no
    ["type_io"] key, the I/O dialog stores one. *)
Record SideIO := {
  sio_type_io : option string;
  sio_height_per : num;
  sio_angle : num;
  sio_diameter : num;
  sio_external : bool;
  sio_connected : option bool
}.

(** A value of [dict_top_inlets]. *)
Record TopIO := {
  tio_diameter : num;
  tio_length : num;
  tio_walls : num;
  tio_type_io : string;
  tio_connected : option bool
}.

(** A row of [table_io]: the texts of its three items, and whether the
    items kept their flags ([false] after [setFlags(NoItemFlags)]: the row
    can be neither selected nor edited). *)
Record Row := {
  row_name : string;
  row_type : string;
  row_connected : string;
  row_flags : bool
}.

(** The values of the widgets [readForm] reads. *)
Record Form := {
  spin_vol : num;
  combo_top : string;
  combo_bottom : string;
  spin_h_filter : num;
  spin_d_filter : num;
  spin_d_can : num;
  spin_r : num;
  check_r_constrained : bool;
  combo_align_top_strategy : string;
  combo_align_filter_strategy : string
}.

(** [isEnabled()] of the three widgets the slots enable and disable. *)
Record Enabled := {
  spin_r_enabled : bool;
  check_r_constrained_enabled : bool;
  spin_d_can_enabled : bool
}.

Record ChemModule := {
  test : bool;
  cad_obj : option ref;
  form : Form;
  enabled : Enabled;
  table_io : list Row;
  dict_inputs : pydict SideIO;
  dict_outputs : pydict SideIO;
  dict_top_inlets : pydict TopIO;
  params : Params
}.

Inductive level := DEBUG | ERROR.

Inductive event :=
| Log (lv : level) (msg : string)
| MessageBox (title mes : string)
| New (res : exn + ref)
| Call (o : ref) (m : method) (raised : option exn)
| Parent (c : parent_call) (raised : option exn)
| Close.

Record World := {
  self : ChemModule;
  heap : list CadObj;
  trace : list event
}.

(** The strings for the type of an I/O. *)
Definition SIDE_INPUT := "Side input".
Definition SIDE_OUTPUT := "Side output".
Definition DEF_OUTPUT := "Default output".
Definition TOP_LUER := "Luer top inlet".
Definition TOP_CUSTOM := "Custom top inlet".

(** *** Field updates *)

Definition with_self (f : ChemModule -> ChemModule) (w : World) : World :=
  {| self := f (self w); heap := heap w; trace := trace w |}.

Definition with_heap (f : list CadObj -> list CadObj) (w : World) : World :=
  {| self := self w; heap := f (heap w); trace := trace w |}.

Definition with_trace (f : list event -> list event) (w : World) : World :=
  {| self := self w; heap := heap w; trace := f (trace w) |}.

Definition with_form (f : Form -> Form) (s : ChemModule) : ChemModule :=
  {| test := test s; cad_obj := cad_obj s; form := f (form s);
     enabled := enabled s; table_io := table_io s;
     dict_inputs := dict_inputs s; dict_outputs := dict_outputs s;
     dict_top_inlets := dict_top_inlets s; params := params s |}.

Definition with_enabled (f : Enabled -> Enabled) (s : ChemModule)
  : ChemModule :=
  {| test := test s; cad_obj := cad_obj s; form := form s;
     enabled := f (enabled s); table_io := table_io s;
     dict_inputs := dict_inputs s; dict_outputs := dict_outputs s;
     dict_top_inlets := dict_top_inlets s; params := params s |}.

Definition with_table_io (f : list Row -> list Row) (s : ChemModule)
  : ChemModule :=
  {| test := test s; cad_obj := cad_obj s; form := form s;
     enabled := enabled s; table_io := f (table_io s);
     dict_inputs := dict_inputs s; dict_outputs := dict_outputs s;
     dict_top_inlets := dict_top_inlets s; params := params s |}.

Definition with_dict_inputs (f : pydict SideIO -> pydict SideIO)
  (s : ChemModule) : ChemModule :=
  {| test := test s; cad_obj := cad_obj s; form := form s;
     enabled := enabled s; table_io := table_io s;
     dict_inputs := f (dict_inputs s); dict_outputs := dict_outputs s;
     dict_top_inlets := dict_top_inlets s; params := params s |}.

Definition with_dict_outputs (f : pydict SideIO -> pydict SideIO)
  (s : ChemModule) : ChemModule :=
  {| test := test s; cad_obj := cad_obj s; form := form s;
     enabled := enabled s; table_io := table_io s;
     dict_inputs := dict_inputs s; dict_outputs := f (dict_outputs s);
     dict_top_inlets := dict_top_inlets s; params := params s |}.

Definition with_dict_top_inlets (f : pydict TopIO -> pydict TopIO)
  (s : ChemModule) : ChemModule :=
  {| test := test s; cad_obj := cad_obj s; form := form s;
     enabled := enabled s; table_io := table_io s;
     dict_inputs := dict_inputs s; dict_outputs := dict_outputs s;
     dict_top_inlets := f (dict_top_inlets s); params := params s |}.

Definition with_params (p : Params) (s : ChemModule) : ChemModule :=
  {| test := test s; cad_obj := cad_obj s; form := form s;
     enabled := enabled s; table_io := table_io s;
     dict_inputs := dict_inputs s; dict_outputs := dict_outputs s;
     dict_top_inlets := dict_top_inlets s; params := p |}.

Definition with_cad_inputs (f : pydict InputOutput -> pydict InputOutput)
  (c : CadObj) : CadObj :=
  {| cad_volume := cad_volume c; cad_type_top := cad_type_top c;
     cad_type_bottom := cad_type_bottom c; cad_h_filter := cad_h_filter c;
     cad_d_filter := cad_d_filter c; cad_d_can := cad_d_can c;
     cad_r := cad_r c; cad_r_constrained := cad_r_constrained c;
     cad_align_top_strategy := cad_align_top_strategy c;
     cad_align_filter_strategy := cad_align_filter_strategy c;
     cad_inputs := f (cad_inputs c); cad_outputs := cad_outputs c;
     cad_top_inlets := cad_top_inlets c |}.

Definition with_cad_outputs (f : pydict InputOutput -> pydict InputOutput)
  (c : CadObj) : CadObj :=
  {| cad_volume := cad_volume c; cad_type_top := cad_type_top c;
     cad_type_bottom := cad_type_bottom c; cad_h_filter := cad_h_filter c;
     cad_d_filter := cad_d_filter c; cad_d_can := cad_d_can c;
     cad_r := cad_r c; cad_r_constrained := cad_r_constrained c;
     cad_align_top_strategy := cad_align_top_strategy c;
     cad_align_filter_strategy := cad_align_filter_strategy c;
     cad_inputs := cad_inputs c; cad_outputs := f (cad_outputs c);
     cad_top_inlets := cad_top_inlets c |}.

Definition with_cad_top_inlets (f : pydict TopInlet -> pydict TopInlet)
  (c : CadObj) : CadObj :=
  {| cad_volume := cad_volume c; cad_type_top := cad_type_top c;
     cad_type_bottom := cad_type_bottom c; cad_h_filter := cad_h_filter c;
     cad_d_filter := cad_d_filter c; cad_d_can := cad_d_can c;
     cad_r := cad_r c; cad_r_constrained := cad_r_constrained c;
     cad_align_top_strategy := cad_align_top_strategy c;
     cad_align_filter_strategy := cad_align_filter_strategy c;
     cad_inputs := cad_inputs c; cad_outputs := cad_outputs c;
     cad_top_inlets := f (cad_top_inlets c) |}.

(** *** Statements of a method

    [M A] is a piece of a method that yields an [A] or raises. The world it
    leaves is the world at the return or at the raise: nothing is undone. *)

Definition M (A : Type) := World -> (exn + A) * World.

Definition ret {A} (a : A) : M A := fun w => (inr a, w).

Definition bind {A B} (c : M A) (k : A -> M B) : M B :=
  fun w =>
    match c w with
    | (inl e, w') => (inl e, w')
    | (inr a, w') => k a w'
    end.

Definition raise {A} (e : exn) : M A := fun w => (inl e, w).

(** [try: c  except <classes> as e: h e] *)
Definition try_except {A} (c : M A) (catches : exn -> bool) (h : exn -> M A)
  : M A :=
  fun w =>
    match c w with
    | (inl e, w') => if catches e then h e w' else (inl e, w')
    | (inr a, w') => (inr a, w')
    end.

Declare Scope py_scope.
Delimit Scope py_scope with py.
Notation "'let*' x ':=' c 'in' k" := (bind c (fun x => k))
  (at level 10, x name, c at level 100, k at level 200) : py_scope.
Notation "c ;; k" := (bind c (fun _ => k))
  (at level 100, k at level 200, right associativity) : py_scope.
Open Scope py_scope.

(** [for x in l: body x] *)
Fixpoint for_each {A} (l : list A) (body : A -> M unit) : M unit :=
  match l with
  | [] => ret tt
  | x :: l' => body x ;; for_each l' body
  end.

Definition Exception (e : exn) : bool := true.
Definition only (c : exn_class) (e : exn) : bool :=
  bool_decide (exn_cls e = c).

Definition read {A} (f : World -> A) : M A := fun w => (inr (f w), w).
Definition update (f : World -> World) : M unit := fun w => (inr tt, f w).

Definition emit (e : event) : M unit :=
  update (with_trace (fun t => t ++ [e])).

Definition l_debug (msg : string) : M unit := emit (Log DEBUG msg).
Definition l_error (msg : string) : M unit := emit (Log ERROR msg).

(** [QMessageBox.critical(self, title, mes, Ok)] *)
Definition critical (title mes : string) : M unit :=
  emit (MessageBox title mes).

(** [self.close()] *)
Definition close : M unit := emit Close.

(** [s in l] for a list of strings *)
Definition py_in (s : string) (l : list string) : bool :=
  bool_decide (elem_of s l).

Definition the_self : M ChemModule := read self.

(** *** Widgets

    [setEnabled] stores the flag. [setCheckState] stores the state and, when
    the state changes, emits [stateChanged], which [defineSlots] connected
    to [rConstraintChanged]; the same for [currentIndexChanged] of the two
    combo boxes. *)

Definition set_spin_r_enabled (b : bool) (e : Enabled) : Enabled :=
  {| spin_r_enabled := b;
     check_r_constrained_enabled := check_r_constrained_enabled e;
     spin_d_can_enabled := spin_d_can_enabled e |}.

Definition set_check_r_constrained_enabled (b : bool) (e : Enabled)
  : Enabled :=
  {| spin_r_enabled := spin_r_enabled e;
     check_r_constrained_enabled := b;
     spin_d_can_enabled := spin_d_can_enabled e |}.

Definition set_spin_d_can_enabled (b : bool) (e : Enabled) : Enabled :=
  {| spin_r_enabled := spin_r_enabled e;
     check_r_constrained_enabled := check_r_constrained_enabled e;
     spin_d_can_enabled := b |}.

Definition set_check_r_constrained (b : bool) (f : Form) : Form :=
  {| spin_vol := spin_vol f; combo_top := combo_top f;
     combo_bottom := combo_bottom f; spin_h_filter := spin_h_filter f;
     spin_d_filter := spin_d_filter f; spin_d_can := spin_d_can f;
     spin_r := spin_r f; check_r_constrained := b;
     combo_align_top_strategy := combo_align_top_strategy f;
     combo_align_filter_strategy := combo_align_filter_strategy f |}.

Definition set_combo_top (s : string) (f : Form) : Form :=
  {| spin_vol := spin_vol f; combo_top := s;
     combo_bottom := combo_bottom f; spin_h_filter := spin_h_filter f;
     spin_d_filter := spin_d_filter f; spin_d_can := spin_d_can f;
     spin_r := spin_r f; check_r_constrained := check_r_constrained f;
     combo_align_top_strategy := combo_align_top_strategy f;
     combo_align_filter_strategy := combo_align_filter_strategy f |}.

Definition set_combo_bottom (s : string) (f : Form) : Form :=
  {| spin_vol := spin_vol f; combo_top := combo_top f;
     combo_bottom := s; spin_h_filter := spin_h_filter f;
     spin_d_filter := spin_d_filter f; spin_d_can := spin_d_can f;
     spin_r := spin_r f; check_r_constrained := check_r_constrained f;
     combo_align_top_strategy := combo_align_top_strategy f;
     combo_align_filter_strategy := combo_align_filter_strategy f |}.

Definition set_spins (vol h_filter d_filter d_can r : num) (f : Form)
  : Form :=
  {| spin_vol := vol; combo_top := combo_top f;
     combo_bottom := combo_bottom f; spin_h_filter := h_filter;
     spin_d_filter := d_filter; spin_d_can := d_can;
     spin_r := r; check_r_constrained := check_r_constrained f;
     combo_align_top_strategy := combo_align_top_strategy f;
     combo_align_filter_strategy := combo_align_filter_strategy f |}.

Definition set_combo_align_top_strategy (s : string) (f : Form) : Form :=
  {| spin_vol := spin_vol f; combo_top := combo_top f;
     combo_bottom := combo_bottom f; spin_h_filter := spin_h_filter f;
     spin_d_filter := spin_d_filter f; spin_d_can := spin_d_can f;
     spin_r := spin_r f; check_r_constrained := check_r_constrained f;
     combo_align_top_strategy := s;
     combo_align_filter_strategy := combo_align_filter_strategy f |}.

Definition set_combo_align_filter_strategy (s : string) (f : Form) : Form :=
  {| spin_vol := spin_vol f; combo_top := combo_top f;
     combo_bottom := combo_bottom f; spin_h_filter := spin_h_filter f;
     spin_d_filter := spin_d_filter f; spin_d_can := spin_d_can f;
     spin_r := spin_r f; check_r_constrained := check_r_constrained f;
     combo_align_top_strategy := combo_align_top_strategy f;
     combo_align_filter_strategy := s |}.

(** [QDoubleSpinBox.setValue] keeps the value inside the range of the spin
    box: [0, 99.99] unless [setMinimum] and [setMaximum] changed it. *)
Definition bounded (lo hi v : num) : num :=
  if Qle_bool v lo then lo else if Qle_bool hi v then hi else v.

Definition spin_r_setEnabled (b : bool) : M unit :=
  update (with_self (with_enabled (set_spin_r_enabled b))).

Definition check_r_constrained_setEnabled (b : bool) : M unit :=
  update (with_self (with_enabled (set_check_r_constrained_enabled b))).

Definition spin_d_can_setEnabled (b : bool) : M unit :=
  update (with_self (with_enabled (set_spin_d_can_enabled b))).

Section Dialog.
Context {C : Collaborators}.

(** *** Calls that leave the file *)

(** [f_rea(volume, type_top, type_bottom, d_filter, h_filter, d_can=...,
    align_top_strategy=..., align_filter_strategy=...)]: a new object, or
    the exception of the constructor. *)
Definition construct (volume : num) (type_top type_bottom : string)
  (d_filter h_filter d_can : num)
  (align_top_strategy align_filter_strategy : string) : M ref :=
  match f_rea volume type_top type_bottom d_filter h_filter d_can
          align_top_strategy align_filter_strategy with
  | inl e => emit (New (inl e)) ;; raise e
  | inr c =>
      let* o := read (fun w => List.length (heap w)) in
      update (with_heap (fun h => h ++ [c])) ;;
      emit (New (inr o)) ;;
      ret o
  end.

(** A call or an attribute assignment on the object [o]. *)
Definition call (o : ref) (m : method) : M unit :=
  fun w =>
    match heap w !! o with
    | None => (inl (Exn OtherException "dangling reference"), w)
    | Some c =>
        let '(raised, c') := cad_method m c in
        let w' :=
          with_trace (fun t => t ++ [Call o m raised])
            (with_heap (fun h => <[o := c']> h) w) in
        match raised with
        | Some e => (inl e, w')
        | None => (inr tt, w')
        end
    end.

(** A call on [self.parent]. In test mode [self.parent] is [None]. *)
Definition call_parent (p : parent_call) : M unit :=
  fun w =>
    if test (self w) then
      (inl (Exn AttributeError "'NoneType' object has no attribute"), w)
    else
      let raised := parent_method p (heap w) in
      let w' := with_trace (fun t => t ++ [Parent p raised]) w in
      match raised with
      | Some e => (inl e, w')
      | None => (inr tt, w')
      end.

(** [self.cad_obj], where the source goes on to use it as an object. *)
Definition the_cad_obj : M ref :=
  let* s := the_self in
  match cad_obj s with
  | Some o => ret o
  | None => raise (Exn AttributeError "'NoneType' object has no attribute")
  end.

(** *** Slots of the form *)

Definition bottomTypeChanged : M unit :=
  let* s := the_self in
  let bottom_type := combo_bottom (form s) in
  if py_in bottom_type BOTTOMS_PIPE then spin_d_can_setEnabled true
  else spin_d_can_setEnabled false.

Definition rConstraintChanged : M unit :=
  let* s := the_self in
  if check_r_constrained (form s) then spin_r_setEnabled true
  else spin_r_setEnabled false.

Definition check_r_constrained_setCheckState (b : bool) : M unit :=
  let* s := the_self in
  if bool_decide (check_r_constrained (form s) = b) then ret tt
  else
    update (with_self (with_form (set_check_r_constrained b))) ;;
    rConstraintChanged.

Definition topTypeChanged : M unit :=
  let* s := the_self in
  let top_type := combo_top (form s) in
  if py_in top_type THREADED_TOPS then
    check_r_constrained_setCheckState true ;;
    spin_r_setEnabled false ;;
    check_r_constrained_setEnabled false
  else
    check_r_constrained_setEnabled true.

(** *** The I/O registry *)

Definition _addNewRow (name type_io : string) (connected : bool)
  : M unit :=
  l_debug ("Adding new row " +:+ name +:+ ", " +:+ type_io) ;;
  let item_type_io :=
    if decide (type_io = "custom") then "Custom top inlet"
    else if decide (type_io = "luer") then "Luer top inlet"
    else type_io in
  let item_connected :=
    if connected then "Connected" else "Not connected" in
  let flags := negb (bool_decide (type_io = DEF_OUTPUT)) in
  update (with_self (with_table_io (fun t =>
    t ++ [ {| row_name := name; row_type := item_type_io;
              row_connected := item_connected; row_flags := flags |} ]))).

(** The row [_addNewRow name type_io False] appends. *)
Definition new_row (name type_io : string) : Row :=
  {| row_name := name;
     row_type :=
       if decide (type_io = "custom") then "Custom top inlet"
       else if decide (type_io = "luer") then "Luer top inlet"
       else type_io;
     row_connected := "Not connected";
     row_flags := negb (bool_decide (type_io = DEF_OUTPUT)) |}.

(** [params["type_io"]] on a value of [dict_inputs] or [dict_outputs] *)
Definition getitem_type_io (params : SideIO) : M string :=
  match sio_type_io params with
  | Some t => ret t
  | None => raise (Exn KeyError "'type_io'")
  end.

(** [addInput(params)]: [name] is [params["name"]], and [params] is the
    dict after [del params["name"]]. *)
Definition addInput (name : string) (params : SideIO) : M unit :=
  l_debug "Filter Reactor, adding input" ;;
  let* s := the_self in
  (if negb (dict_mem name (dict_inputs s)) then
     let* type_io := getitem_type_io params in
     _addNewRow name type_io false ;;
     l_debug "module_filter_reactor: addInput"
   else
     l_debug ("addInput, updating input " +:+ name)) ;;
  update (with_self (with_dict_inputs (dict_set name params))).

Definition addOutput (name : string) (params : SideIO) : M unit :=
  l_debug "Filter Reactor, adding output" ;;
  let* s := the_self in
  (if negb (dict_mem name (dict_outputs s)) then
     let* type_io := getitem_type_io params in
     _addNewRow name type_io false ;;
     l_debug "module_filter_reactor: addOutput"
   else
     l_debug ("addOutput, updating output " +:+ name)) ;;
  update (with_self (with_dict_outputs (dict_set name params))).

Definition addTopInlet (name : string) (params : TopIO) : M unit :=
  l_debug "Filter Reactor, adding top inlet" ;;
  let* s := the_self in
  (if negb (dict_mem name (dict_top_inlets s)) then
     _addNewRow name (tio_type_io params) false ;;
     l_debug "module_filter_reactor: top inlet"
   else
     l_debug ("addTopInlet, updating inlet " +:+ name)) ;;
  update (with_self (with_dict_top_inlets (dict_set name params))).

(** [del d[name]] on one of the dicts of the dialog or of a CAD object *)
Definition del_item {V} (name : string) (d : pydict V)
  (store : pydict V -> World -> World) : M unit :=
  match dict_del name d with
  | Some d' => update (store d')
  | None => raise (Exn KeyError name)
  end.

(** [del self.cad_obj.<dict>[name]], the CAD object being [o] *)
Definition del_cad_item {V} (o : ref) (name : string)
  (get : CadObj -> pydict V)
  (set : (pydict V -> pydict V) -> CadObj -> CadObj) : M unit :=
  let* h := read heap in
  match h !! o with
  | None => raise (Exn OtherException "dangling reference")
  | Some c =>
      del_item name (get c)
        (fun d' => with_heap (fun h => <[o := set (fun _ => d') c]> h))
  end.

(** [self.table_io.item(row, _)]: [None] past the last row, and
    [None.text()] raises. *)
Definition table_item (row : nat) : M Row :=
  let* s := the_self in
  match table_io s !! row with
  | Some it => ret it
  | None => raise (Exn AttributeError "'NoneType' object has no attribute 'text'")
  end.

(** [deleteIO]. [selectedRows] is what
    [self.table_io.selectionModel().selectedRows()] returns when the slot
    runs: the rows the user selected, kept by Qt. *)
Definition deleteIO (selectedRows : list nat) : M unit :=
  match selectedRows with
  | [] => l_debug "No I/O selected, can't delete"
  | row :: _ =>
      let* it := table_item row in
      let name := row_name it in
      let type_io := row_type it in
      if decide (type_io = DEF_OUTPUT) then ret tt
      else
        let* s := the_self in
        (if decide (type_io = SIDE_INPUT) then
           del_item name (dict_inputs s)
             (fun d => with_self (with_dict_inputs (fun _ => d))) ;;
           match cad_obj s with
           | Some o => del_cad_item o name cad_inputs with_cad_inputs
           | None => ret tt
           end
         else if decide (type_io = SIDE_OUTPUT) then
           del_item name (dict_outputs s)
             (fun d => with_self (with_dict_outputs (fun _ => d))) ;;
           match cad_obj s with
           | Some o => del_cad_item o name cad_outputs with_cad_outputs
           | None => ret tt
           end
         else
           del_item name (dict_top_inlets s)
             (fun d => with_self (with_dict_top_inlets (fun _ => d))) ;;
           match cad_obj s with
           | Some o =>
               del_cad_item o name cad_top_inlets with_cad_top_inlets
           | None => ret tt
           end) ;;
        l_debug ("Filter reactor, deleting I/O " +:+ name) ;;
        update (with_self (with_table_io (delete row)))
  end.

(** *** Attaching the registry to a CAD object *)

Definition buildInputs (cad_obj : ref) : M unit :=
  l_debug "Filter reactor, building inputs" ;;
  let* s := the_self in
  for_each (dict_inputs s) (fun item =>
    let name := item.1 in
    let in_io := item.2 in
    call cad_obj
      (addInputPercentage name (sio_height_per in_io) (sio_angle in_io)
         (sio_diameter in_io) (sio_external in_io))).

Definition buildOutputs (cad_obj : ref) : M unit :=
  l_debug "Filter reactor, building outputs" ;;
  let* s := the_self in
  for_each (dict_outputs s) (fun item =>
    let name := item.1 in
    let out_io := item.2 in
    if decide (name = "default") then ret tt
    else
      call cad_obj
        (addOutputPercentage name (sio_height_per out_io)
           (sio_angle out_io) (sio_diameter out_io)
           (sio_external out_io))).

(** The loop of [buildTopInlets]. Its [return] leaves the method, not
    only the loop: the result is [false] when the loop returned and
    [true] when it ran to its end. *)
Fixpoint buildTopInlets_loop (cad_obj : ref) (items : pydict TopIO)
  : M bool :=
  match items with
  | [] => ret true
  | (name, io) :: items' =>
      let* attached :=
        try_except
          (call cad_obj
             (addCustomTopInlet name (tio_diameter io) (tio_length io)
                (tio_walls io) (tio_type_io io)) ;;
           ret true)
          (only IncompatibilityError)
          (fun _ =>
             l_debug "can't build top inlet: no custom top" ;;
             ret false) in
      if attached then buildTopInlets_loop cad_obj items' else ret false
  end.

(** The text of the message box: a triple-quoted string of the source,
    with its line feeds and its indentation. *)
Definition line_feed : string :=
  String (Ascii.ascii_of_nat 10) EmptyString.

Definition auto_place_mes : string :=
  line_feed +:+
  "            Impossible to auto-place the top inlets. Collision ?" +:+
  line_feed +:+ "            ".

Definition buildTopInlets (cad_obj : ref) : M unit :=
  l_debug "Filter Reactor, building top inlets" ;;
  let* s := the_self in
  let* fell_through := buildTopInlets_loop cad_obj (dict_top_inlets s) in
  if fell_through then
    try_except
      (call cad_obj autoPlaceTopInlets)
      (only ConstraintError)
      (fun _ =>
         l_debug "Can't auto-place top inlets, collision ?" ;;
         critical "Auto-placement error" auto_place_mes)
  else ret tt.

(** *** Commit *)

Definition read_align_top (text : string) : string :=
  if decide (text = "Expand body") then "expand"
  else if decide (text = "Lift reactor") then "lift"
  else text.

Definition read_align_filter (text : string) : string :=
  if decide (text = "Adapt") then "adapt"
  else if decide (text = "Lift reactor") then "lift"
  else text.

(** The ten keys [readForm] assigns to [self.params]. *)
Definition snapshot (f : Form) : Params :=
  {| p_volume := spin_vol f;
     p_type_top := combo_top f;
     p_type_bottom := combo_bottom f;
     p_h_filter := spin_h_filter f;
     p_d_filter := spin_d_filter f;
     p_d_can := spin_d_can f;
     p_r := spin_r f;
     p_r_constrained := check_r_constrained f;
     p_align_top_strategy := read_align_top (combo_align_top_strategy f);
     p_align_filter_strategy :=
       read_align_filter (combo_align_filter_strategy f) |}.

Definition readForm : M unit :=
  let* s := the_self in
  update (with_self (with_params (snapshot (form s)))) ;;
  l_debug "Filter reactor, read form".

Definition _buildCADObject : M ref :=
  let* s := the_self in
  let p := params s in
  l_debug "Filter reactor, buildModule wo cad_obj" ;;
  let* reactor :=
    construct (p_volume p) (p_type_top p) (p_type_bottom p)
      (p_d_filter p) (p_h_filter p) (p_d_can p)
      (p_align_top_strategy p) (p_align_filter_strategy p) in
  (if p_r_constrained p && negb (py_in (p_type_top p) THREADED_TOPS)
   then call reactor (setattr (Set_r (p_r p)))
   else ret tt) ;;
  ret reactor.

(** The body of the [try] that both commit paths share. *)
Definition build_ios (cad_obj : ref) : M unit :=
  buildInputs cad_obj ;;
  buildOutputs cad_obj ;;
  buildTopInlets cad_obj.

Definition _buildNewModule : M bool :=
  l_debug "Filter reactor, _buildNewModule" ;;
  let* built :=
    try_except
      (let* reactor := _buildCADObject in ret (Some reactor))
      Exception
      (fun e =>
         let mes := "Impossible to create filter reactor: " +:+ exn_str e in
         l_error mes ;;
         critical "Creation error" mes ;;
         ret None) in
  match built with
  | None => ret false
  | Some reactor =>
      let* ok :=
        try_except
          (build_ios reactor ;; ret true)
          Exception
          (fun e =>
             let mes := "Impossible to create I/Os: " +:+ exn_str e in
             l_error mes ;;
             critical "I/Os error" mes ;;
             ret false) in
      if ok then
        call_parent (parent_buildModule reactor) ;;
        ret true
      else ret false
  end.

(** [self.cad_obj.attr = value] *)
Definition set_cad_obj (a : attr_write) : M unit :=
  let* o := the_cad_obj in
  call o (setattr a).

(** The assignments of [_updateModule] to the CAD object under edit,
    between the validation and the [try] around the I/O. *)
Definition update_attributes : M unit :=
  let* s := the_self in
  let p := params s in
  (if p_r_constrained p && negb (py_in (p_type_top p) THREADED_TOPS)
   then set_cad_obj (Set_r (p_r p))
   else set_cad_obj (Set_r_constrained false)) ;;
  l_debug "Filter reactor, buildModule w cad_obj" ;;
  set_cad_obj (Set_volume (p_volume p)) ;;
  set_cad_obj (Set_type_top (p_type_top p)) ;;
  set_cad_obj (Set_type_bottom (p_type_bottom p)) ;;
  set_cad_obj (Set_d_can (p_d_can p)) ;;
  set_cad_obj (Set_h_filter (p_h_filter p)) ;;
  set_cad_obj (Set_d_filter (p_d_filter p)) ;;
  set_cad_obj (Set_align_top_strategy (p_align_top_strategy p)) ;;
  set_cad_obj (Set_align_filter_strategy (p_align_filter_strategy p)).

Definition _updateModule : M bool :=
  l_debug "Filter reactor, _updateModule" ;;
  let* valid :=
    try_except
      (_buildCADObject ;; ret true)
      Exception
      (fun e =>
         let mes := "Impossible to update reactor: " +:+ exn_str e in
         l_error mes ;;
         critical "Update error" mes ;;
         ret false) in
  if valid then
    update_attributes ;;
    let* ok :=
      try_except
        (let* o := the_cad_obj in build_ios o ;; ret true)
        Exception
        (fun e =>
           let mes := "Impossible to create I/Os: " +:+ exn_str e in
           l_error mes ;;
           critical "I/Os error" mes ;;
           ret false) in
    if ok then
      try_except
        (call_parent parent_refresh ;; ret true)
        Exception
        (fun e =>
           let mes := "Impossible to refresh filter reactor: " +:+ exn_str e in
           l_error mes ;;
           critical "Refresh error" mes ;;
           ret false)
    else ret false
  else ret false.

(** The slot of the OK button. *)
Definition buildModule : M unit :=
  readForm ;;
  let* s := the_self in
  (if negb (test s) then
     match cad_obj s with
     | None => _buildNewModule ;; ret tt
     | Some _ => _updateModule ;; ret tt
     end
   else ret tt) ;;
  close.

(** The slot of the Delete button. *)
Definition deleteModule : M unit :=
  l_debug "Reactor, deleteModule" ;;
  let* s := the_self in
  call_parent (parent_deleteModule (cad_obj s)) ;;
  close.

(** *** Opening the dialog *)

(** The items of [combo_bottom]: [initUI] removes [B_ROUND] from
    [f_rea.BOTTOMS] itself, so [restoreParams] sees the same list. *)
Fixpoint list_remove (x : string) (l : list string) : list string :=
  match l with
  | [] => []
  | y :: l' => if decide (y = x) then l' else y :: list_remove x l'
  end.

Definition list_bottoms : list string := list_remove B_ROUND BOTTOMS.

(** [combo_top.setCurrentIndex(f_rea.TOPS.index(text))]: [index] raises
    [ValueError] on a text that is not in the list; a change of index
    emits [currentIndexChanged]. *)
Definition combo_top_setCurrent (text : string) : M unit :=
  if py_in text TOPS then
    let* s := the_self in
    if decide (combo_top (form s) = text) then ret tt
    else
      update (with_self (with_form (set_combo_top text))) ;;
      topTypeChanged
  else raise (Exn ValueError (text +:+ " is not in list")).

Definition combo_bottom_setCurrent (text : string) : M unit :=
  if py_in text list_bottoms then
    let* s := the_self in
    if decide (combo_bottom (form s) = text) then ret tt
    else
      update (with_self (with_form (set_combo_bottom text))) ;;
      bottomTypeChanged
  else raise (Exn ValueError (text +:+ " is not in list")).

Definition restoreIO (c : CadObj) : M unit :=
  for_each (cad_inputs c) (fun item =>
    let name := item.1 in
    let in_io := item.2 in
    let connected := io_connected in_io in
    let params :=
      {| sio_type_io := None;
         sio_height_per := getHeightPercentage c in_io;
         sio_angle := io_angle in_io;
         sio_diameter := io_diameter in_io;
         sio_external := io_external in_io;
         sio_connected := Some connected |} in
    l_debug "Filter reactor, restoring I/O" ;;
    update (with_self (with_dict_inputs (dict_set name params))) ;;
    _addNewRow name SIDE_INPUT connected) ;;
  for_each (cad_outputs c) (fun item =>
    let name := item.1 in
    let out_io := item.2 in
    let connected := io_connected out_io in
    let params :=
      {| sio_type_io := None;
         sio_height_per := getHeightPercentage c out_io;
         sio_angle := io_angle out_io;
         sio_diameter := io_diameter out_io;
         sio_external := io_external out_io;
         sio_connected := Some connected |} in
    l_debug "Filter reactor, restoring I/O" ;;
    update (with_self (with_dict_outputs (dict_set name params))) ;;
    if decide (name = "default") then _addNewRow name DEF_OUTPUT connected
    else _addNewRow name SIDE_OUTPUT connected) ;;
  for_each (cad_top_inlets c) (fun item =>
    let name := item.1 in
    let top_io := item.2 in
    let type_io := ti_type_io top_io in
    let connected := false in
    let params :=
      {| tio_diameter := ti_diameter top_io;
         tio_length := ti_length top_io;
         tio_walls := ti_walls top_io;
         tio_type_io := type_io;
         tio_connected := Some connected |} in
    l_debug "Filter reactor, restoring I/O" ;;
    update (with_self (with_dict_top_inlets (dict_set name params))) ;;
    _addNewRow name type_io connected) ;;
  l_debug "Filter reactor, restored I/O".

Definition restoreParams : M unit :=
  let* s := the_self in
  match cad_obj s with
  | None => ret tt
  | Some o =>
      let* h := read heap in
      match h !! o with
      | None => raise (Exn OtherException "dangling reference")
      | Some c =>
          let p :=
            {| p_volume := cad_volume c;
               p_type_top := cad_type_top c;
               p_type_bottom := cad_type_bottom c;
               p_h_filter := cad_h_filter c;
               p_d_filter := cad_d_filter c;
               p_d_can := cad_d_can c;
               p_r := cad_r c;
               p_r_constrained := cad_r_constrained c;
               p_align_top_strategy := p_align_top_strategy (params s);
               p_align_filter_strategy :=
                 p_align_filter_strategy (params s) |} in
          update (with_self (with_params p)) ;;
          update (with_self (with_form (fun f =>
            set_spins (bounded 0%Q 200%Q (p_volume p)) (spin_h_filter f)
              (spin_d_filter f) (spin_d_can f) (spin_r f) f))) ;;
          combo_top_setCurrent (p_type_top p) ;;
          combo_bottom_setCurrent (p_type_bottom p) ;;
          update (with_self (with_form (fun f =>
            set_spins (spin_vol f) (bounded 0%Q 1000%Q (p_h_filter p))
              (bounded 0%Q 200%Q (p_d_filter p))
              (bounded 0%Q 99.99%Q (p_d_can p))
              (bounded 0%Q 99.99%Q (p_r p)) f))) ;;
          (if p_r_constrained p then
             check_r_constrained_setCheckState true ;;
             if py_in (p_type_top p) THREADED_TOPS then
               spin_r_setEnabled false ;;
               check_r_constrained_setEnabled false
             else check_r_constrained_setEnabled true
           else
             check_r_constrained_setCheckState false ;;
             spin_r_setEnabled false) ;;
          (if decide (cad_align_top_strategy c = "expand") then
             if py_in "Expand body" ALIGN_TOP_STRATEGIES then
               update (with_self (with_form
                 (set_combo_align_top_strategy "Expand body")))
             else ret tt
           else if decide (cad_align_top_strategy c = "lift") then
             if py_in "Lift reactor" ALIGN_TOP_STRATEGIES then
               update (with_self (with_form
                 (set_combo_align_top_strategy "Lift reactor")))
             else ret tt
           else ret tt) ;;
          (if decide (cad_align_filter_strategy c = "adapt") then
             if py_in "Adapt" ALIGN_FILTER_STRATEGIES then
               update (with_self (with_form
                 (set_combo_align_filter_strategy "Adapt")))
             else ret tt
           else if decide (cad_align_filter_strategy c = "lift") then
             if py_in "Lift reactor" ALIGN_FILTER_STRATEGIES then
               update (with_self (with_form
                 (set_combo_align_filter_strategy "Lift reactor")))
             else ret tt
           else ret tt) ;;
          restoreIO c ;;
          l_debug "Filter reactor, restored reactor"
      end
  end.

(** The dialog as [initUI] leaves it: the default values of the widgets,
    the radius spin box disabled, an empty table. [self.params] is an
    empty dict then; every read of it comes after [readForm], which
    assigns all its keys, so the record starts with the values of the
    form. *)
Definition initUI_form : Form :=
  {| spin_vol := 20%Q;
     combo_top := hd "" TOPS;
     combo_bottom := hd "" list_bottoms;
     spin_h_filter := 3%Q;
     spin_d_filter := 20%Q;
     spin_d_can := bounded 0%Q 99.99%Q D_CAN;
     spin_r := 0%Q;
     check_r_constrained := false;
     combo_align_top_strategy := hd "" ALIGN_TOP_STRATEGIES;
     combo_align_filter_strategy := hd "" ALIGN_FILTER_STRATEGIES |}.

Definition initUI_enabled : Enabled :=
  {| spin_r_enabled := false;
     check_r_constrained_enabled := true;
     spin_d_can_enabled := true |}.

Definition new_dialog (parent_is_None : bool) (cad_obj : option ref)
  : ChemModule :=
  {| test := parent_is_None;
     cad_obj := cad_obj;
     form := initUI_form;
     enabled := initUI_enabled;
     table_io := [];
     dict_inputs := [];
     dict_outputs := [];
     dict_top_inlets := [];
     params :=
       {| p_volume := spin_vol initUI_form;
          p_type_top := combo_top initUI_form;
          p_type_bottom := combo_bottom initUI_form;
          p_h_filter := spin_h_filter initUI_form;
          p_d_filter := spin_d_filter initUI_form;
          p_d_can := spin_d_can initUI_form;
          p_r := spin_r initUI_form;
          p_r_constrained := false;
          p_align_top_strategy := "";
          p_align_filter_strategy := "" |} |}.

(** [ChemModule(parent, cad_obj)], the CAD objects that exist being
    [objects]. *)
Definition __init__ (parent_is_None : bool) (cad_obj : option ref)
  (objects : list CadObj) : (exn + unit) * World :=
  (l_debug "Module path" ;;
   (if py_in B_ROUND BOTTOMS then ret tt
    else l_debug "Round bottom already removed") ;;
   restoreParams)
    {| self := new_dialog parent_is_None cad_obj;
       heap := objects;
       trace := [] |}.

(** *** What the commit is expected to call *)

(** The exception [_buildCADObject] raises on the parameters [p], if it
    raises one: that of the constructor, or that of the assignment of the
    radius to the new object. *)
Definition build_raises (p : Params) : option exn :=
  match f_rea (p_volume p) (p_type_top p) (p_type_bottom p)
          (p_d_filter p) (p_h_filter p) (p_d_can p)
          (p_align_top_strategy p) (p_align_filter_strategy p) with
  | inl e => Some e
  | inr c =>
      if p_r_constrained p && negb (py_in (p_type_top p) THREADED_TOPS)
      then (cad_method (setattr (Set_r (p_r p))) c).1
      else None
  end.

(** The attributes [_updateModule] assigns, in the order of the source:
    the radius or its constraint, then the others. *)
Definition radius_assignment (p : Params) : attr_write :=
  if p_r_constrained p && negb (py_in (p_type_top p) THREADED_TOPS)
  then Set_r (p_r p)
  else Set_r_constrained false.

Definition other_assignments (p : Params) : list attr_write :=
  [ Set_volume (p_volume p);
    Set_type_top (p_type_top p);
    Set_type_bottom (p_type_bottom p);
    Set_d_can (p_d_can p);
    Set_h_filter (p_h_filter p);
    Set_d_filter (p_d_filter p);
    Set_align_top_strategy (p_align_top_strategy p);
    Set_align_filter_strategy (p_align_filter_strategy p) ].

(** The calls that attach the registry to a CAD object: the inputs, the
    outputs but the one named "default", the top inlets, the
    auto-placement. *)
Definition input_call (item : string * SideIO) : option method :=
  Some (addInputPercentage item.1 (sio_height_per item.2)
          (sio_angle item.2) (sio_diameter item.2) (sio_external item.2)).

Definition output_call (item : string * SideIO) : option method :=
  if decide (item.1 = "default") then None
  else
    Some (addOutputPercentage item.1 (sio_height_per item.2)
            (sio_angle item.2) (sio_diameter item.2)
            (sio_external item.2)).

Definition top_inlet_call (item : string * TopIO) : method :=
  addCustomTopInlet item.1 (tio_diameter item.2) (tio_length item.2)
    (tio_walls item.2) (tio_type_io item.2).

Definition attach_calls (s : ChemModule) : list method :=
  omap input_call (dict_inputs s) ++
  omap output_call (dict_outputs s) ++
  map top_inlet_call (dict_top_inlets s) ++
  [autoPlaceTopInlets].
End Dialog.

(** * What a method leaves behind *)

(** ** Reading the trace *)

Definition dialogs (t : list event) : list (string * string) :=
  omap (fun e =>
    match e with MessageBox title mes => Some (title, mes) | _ => None end) t.

Definition parent_calls (t : list event) : list parent_call :=
  omap (fun e => match e with Parent c _ => Some c | _ => None end) t.

Definition constructions (t : list event) : list (exn + ref) :=
  omap (fun e => match e with New res => Some res | _ => None end) t.

(** The calls and assignments made on the object [o], in order. *)
Definition calls_on (o : ref) (t : list event) : list method :=
  omap (fun e =>
    match e with
    | Call o' m _ => if decide (o' = o) then Some m else None
    | _ => None
    end) t.

Definition is_log (e : event) : Prop :=
  match e with Log _ _ => True | _ => False end.

(** An event that reaches neither the user, nor the parent window, nor a
    CAD object below the reference [n]. *)
Definition silent_above (n : nat) (e : event) : Prop :=
  match e with
  | Log _ _ | New _ => True
  | Call o _ _ => n <= o
  | MessageBox _ _ | Parent _ _ | Close => False
  end.

(** An event of attaching I/O to the object [o]: a log line, a call on
    [o], the message box of the auto-placement. *)
Definition attaching (o : ref) (e : event) : Prop :=
  match e with
  | Log _ _ => True
  | Call o' _ _ => o' = o
  | MessageBox title _ => title = "Auto-placement error"
  | New _ | Parent _ _ | Close => False
  end.

(** ** Relations a method keeps between the world before and after *)

Definition preserves {A} (R : World -> World -> Prop) (c : M A) : Prop :=
  forall w, R w (c w).2.



(** The dialog is the same Python object with the same parent and the same
    CAD object: no method assigns [self.test] or [self.cad_obj]. *)
Definition same_dialog (w w' : World) : Prop :=
  test (self w') = test (self w) /\ cad_obj (self w') = cad_obj (self w).

(** Nothing of the dialog changed. *)
Definition same_self (w w' : World) : Prop := self w' = self w.

(** No CAD object changed and none was made. *)
Definition same_heap (w w' : World) : Prop := heap w' = heap w.

(** The trace grew by events that all satisfy [P]. *)
Definition grows (P : event -> Prop) (w w' : World) : Prop :=
  exists t, trace w' = trace w ++ t /\ Forall P t.

(** Only the object [o] may have changed, and no object was made. *)
Definition only_object (o : ref) (w w' : World) : Prop :=
  List.length (heap w') = List.length (heap w) /\
  forall o', o' <> o -> heap w' !! o' = heap w !! o'.


(** * The collaborators as the specification describes them

    The [ccad] package and the parent window are not part of this file.
    Where a statement needs to know what they do, it is made over the
    collaborators below, which do what the specification says of them and
    leave to a [Geometry] what the specification leaves open. *)

Module SpecCAD.

(** What the specification leaves to the geometry library and to the
    assembly: the styles, which combinations of parameters can be built,
    the radius it computes, which attachments it refuses, when top inlets
    collide, and when the parent fails to redraw. *)
Record Geometry := {
  g_tops : list string;
  g_bottoms : list string;
  g_round : string;
  g_threaded_tops : list string;
  g_custom_tops : list string;
  g_bottoms_pipe : list string;
  g_d_can : num;
  construction_error :
    num -> string -> string -> num -> num -> num -> string -> string ->
    option string;
  derived_radius : num -> string -> num;
  attach_error : method -> CadObj -> option exn;
  collision : CadObj -> bool;
  refresh_error : list CadObj -> option exn
}.

Section Model.
Variable g : Geometry.

Definition set_radius (r : num) (constrained : bool) (c : CadObj)
  : CadObj :=
  {| cad_volume := cad_volume c; cad_type_top := cad_type_top c;
     cad_type_bottom := cad_type_bottom c;
     cad_h_filter := cad_h_filter c; cad_d_filter := cad_d_filter c;
     cad_d_can := cad_d_can c;
     cad_r := r; cad_r_constrained := constrained;
     cad_align_top_strategy := cad_align_top_strategy c;
     cad_align_filter_strategy := cad_align_filter_strategy c;
     cad_inputs := cad_inputs c; cad_outputs := cad_outputs c;
     cad_top_inlets := cad_top_inlets c |}.

(** Modelled from the spec: the invariant of the module parameters,
    which the handle of the geometry collaborator (missing from the
    sources) keeps. "If type_top is in the threaded subset,
    radius_constrained is forced true and radius is not independently
    editable (it is derived by the geometry collaborator). If
    radius_constrained is false, radius is ignored": the radius is then
    the one the geometry computes. *)
Definition recalculate (c : CadObj) : CadObj :=
  if py_in (cad_type_top c) (g_threaded_tops g) then
    set_radius (derived_radius g (cad_volume c) (cad_type_top c)) true c
  else if cad_r_constrained c then c
  else
    set_radius (derived_radius g (cad_volume c) (cad_type_top c)) false c.

(** Modelled from the spec: an assignment to an attribute of the handle
    (the setters of [FilterReactorCAD] are missing from the sources)
    stores the value, the handle then restores its invariant. Assigning
    the radius constrains it: [_buildCADObject] passes the constraint
    to a new object by assigning [r] and nothing else. *)
Definition store (a : attr_write) (c : CadObj) : CadObj :=
  match a with
  | Set_r v => set_radius v true c
  | Set_r_constrained b => set_radius (cad_r c) b c
  | Set_volume v =>
      {| cad_volume := v; cad_type_top := cad_type_top c;
         cad_type_bottom := cad_type_bottom c;
         cad_h_filter := cad_h_filter c; cad_d_filter := cad_d_filter c;
         cad_d_can := cad_d_can c;
         cad_r := cad_r c; cad_r_constrained := cad_r_constrained c;
         cad_align_top_strategy := cad_align_top_strategy c;
         cad_align_filter_strategy := cad_align_filter_strategy c;
         cad_inputs := cad_inputs c; cad_outputs := cad_outputs c;
         cad_top_inlets := cad_top_inlets c |}
  | Set_type_top v =>
      {| cad_volume := cad_volume c; cad_type_top := v;
         cad_type_bottom := cad_type_bottom c;
         cad_h_filter := cad_h_filter c; cad_d_filter := cad_d_filter c;
         cad_d_can := cad_d_can c;
         cad_r := cad_r c; cad_r_constrained := cad_r_constrained c;
         cad_align_top_strategy := cad_align_top_strategy c;
         cad_align_filter_strategy := cad_align_filter_strategy c;
         cad_inputs := cad_inputs c; cad_outputs := cad_outputs c;
         cad_top_inlets := cad_top_inlets c |}
  | Set_type_bottom v =>
      {| cad_volume := cad_volume c; cad_type_top := cad_type_top c;
         cad_type_bottom := v;
         cad_h_filter := cad_h_filter c; cad_d_filter := cad_d_filter c;
         cad_d_can := cad_d_can c;
         cad_r := cad_r c; cad_r_constrained := cad_r_constrained c;
         cad_align_top_strategy := cad_align_top_strategy c;
         cad_align_filter_strategy := cad_align_filter_strategy c;
         cad_inputs := cad_inputs c; cad_outputs := cad_outputs c;
         cad_top_inlets := cad_top_inlets c |}
  | Set_d_can v =>
      {| cad_volume := cad_volume c; cad_type_top := cad_type_top c;
         cad_type_bottom := cad_type_bottom c;
         cad_h_filter := cad_h_filter c; cad_d_filter := cad_d_filter c;
         cad_d_can := v;
         cad_r := cad_r c; cad_r_constrained := cad_r_constrained c;
         cad_align_top_strategy := cad_align_top_strategy c;
         cad_align_filter_strategy := cad_align_filter_strategy c;
         cad_inputs := cad_inputs c; cad_outputs := cad_outputs c;
         cad_top_inlets := cad_top_inlets c |}
  | Set_h_filter v =>
      {| cad_volume := cad_volume c; cad_type_top := cad_type_top c;
         cad_type_bottom := cad_type_bottom c;
         cad_h_filter := v; cad_d_filter := cad_d_filter c;
         cad_d_can := cad_d_can c;
         cad_r := cad_r c; cad_r_constrained := cad_r_constrained c;
         cad_align_top_strategy := cad_align_top_strategy c;
         cad_align_filter_strategy := cad_align_filter_strategy c;
         cad_inputs := cad_inputs c; cad_outputs := cad_outputs c;
         cad_top_inlets := cad_top_inlets c |}
  | Set_d_filter v =>
      {| cad_volume := cad_volume c; cad_type_top := cad_type_top c;
         cad_type_bottom := cad_type_bottom c;
         cad_h_filter := cad_h_filter c; cad_d_filter := v;
         cad_d_can := cad_d_can c;
         cad_r := cad_r c; cad_r_constrained := cad_r_constrained c;
         cad_align_top_strategy := cad_align_top_strategy c;
         cad_align_filter_strategy := cad_align_filter_strategy c;
         cad_inputs := cad_inputs c; cad_outputs := cad_outputs c;
         cad_top_inlets := cad_top_inlets c |}
  | Set_align_top_strategy v =>
      {| cad_volume := cad_volume c; cad_type_top := cad_type_top c;
         cad_type_bottom := cad_type_bottom c;
         cad_h_filter := cad_h_filter c; cad_d_filter := cad_d_filter c;
         cad_d_can := cad_d_can c;
         cad_r := cad_r c; cad_r_constrained := cad_r_constrained c;
         cad_align_top_strategy := v;
         cad_align_filter_strategy := cad_align_filter_strategy c;
         cad_inputs := cad_inputs c; cad_outputs := cad_outputs c;
         cad_top_inlets := cad_top_inlets c |}
  | Set_align_filter_strategy v =>
      {| cad_volume := cad_volume c; cad_type_top := cad_type_top c;
         cad_type_bottom := cad_type_bottom c;
         cad_h_filter := cad_h_filter c; cad_d_filter := cad_d_filter c;
         cad_d_can := cad_d_can c;
         cad_r := cad_r c; cad_r_constrained := cad_r_constrained c;
         cad_align_top_strategy := cad_align_top_strategy c;
         cad_align_filter_strategy := v;
         cad_inputs := cad_inputs c; cad_outputs := cad_outputs c;
         cad_top_inlets := cad_top_inlets c |}
  end.

Definition new_io (height_per angle diameter : num) (external : bool)
  : InputOutput :=
  {| io_height := height_per; io_angle := angle;
     io_diameter := diameter; io_external := external;
     io_connected := false |}.

(** Modelled from the spec: the operations of a module handle (the
    methods of [FilterReactorCAD] are missing from the sources).
    "attach/detach input, output, top inlet (each may fail with an
    incompatibility or constraint condition); autoPlaceTopInlets() (may
    fail with a collision condition)"; a top style that does not
    support custom inlets raises the incompatibility. A call that fails
    leaves the handle as it was. *)
Definition spec_method (m : method) (c : CadObj) : option exn * CadObj :=
  match m with
  | setattr a => (None, recalculate (store a c))
  | addInputPercentage name h a d ext =>
      match attach_error g m c with
      | Some e => (Some e, c)
      | None =>
          (None, with_cad_inputs (dict_set name (new_io h a d ext)) c)
      end
  | addOutputPercentage name h a d ext =>
      match attach_error g m c with
      | Some e => (Some e, c)
      | None =>
          (None, with_cad_outputs (dict_set name (new_io h a d ext)) c)
      end
  | addCustomTopInlet name d l wl t =>
      if py_in (cad_type_top c) (g_custom_tops g) then
        match attach_error g m c with
        | Some e => (Some e, c)
        | None =>
            (None,
             with_cad_top_inlets
               (dict_set name
                  {| ti_diameter := d; ti_length := l; ti_walls := wl;
                     ti_type_io := t |}) c)
        end
      else (Some (Exn IncompatibilityError "no custom top"), c)
  | autoPlaceTopInlets =>
      if collision g c then
        (Some (Exn ConstraintError "top inlets collide"), c)
      else (None, c)
  end.

(** Modelled from the spec: the constructor of the geometry
    collaborator (missing from the sources). "construct(volume,
    topType, bottomType, filterDiameter, filterHeight, pipeDiameter,
    radius?, alignTopStrategy, alignFilterStrategy) -> ModuleHandle,
    fails with a construction error carrying a human-readable cause";
    the default output is the one "the collaborator creates
    implicitly". *)
Definition spec_f_rea (volume : num) (type_top type_bottom : string)
  (d_filter h_filter d_can : num)
  (align_top_strategy align_filter_strategy : string) : exn + CadObj :=
  match construction_error g volume type_top type_bottom d_filter
          h_filter d_can align_top_strategy align_filter_strategy with
  | Some cause => inl (Exn OtherException cause)
  | None =>
      inr (recalculate
        {| cad_volume := volume; cad_type_top := type_top;
           cad_type_bottom := type_bottom;
           cad_h_filter := h_filter; cad_d_filter := d_filter;
           cad_d_can := d_can;
           cad_r := 0%Q; cad_r_constrained := false;
           cad_align_top_strategy := align_top_strategy;
           cad_align_filter_strategy := align_filter_strategy;
           cad_inputs := [];
           cad_outputs := [("default", new_io 0%Q 0%Q 0%Q false)];
           cad_top_inlets := [] |})
  end.

(** Modelled from the spec: the owning assembly collaborator (the
    parent window is missing from the sources): "buildModule(handle)
    to register a freshly created module; deleteModule(handle) to
    remove one; refresh() to redraw after an in-place update", of which
    the refresh can fail. *)
Definition spec_parent (p : parent_call) (h : list CadObj) : option exn :=
  match p with
  | parent_refresh => refresh_error g h
  | _ => None
  end.

Definition collaborators : Collaborators :=
  {| TOPS := g_tops g;
     BOTTOMS := g_bottoms g;
     B_ROUND := g_round g;
     THREADED_TOPS := g_threaded_tops g;
     BOTTOMS_PIPE := g_bottoms_pipe g;
     ALIGN_TOP_STRATEGIES := ["Expand body"; "Lift reactor"];
     ALIGN_FILTER_STRATEGIES := ["Adapt"; "Lift reactor"];
     D_CAN := g_d_can g;
     f_rea := spec_f_rea;
     cad_method := spec_method;
     getHeightPercentage := fun _ io => io_height io;
     parent_method := spec_parent |}.
End Model.

(** A geometry to run the dialog on: an open top "A" that takes custom
    inlets, a threaded top "GL45" of radius 20 that does not, a filter
    that must fit the body, side I/O no wider than 10, at most two top
    inlets. *)
Definition sample : Geometry :=
  {| g_tops := ["A"; "GL45"];
     g_bottoms := ["round"; "flat"; "round with pipe"];
     g_round := "round";
     g_threaded_tops := ["GL45"];
     g_custom_tops := ["A"];
     g_bottoms_pipe := ["flat"; "round with pipe"];
     g_d_can := 3%Q;
     construction_error := fun volume _ _ d_filter _ _ _ _ =>
       if Qle_bool d_filter 100%Q then None
       else Some "filter too large";
     derived_radius := fun volume type_top =>
       if decide (type_top = "GL45") then 20%Q else (volume / 2)%Q;
     attach_error := fun m _ =>
       match m with
       | addInputPercentage _ _ _ d _ | addOutputPercentage _ _ _ d _ =>
           if Qle_bool d 10%Q then None
           else Some (Exn OtherException "I/O too wide")
       | _ => None
       end;
     collision := fun c => bool_decide (2 < List.length (cad_top_inlets c));
     refresh_error := fun _ => None |}.

End SpecCAD.

(** * The I/O registry *)

(** What [addInput], [addOutput] and [addTopInlet] do to the dict [dict] of
    their kind and to the table, from the world [w] to the world [w']: the
    descriptor [v] is stored under [name] and no other name changes; under a
    name that was absent the dict and the table both grow by exactly one
    entry, at their end; under a name that was present the table and the
    keys of the dict, with their order, stay. *)
Definition added_or_updated {V} (dict : ChemModule -> pydict V)
  (name : string) (v : V) (type_io : string) (w w' : World) : Prop :=
  dict_get name (dict (self w')) = Some v /\
  (forall k, k <> name ->
     dict_get k (dict (self w')) = dict_get k (dict (self w))) /\
  (dict_mem name (dict (self w)) = false ->
     table_io (self w') = table_io (self w) ++ [new_row name type_io] /\
     List.length (table_io (self w')) = S (List.length (table_io (self w))) /\
     dict (self w') = dict (self w) ++ [(name, v)] /\
     List.length (dict (self w')) = S (List.length (dict (self w)))) /\
  (dict_mem name (dict (self w)) = true ->
     table_io (self w') = table_io (self w) /\
     dict_keys (dict (self w')) = dict_keys (dict (self w)) /\
     List.length (dict (self w')) = List.length (dict (self w))).


(** * Worlds to run the dialog in *)

Module Sample.
Definition C : Collaborators := SpecCAD.collaborators SpecCAD.sample.

(** A module of the assembly: top "A", flat bottom, a radius of 12 that
    the user constrained, one side input and the default output. *)
Definition live : CadObj :=
  {| cad_volume := 20%Q; cad_type_top := "A"; cad_type_bottom := "flat";
     cad_h_filter := 3%Q; cad_d_filter := 20%Q; cad_d_can := 3%Q;
     cad_r := 12%Q; cad_r_constrained := true;
     cad_align_top_strategy := "expand";
     cad_align_filter_strategy := "adapt";
     cad_inputs := [("in1", SpecCAD.new_io 0.5%Q 0%Q 2%Q false)];
     cad_outputs := [("default", SpecCAD.new_io 0%Q 0%Q 0%Q false)];
     cad_top_inlets := [] |}.

(** The dialog opened from the main window on that module. *)
Definition editing : World := (@__init__ C false (Some 0) [live]).2.

(** The dialog opened from the main window to add a module. *)
Definition creating : World := (@__init__ C false None []).2.

(** The dialog run on its own, with no parent. *)
Definition testing : World := (@__init__ C true None []).2.

(** What the I/O dialogs hand over. *)
Definition side (type_io : string) (diameter : num) : SideIO :=
  {| sio_type_io := Some type_io; sio_height_per := 0.5%Q;
     sio_angle := 0%Q; sio_diameter := diameter; sio_external := false;
     sio_connected := None |}.

Definition inlet (type_io : string) : TopIO :=
  {| tio_diameter := 2%Q; tio_length := 10%Q; tio_walls := 1%Q;
     tio_type_io := type_io; tio_connected := None |}.

(** The user picks a top in the combo box, or ticks the check box: the
    widget changes and its signal runs the slot. *)
Definition pick_top (text : string) : M unit :=
  @combo_top_setCurrent C text.

Definition run {A} (c : M A) (w : World) : World := (c w).2.

(** The user types a filter diameter, a volume. *)
Definition type_d_filter (v : num) : M unit :=
  update (with_self (with_form (fun f =>
    set_spins (spin_vol f) (spin_h_filter f) v (spin_d_can f) (spin_r f) f))).

Definition type_volume (v : num) : M unit :=
  update (with_self (with_form (fun f =>
    set_spins v (spin_h_filter f) (spin_d_filter f) (spin_d_can f)
      (spin_r f) f))).

(** Editing, with a filter too large for the body. *)
Definition too_large : World := run (type_d_filter 150%Q) editing.

(** Editing, with a new volume and a new input that is too wide. *)
Definition too_wide : World :=
  run (type_volume 30%Q ;; addInput "wide" (side SIDE_INPUT 50%Q)) editing.

(** Editing, with three top inlets: they collide. *)
Definition crowded : World :=
  run (addTopInlet "t1" (inlet "custom") ;;
       addTopInlet "t2" (inlet "custom") ;;
       addTopInlet "t3" (inlet "luer")) editing.

(** Creating, with a threaded top, which takes no custom inlet, and one
    top inlet. *)
Definition threaded_with_inlet : World :=
  run (pick_top "GL45" ;; addTopInlet "t1" (inlet "custom")) creating.

(** Editing, the user having picked the threaded top. *)
Definition now_threaded : World := run (pick_top "GL45") editing.
End Sample.

(** * Deleting from the registry *)

(** The CAD object [c] once [deleteIO] has deleted [name] from its dict of
    the kind the row shows. *)
Definition without (type_io name : string) (c : CadObj) : CadObj :=
  if decide (type_io = SIDE_INPUT) then
    with_cad_inputs (dict_remove name) c
  else if decide (type_io = SIDE_OUTPUT) then
    with_cad_outputs (dict_remove name) c
  else with_cad_top_inlets (dict_remove name) c.

(** The dialog once [deleteIO] has deleted [name] from its dict of the kind
    the row shows. *)
Definition forget (type_io name : string) (s : ChemModule) : ChemModule :=
  if decide (type_io = SIDE_INPUT) then
    with_dict_inputs (dict_remove name) s
  else if decide (type_io = SIDE_OUTPUT) then
    with_dict_outputs (dict_remove name) s
  else with_dict_top_inlets (dict_remove name) s.

(** [name in] the dict of the dialog, and of the CAD object, for the kind
    the row shows. *)
Definition registered (type_io name : string) (s : ChemModule) : bool :=
  if decide (type_io = SIDE_INPUT) then dict_mem name (dict_inputs s)
  else if decide (type_io = SIDE_OUTPUT) then dict_mem name (dict_outputs s)
  else dict_mem name (dict_top_inlets s).

Definition attached (type_io name : string) (c : CadObj) : bool :=
  if decide (type_io = SIDE_INPUT) then dict_mem name (cad_inputs c)
  else if decide (type_io = SIDE_OUTPUT) then dict_mem name (cad_outputs c)
  else dict_mem name (cad_top_inlets c).

(** The attributes of a CAD object that are not its I/O. *)
Definition scalars (c : CadObj) :=
  (cad_volume c, cad_type_top c, cad_type_bottom c, cad_h_filter c,
   cad_d_filter c, cad_d_can c, cad_r c, cad_r_constrained c,
   cad_align_top_strategy c, cad_align_filter_strategy c).

(** * Commit *)

(** What building the validation object may do to the world: the dialog
    and the objects that exist stay as they are, and the trace grows by
    events that reach neither the user, nor the parent, nor an object that
    existed. *)
Definition validation_only (w w' : World) : Prop :=
  self w' = self w /\
  (forall o c, heap w !! o = Some c -> heap w' !! o = Some c) /\
  grows (silent_above (List.length (heap w))) w w'.

Definition update_error (e : exn) : string :=
  "Impossible to update reactor: " +:+ exn_str e.

Definition creation_error (e : exn) : string :=
  "Impossible to create filter reactor: " +:+ exn_str e.

Definition ios_error (e : exn) : string :=
  "Impossible to create I/Os: " +:+ exn_str e.

Definition refresh_error_mes (e : exn) : string :=
  "Impossible to refresh filter reactor: " +:+ exn_str e.

(** A call that returned, or an event that is no call. *)
Definition returned (e : event) : Prop :=
  match e with
  | Call _ _ (Some _) => False
  | _ => True
  end.

Definition is_top_inlet_call (m : method) : Prop :=
  match m with addCustomTopInlet _ _ _ _ _ => True | _ => False end.

Definition can_t_build_top_inlet : event :=
  Log DEBUG "can't build top inlet: no custom top".

Definition can_t_auto_place : event :=
  Log DEBUG "Can't auto-place top inlets, collision ?".

(** The four ways the three build methods can end on the object [o], read
    from the events [t] they added to the trace, [script] being the calls
    they are expected to make. All calls returned. Or a top inlet raised
    [IncompatibilityError]: the methods return all the same, nothing is
    shown, and the auto-placement is not called. Or the auto-placement
    raised [ConstraintError]: the methods return all the same, one message
    box says so, and every call of [script] was made. Or an exception
    leaves the methods: it is that of the last call, and neither of the two
    above. In every case the calls made are the first calls of [script], in
    order, and no call follows one that raised. *)
Inductive attach_outcome (o : ref) (script : list method) (t : list event)
  : exn + unit -> Prop :=
| all_attached :
    Forall returned t ->
    calls_on o t = script ->
    dialogs t = [] ->
    attach_outcome o script t (inr tt)
| no_custom_top t0 m e :
    t = t0 ++ [Call o m (Some e); can_t_build_top_inlet] ->
    Forall returned t0 ->
    is_top_inlet_call m ->
    exn_cls e = IncompatibilityError ->
    prefix (calls_on o t) script ->
    ~ In autoPlaceTopInlets (calls_on o t) ->
    dialogs t = [] ->
    attach_outcome o script t (inr tt)
| collided t0 e :
    t = t0 ++ [Call o autoPlaceTopInlets (Some e); can_t_auto_place;
               MessageBox "Auto-placement error" auto_place_mes] ->
    Forall returned t0 ->
    exn_cls e = ConstraintError ->
    calls_on o t = script ->
    dialogs t = [("Auto-placement error", auto_place_mes)] ->
    attach_outcome o script t (inr tt)
| escaped t0 m e :
    t = t0 ++ [Call o m (Some e)] ->
    Forall returned t0 ->
    (is_top_inlet_call m -> exn_cls e <> IncompatibilityError) ->
    (m = autoPlaceTopInlets -> exn_cls e <> ConstraintError) ->
    prefix (calls_on o t) script ->
    dialogs t = [] ->
    attach_outcome o script t (inl e).

(** The object [c] after the calls [ms], made one after the other; a call
    that raises leaves the object as the collaborator left it. *)
Fixpoint replay {C : Collaborators} (ms : list method) (c : CadObj)
  : CadObj :=
  match ms with
  | [] => c
  | m :: ms' => replay ms' (cad_method m c).2
  end.

(** The events [t] record, for each call on the object [o], what the call
    raised, [c] being the object before them. *)
Fixpoint honest {C : Collaborators} (o : ref) (t : list event) (c : CadObj)
  : Prop :=
  match t with
  | [] => True
  | Call o' m raised :: t' =>
      if decide (o' = o) then
        raised = (cad_method m c).1 /\ honest o t' (cad_method m c).2
      else honest o t' c
  | _ :: t' => honest o t' c
  end.

(** From the world [w] to the world [w'] the object [o], if it exists, is
    changed by the calls the trace records on it, and by nothing else: it
    is never restored to an earlier state. *)
Definition replays {C : Collaborators} (o : ref) (w w' : World) : Prop :=
  forall c, heap w !! o = Some c ->
    exists t, trace w' = trace w ++ t /\
              heap w' !! o = Some (replay (calls_on o t) c) /\
              honest o t c.

(** The events that end an update commit once the I/O were built with the
    result [res], [raised] being what [self.parent.refresh()] raised. *)
Definition update_ending (res : exn + unit) (raised : option exn)
  : list event :=
  match res with
  | inl e =>
      [Log ERROR (ios_error e); MessageBox "I/Os error" (ios_error e); Close]
  | inr _ =>
      Parent parent_refresh raised ::
      match raised with
      | Some e =>
          [Log ERROR (refresh_error_mes e);
           MessageBox "Refresh error" (refresh_error_mes e); Close]
      | None => [Close]
      end
  end.

(** The events that end a create commit once the I/O were built with the
    result [res] on the new object [reactor], [raised] being what
    [self.parent.buildModule(reactor)] raised: an exception of the parent
    leaves the slot before [self.close()]. *)
Definition create_ending (reactor : ref) (res : exn + unit)
  (raised : option exn) : list event :=
  match res with
  | inl e =>
      [Log ERROR (ios_error e); MessageBox "I/Os error" (ios_error e); Close]
  | inr _ =>
      Parent (parent_buildModule reactor) raised ::
      match raised with
      | Some _ => []
      | None => [Close]
      end
  end.

(** * The threaded top, on the collaborators of the specification *)

(** The module has the top [top] and the volume [vol], its radius is
    constrained and is the one the geometry derives from them. *)
Definition settled (g : SpecCAD.Geometry) (vol : num) (top : string)
  (c : CadObj) : Prop :=
  cad_type_top c = top /\
  cad_volume c = vol /\
  cad_r_constrained c = true /\
  cad_r c = SpecCAD.derived_radius g vol top.

(** A call that assigns neither the volume nor the top. *)
Definition keeps_top_and_volume (m : method) : Prop :=
  match m with
  | setattr (Set_volume _) | setattr (Set_type_top _) => False
  | _ => True
  end.

(** * The rest of the dialog

    What the two commit paths leave aside: the slot that opens an I/O of
    the table in its dialog box, the table as a mirror of the three dicts
    of the registry, and the dialog as [__init__] leaves it when it is
    opened on a CAD object. *)

(** ** Opening an I/O of the table *)

(** The dialog box [openIODialog] constructs, [AddIODialogFR(self, params)]
    or [AddTopIODialogFR(self, params)]: [name] is [params["name"]] and
    [params] holds the other keys, as for [addInput]. Both classes live in
    files of their own. *)
Inductive io_dialog :=
| AddIODialogFR (name : string) (params : SideIO)
| AddTopIODialogFR (name : string) (params : TopIO).

(** [{**{"name": name, "type_io": type_io}, **d}] for a value [d] of
    [dict_inputs] or [dict_outputs]: a key of [d] wins over the same key
    of the first dict, so the type read from the table is kept only when
    [d] holds no ["type_io"]. A value of [dict_top_inlets] always holds
    one: merging leaves it as it is. *)
Definition merge_side (type_io : string) (d : SideIO) : SideIO :=
  {| sio_type_io := Some (default type_io (sio_type_io d));
     sio_height_per := sio_height_per d;
     sio_angle := sio_angle d;
     sio_diameter := sio_diameter d;
     sio_external := sio_external d;
     sio_connected := sio_connected d |}.

(** [d[name]] *)
Definition getitem {V} (name : string) (d : pydict V) : M V :=
  match dict_get name d with
  | Some v => ret v
  | None => raise (Exn KeyError name)
  end.

(** [openIODialog(item)], [row] being [item.row()]. The result is the
    dialog box the slot constructs. *)
Definition openIODialog (row : nat) : M io_dialog :=
  l_debug "Filter Reactor, opening I/O dialog box" ;;
  let* it := table_item row in
  let name := row_name it in
  let type_io := row_type it in
  let* s := the_self in
  if decide (type_io = SIDE_INPUT) then
    let* d := getitem name (dict_inputs s) in
    ret (AddIODialogFR name (merge_side type_io d))
  else if decide (type_io = SIDE_OUTPUT) then
    let* d := getitem name (dict_outputs s) in
    ret (AddIODialogFR name (merge_side type_io d))
  else
    let* d := getitem name (dict_top_inlets s) in
    ret (AddTopIODialogFR name d).

(** ** The table as a mirror of the registry *)

(** The text [_addNewRow] shows for a type of I/O. *)
Definition item_text (type_io : string) : string :=
  if decide (type_io = "custom") then "Custom top inlet"
  else if decide (type_io = "luer") then "Luer top inlet"
  else type_io.

(** The dict a row stands for, read from the text of its type as
    [deleteIO] and [openIODialog] read it; the row of the default output
    stands for the entry "default" of [dict_outputs]. *)
Definition shows_input (r : Row) : bool :=
  bool_decide (row_type r = SIDE_INPUT).

Definition shows_output (r : Row) : bool :=
  bool_decide (row_type r = SIDE_OUTPUT) ||
  bool_decide (row_type r = DEF_OUTPUT).

Definition shows_top_inlet (r : Row) : bool :=
  negb (shows_input r) && negb (shows_output r).

(** The names of the rows of one kind, from the top of the table. *)
Definition names_shown (shows : Row -> bool) (t : list Row) : list string :=
  map row_name (List.filter shows t).

(** A type of top inlet: the table shows it with a text that is none of
    those of the side I/O. ["custom"] and ["luer"] are. *)
Definition top_inlet_type (type_io : string) : Prop :=
  item_text type_io <> SIDE_INPUT /\
  item_text type_io <> SIDE_OUTPUT /\
  item_text type_io <> DEF_OUTPUT.

(** The table mirrors the registry: kind by kind, the rows name the keys
    of the dict, in the order of the dict. The keys of a dict are
    distinct. *)
Record mirrors (s : ChemModule) : Prop := {
  mirrors_inputs :
    names_shown shows_input (table_io s) = dict_keys (dict_inputs s);
  mirrors_outputs :
    names_shown shows_output (table_io s) = dict_keys (dict_outputs s);
  mirrors_top_inlets :
    names_shown shows_top_inlet (table_io s) =
      dict_keys (dict_top_inlets s);
  distinct_inputs : NoDup (dict_keys (dict_inputs s));
  distinct_outputs : NoDup (dict_keys (dict_outputs s));
  distinct_top_inlets : NoDup (dict_keys (dict_top_inlets s))
}.

(** ** The dialog opened on a CAD object *)

(** The row [_addNewRow name type_io connected] appends. *)
Definition row_of (name type_io : string) (connected : bool) : Row :=
  {| row_name := name;
     row_type := item_text type_io;
     row_connected := if connected then "Connected" else "Not connected";
     row_flags := negb (bool_decide (type_io = DEF_OUTPUT)) |}.

Definition input_row (item : string * InputOutput) : Row :=
  row_of item.1 SIDE_INPUT (io_connected item.2).

Definition output_row (item : string * InputOutput) : Row :=
  row_of item.1
    (if decide (item.1 = "default") then DEF_OUTPUT else SIDE_OUTPUT)
    (io_connected item.2).

Definition top_inlet_row (item : string * TopInlet) : Row :=
  row_of item.1 (ti_type_io item.2) false.

(** The descriptors [restoreIO] stores for an I/O of the object [c]. *)
Definition restored_side {C : Collaborators} (c : CadObj)
  (io : InputOutput) : SideIO :=
  {| sio_type_io := None;
     sio_height_per := getHeightPercentage c io;
     sio_angle := io_angle io;
     sio_diameter := io_diameter io;
     sio_external := io_external io;
     sio_connected := Some (io_connected io) |}.

Definition restored_top (io : TopInlet) : TopIO :=
  {| tio_diameter := ti_diameter io;
     tio_length := ti_length io;
     tio_walls := ti_walls io;
     tio_type_io := ti_type_io io;
     tio_connected := Some false |}.

Definition restored {A B} (f : A -> B) (d : pydict A) : pydict B :=
  map (fun item => (item.1, f item.2)) d.


(** The text the two strategy combo boxes show once [restoreParams] ran:
    that of the strategy of [c] when it is one of the two the method
    knows and the combo box offers it, else the first item. *)
Definition restored_align_top {C : Collaborators} (c : CadObj) : string :=
  if decide (cad_align_top_strategy c = "expand") then
    if py_in "Expand body" ALIGN_TOP_STRATEGIES then "Expand body"
    else hd "" ALIGN_TOP_STRATEGIES
  else if decide (cad_align_top_strategy c = "lift") then
    if py_in "Lift reactor" ALIGN_TOP_STRATEGIES then "Lift reactor"
    else hd "" ALIGN_TOP_STRATEGIES
  else hd "" ALIGN_TOP_STRATEGIES.

Definition restored_align_filter {C : Collaborators} (c : CadObj)
  : string :=
  if decide (cad_align_filter_strategy c = "adapt") then
    if py_in "Adapt" ALIGN_FILTER_STRATEGIES then "Adapt"
    else hd "" ALIGN_FILTER_STRATEGIES
  else if decide (cad_align_filter_strategy c = "lift") then
    if py_in "Lift reactor" ALIGN_FILTER_STRATEGIES then "Lift reactor"
    else hd "" ALIGN_FILTER_STRATEGIES
  else hd "" ALIGN_FILTER_STRATEGIES.

Definition opened_form {C : Collaborators} (c : CadObj) : Form :=
  {| spin_vol := bounded 0%Q 200%Q (cad_volume c);
     combo_top := cad_type_top c;
     combo_bottom := cad_type_bottom c;
     spin_h_filter := bounded 0%Q 1000%Q (cad_h_filter c);
     spin_d_filter := bounded 0%Q 200%Q (cad_d_filter c);
     spin_d_can := bounded 0%Q 99.99%Q (cad_d_can c);
     spin_r := bounded 0%Q 99.99%Q (cad_r c);
     check_r_constrained := cad_r_constrained c;
     combo_align_top_strategy := restored_align_top c;
     combo_align_filter_strategy := restored_align_filter c |}.

(** The slots run only when a widget changes: the slot of a combo box
    did not run when the object has the style the combo box showed
    first. *)
Definition opened_enabled {C : Collaborators} (c : CadObj) : Enabled :=
  let threaded := py_in (cad_type_top c) THREADED_TOPS in
  {| spin_r_enabled := cad_r_constrained c && negb threaded;
     check_r_constrained_enabled :=
       if cad_r_constrained c then negb threaded
       else if decide (hd "" TOPS = cad_type_top c) then true
       else negb threaded;
     spin_d_can_enabled :=
       if decide (hd "" list_bottoms = cad_type_bottom c) then true
       else py_in (cad_type_bottom c) BOTTOMS_PIPE |}.

Definition opened_params (c : CadObj) : Params :=
  {| p_volume := cad_volume c;
     p_type_top := cad_type_top c;
     p_type_bottom := cad_type_bottom c;
     p_h_filter := cad_h_filter c;
     p_d_filter := cad_d_filter c;
     p_d_can := cad_d_can c;
     p_r := cad_r c;
     p_r_constrained := cad_r_constrained c;
     p_align_top_strategy := "";
     p_align_filter_strategy := "" |}.

(** The dialog before [restoreIO] runs. *)
Definition opened_widgets {C : Collaborators} (parent_is_None : bool) (o : ref) (c : CadObj)
  : ChemModule :=
  {| test := parent_is_None; cad_obj := Some o;
     form := opened_form c; enabled := opened_enabled c;
     table_io := []; dict_inputs := []; dict_outputs := [];
     dict_top_inlets := []; params := opened_params c |}.

(** The dialog [ChemModule(parent, cad_obj)] when [cad_obj] is [c]. *)
Definition opened {C : Collaborators} (parent_is_None : bool) (o : ref)
  (c : CadObj) : ChemModule :=
  {| test := parent_is_None;
     cad_obj := Some o;
     form := opened_form c;
     enabled := opened_enabled c;
     table_io :=
       map input_row (cad_inputs c) ++ map output_row (cad_outputs c) ++
       map top_inlet_row (cad_top_inlets c);
     dict_inputs := restored (restored_side c) (cad_inputs c);
     dict_outputs := restored (restored_side c) (cad_outputs c);
     dict_top_inlets := restored restored_top (cad_top_inlets c);
     params := opened_params c |}.

(** ** Closing *)

(** An event that leaves the dialog open. *)
Definition keeps_open (e : event) : Prop := e <> Close.

(** A method that returns whatever the world is. *)
Definition always_returns (c : M unit) : Prop :=
  forall w, (c w).1 = inr tt.

(** Only the registry, the table and the log may have changed. *)
Definition same_widgets (w w' : World) : Prop :=
  form (self w') = form (self w) /\
  enabled (self w') = enabled (self w) /\
  params (self w') = params (self w) /\
  heap w' = heap w.

(** ** More worlds to run the dialog in *)

(** The module of [Sample], with the round bottom. *)
Definition round_bottomed : CadObj :=
  SpecCAD.store (Set_type_bottom "round") Sample.live.

(** Creating, with one side input. *)
Definition creating_with_input : World :=
  Sample.run (addInput "in2" (Sample.side SIDE_INPUT 2%Q)) Sample.creating.

(** Collaborators to run the update path on when an assignment fails:
    those of [Sample], but the handle refuses a volume above 100 when it
    is assigned. *)
Definition strict : Collaborators :=
  {| TOPS := @TOPS Sample.C;
     BOTTOMS := @BOTTOMS Sample.C;
     B_ROUND := @B_ROUND Sample.C;
     THREADED_TOPS := @THREADED_TOPS Sample.C;
     BOTTOMS_PIPE := @BOTTOMS_PIPE Sample.C;
     ALIGN_TOP_STRATEGIES := @ALIGN_TOP_STRATEGIES Sample.C;
     ALIGN_FILTER_STRATEGIES := @ALIGN_FILTER_STRATEGIES Sample.C;
     D_CAN := @D_CAN Sample.C;
     f_rea := @f_rea Sample.C;
     cad_method := fun m c =>
       match m with
       | setattr (Set_volume v) =>
           if Qle_bool v 100%Q then @cad_method Sample.C m c
           else (Some (Exn ValueError "volume too large"), c)
       | _ => @cad_method Sample.C m c
       end;
     getHeightPercentage := @getHeightPercentage Sample.C;
     parent_method := @parent_method Sample.C |}.

(** The dialog opened on the module of [Sample], the user having typed a
    volume of 150. *)
Definition too_voluminous : World :=
  Sample.run (Sample.type_volume 150%Q)
    (@__init__ strict false (Some 0) [Sample.live]).2.

(** Editing, the user having deleted the only input. *)
Definition emptied : World := Sample.run (deleteIO [0]) Sample.editing.
(** * Facts about Python dicts *)

Section PyDictFacts.
Context {V : Type}.
Implicit Types (k : string) (v : V) (d : pydict V).

Lemma dict_mem_true k d : dict_mem k d = true <-> is_Some (dict_get k d).
Proof.
  unfold dict_mem. destruct (dict_get k d); split; intros H; auto.
  - discriminate.
  - destruct H; discriminate.
Qed.

Lemma dict_mem_false k d : dict_mem k d = false <-> dict_get k d = None.
Proof. unfold dict_mem. destruct (dict_get k d); split; congruence. Qed.

Lemma dict_get_set_eq k v d : dict_get k (dict_set k v d) = Some v.
Proof.
  induction d as [|[k' v'] d IH]; simpl.
  - destruct (decide (k = k)); congruence.
  - destruct (decide (k' = k)) as [E|N]; simpl.
    + destruct (decide (k' = k)); congruence.
    + destruct (decide (k' = k)); congruence.
Qed.

Lemma dict_get_set_ne k k' v d :
  k <> k' -> dict_get k' (dict_set k v d) = dict_get k' d.
Proof.
  intros Hne. induction d as [|[k0 v0] d IH]; simpl.
  - destruct (decide (k = k')); congruence.
  - destruct (decide (k0 = k)) as [E|N]; simpl.
    + subst k0. destruct (decide (k = k')); congruence.
    + destruct (decide (k0 = k')); congruence.
Qed.

Lemma dict_set_fresh k v d :
  dict_get k d = None -> dict_set k v d = d ++ [(k, v)].
Proof.
  induction d as [|[k' v'] d IH]; simpl; intros H; [reflexivity|].
  destruct (decide (k' = k)); [discriminate|]. rewrite IH; auto.
Qed.

Lemma dict_set_length_fresh k v d :
  dict_mem k d = false -> List.length (dict_set k v d) = S (List.length d).
Proof.
  intros H. apply dict_mem_false in H. rewrite dict_set_fresh by exact H.
  rewrite length_app. simpl. lia.
Qed.

Lemma dict_set_keys_present k v d :
  dict_mem k d = true -> dict_keys (dict_set k v d) = dict_keys d.
Proof.
  unfold dict_mem. induction d as [|[k' v'] d IH]; simpl; [discriminate|].
  destruct (decide (k' = k)); simpl; intros H; [reflexivity|].
  rewrite IH; auto.
Qed.

Lemma dict_set_length_present k v d :
  dict_mem k d = true -> List.length (dict_set k v d) = List.length d.
Proof.
  intros H. apply (dict_set_keys_present k v) in H.
  unfold dict_keys in H.
  rewrite <- (length_map fst (dict_set k v d)), H. apply length_map.
Qed.

Lemma dict_get_remove_eq k d : dict_get k (dict_remove k d) = None.
Proof.
  unfold dict_remove. induction d as [|[k' v'] d IH]; [reflexivity|].
  rewrite filter_cons. simpl. destruct (decide (k' <> k)) as [N|E]; simpl.
  - destruct (decide (k' = k)); [contradiction|exact IH].
  - exact IH.
Qed.

Lemma dict_get_remove_ne k k' d :
  k <> k' -> dict_get k' (dict_remove k d) = dict_get k' d.
Proof.
  intros Hne. unfold dict_remove.
  induction d as [|[k0 v0] d IH]; [reflexivity|].
  rewrite filter_cons. simpl. destruct (decide (k0 <> k)) as [N|E]; simpl.
  - destruct (decide (k0 = k')); [reflexivity|exact IH].
  - apply dec_stable in E. subst k0.
    destruct (decide (k = k')); [contradiction|exact IH].
Qed.

Lemma dict_get_del k k' d d' :
  dict_del k d = Some d' ->
  dict_get k' d' = if decide (k = k') then None else dict_get k' d.
Proof.
  unfold dict_del. destruct (dict_mem k d); [|discriminate].
  intros [= <-]. destruct (decide (k = k')) as [->|N].
  - apply dict_get_remove_eq.
  - apply dict_get_remove_ne, N.
Qed.

Lemma dict_del_absent k d : dict_mem k d = false -> dict_del k d = None.
Proof. unfold dict_del. intros ->. reflexivity. Qed.

Lemma dict_mem_remove k d : dict_mem k (dict_remove k d) = false.
Proof. apply dict_mem_false, dict_get_remove_eq. Qed.
End PyDictFacts.

(** * Keeping a relation along a method *)

Section Preserves.
Context (R : World -> World -> Prop) `{!PreOrder R}.

Lemma preserves_ret {A} (a : A) : preserves R (ret a).
Proof. intros w. simpl. reflexivity. Qed.

Lemma preserves_raise {A} (e : exn) : preserves R (@raise A e).
Proof. intros w. simpl. reflexivity. Qed.

Lemma preserves_read {A} (f : World -> A) : preserves R (read f).
Proof. intros w. simpl. reflexivity. Qed.

Lemma preserves_bind {A B} (c : M A) (k : A -> M B) :
  preserves R c -> (forall a, preserves R (k a)) -> preserves R (bind c k).
Proof.
  intros Hc Hk w. unfold bind. specialize (Hc w).
  destruct (c w) as [[e|a] w']; simpl in *; [exact Hc|].
  etransitivity; [exact Hc|apply Hk].
Qed.

Lemma preserves_try {A} (c : M A) catches (h : exn -> M A) :
  preserves R c -> (forall e, preserves R (h e)) ->
  preserves R (try_except c catches h).
Proof.
  intros Hc Hh w. unfold try_except. specialize (Hc w).
  destruct (c w) as [[e|a] w']; simpl in *; [|exact Hc].
  destruct (catches e); simpl; [|exact Hc].
  etransitivity; [exact Hc|apply Hh].
Qed.

Lemma preserves_for_each {A} (l : list A) (body : A -> M unit) :
  (forall x, preserves R (body x)) -> preserves R (for_each l body).
Proof.
  intros Hb. induction l as [|x l IH]; simpl.
  - apply preserves_ret.
  - apply preserves_bind; [apply Hb|intros _; exact IH].
Qed.

Lemma preserves_update (f : World -> World) :
  (forall w, R w (f w)) -> preserves R (update f).
Proof. intros Hf w. simpl. apply Hf. Qed.
End Preserves.

#[global] Instance same_dialog_preorder : PreOrder same_dialog.
Proof.
  split.
  - intros w. split; reflexivity.
  - intros w1 w2 w3 [H1 H2] [H3 H4]. split; congruence.
Qed.

#[global] Instance same_self_preorder : PreOrder same_self.
Proof.
  split.
  - intros w. reflexivity.
  - intros w1 w2 w3 H1 H2. unfold same_self in *. congruence.
Qed.

#[global] Instance same_heap_preorder : PreOrder same_heap.
Proof.
  split.
  - intros w. reflexivity.
  - intros w1 w2 w3 H1 H2. unfold same_heap in *. congruence.
Qed.

#[global] Instance grows_preorder P : PreOrder (grows P).
Proof.
  split.
  - intros w. exists []. split; [symmetry; apply app_nil_r|constructor].
  - intros w1 w2 w3 (t1 & E1 & F1) (t2 & E2 & F2). exists (t1 ++ t2).
    split; [rewrite E2, E1; symmetry; apply app_assoc|].
    apply Forall_app; split; assumption.
Qed.

#[global] Instance only_object_preorder o : PreOrder (only_object o).
Proof.
  split.
  - intros w. split; [reflexivity|]. intros; reflexivity.
  - intros w1 w2 w3 [L1 H1] [L2 H2]. split; [congruence|].
    intros o' Hne. rewrite H2, H1 by exact Hne. reflexivity.
Qed.

Lemma grows_weaken (P Q : event -> Prop) w w' :
  (forall e, P e -> Q e) -> grows P w w' -> grows Q w w'.
Proof.
  intros HPQ (t & E & F). exists t. split; [exact E|].
  eapply Forall_impl; [exact F|exact HPQ].
Qed.

Lemma preserves_weaken {A} (R R' : World -> World -> Prop) (c : M A) :
  (forall w w', R w w' -> R' w w') -> preserves R c -> preserves R' c.
Proof. intros HR Hc w. apply HR, Hc. Qed.

(** One step through the body of a method. *)
Ltac preserves_step :=
  first
    [ apply preserves_ret; tc_solve
    | apply preserves_raise; tc_solve
    | apply preserves_read; tc_solve
    | apply preserves_bind; [tc_solve| |intros ?]
    | apply preserves_try; [tc_solve| |intros ?]
    | apply preserves_for_each; [tc_solve|intros ?]
    | match goal with
      | |- preserves _ (if ?b then _ else _) => destruct b
      | |- preserves _ (match ?x with _ => _ end) => destruct x
      | |- preserves _ (let '(_, _) := ?x in _) => destruct x
      end ].

Create HintDb frame discriminated.

Ltac preserves_auto :=
  repeat first [ solve [eauto 2 with frame] | preserves_step ].

Section Frames.
Context {C : Collaborators}.

Lemma emit_same_dialog e : preserves same_dialog (emit e).
Proof. intros w. split; reflexivity. Qed.

Lemma setEnabled_same_dialog f :
  preserves same_dialog (update (with_self (with_enabled f))).
Proof. intros w. split; reflexivity. Qed.

Lemma with_form_same_dialog f :
  preserves same_dialog (update (with_self (with_form f))).
Proof. intros w. split; reflexivity. Qed.

Lemma with_table_io_same_dialog f :
  preserves same_dialog (update (with_self (with_table_io f))).
Proof. intros w. split; reflexivity. Qed.

Lemma with_params_same_dialog p :
  preserves same_dialog (update (with_self (with_params p))).
Proof. intros w. split; reflexivity. Qed.

Lemma with_dict_inputs_same_dialog f :
  preserves same_dialog (update (with_self (with_dict_inputs f))).
Proof. intros w. split; reflexivity. Qed.

Lemma with_dict_outputs_same_dialog f :
  preserves same_dialog (update (with_self (with_dict_outputs f))).
Proof. intros w. split; reflexivity. Qed.

Lemma with_dict_top_inlets_same_dialog f :
  preserves same_dialog (update (with_self (with_dict_top_inlets f))).
Proof. intros w. split; reflexivity. Qed.

Hint Resolve emit_same_dialog setEnabled_same_dialog with_form_same_dialog
  with_table_io_same_dialog with_params_same_dialog
  with_dict_inputs_same_dialog with_dict_outputs_same_dialog
  with_dict_top_inlets_same_dialog : frame.

Lemma rConstraintChanged_same_dialog :
  preserves same_dialog rConstraintChanged.
Proof.
  unfold rConstraintChanged, the_self, spin_r_setEnabled. preserves_auto.
Qed.

Hint Resolve rConstraintChanged_same_dialog : frame.

Lemma setCheckState_same_dialog b :
  preserves same_dialog (check_r_constrained_setCheckState b).
Proof.
  unfold check_r_constrained_setCheckState, the_self. preserves_auto.
Qed.

Hint Resolve setCheckState_same_dialog : frame.

Lemma topTypeChanged_same_dialog : preserves same_dialog topTypeChanged.
Proof.
  unfold topTypeChanged, the_self, spin_r_setEnabled,
    check_r_constrained_setEnabled.
  preserves_auto.
Qed.

Lemma bottomTypeChanged_same_dialog :
  preserves same_dialog bottomTypeChanged.
Proof.
  unfold bottomTypeChanged, the_self, spin_d_can_setEnabled.
  preserves_auto.
Qed.

Lemma _addNewRow_same_dialog name type_io connected :
  preserves same_dialog (_addNewRow name type_io connected).
Proof. unfold _addNewRow, l_debug. preserves_auto. Qed.

Hint Resolve topTypeChanged_same_dialog bottomTypeChanged_same_dialog
  _addNewRow_same_dialog : frame.

Lemma restoreIO_same_dialog c : preserves same_dialog (restoreIO c).
Proof. unfold restoreIO, l_debug. preserves_auto. Qed.

Hint Resolve restoreIO_same_dialog : frame.

Lemma restoreParams_same_dialog : preserves same_dialog restoreParams.
Proof.
  unfold restoreParams, the_self, combo_top_setCurrent,
    combo_bottom_setCurrent, the_self, spin_r_setEnabled,
    check_r_constrained_setEnabled, l_debug.
  preserves_auto.
Qed.
End Frames.

Lemma added_or_updated_set {V} (dict : ChemModule -> pydict V)
  name v type_io w w' :
  dict (self w') = dict_set name v (dict (self w)) ->
  table_io (self w') =
    (if dict_mem name (dict (self w)) then table_io (self w)
     else table_io (self w) ++ [new_row name type_io]) ->
  added_or_updated dict name v type_io w w'.
Proof.
  intros Hd Ht. unfold added_or_updated. rewrite Hd, Ht.
  split; [apply dict_get_set_eq|].
  split; [intros k Hk; apply dict_get_set_ne; congruence|].
  split; intros Hm; rewrite Hm.
  - split; [reflexivity|]. split; [rewrite length_app; simpl; lia|].
    split; [apply dict_set_fresh, dict_mem_false, Hm|].
    apply dict_set_length_fresh, Hm.
  - split; [reflexivity|].
    split; [apply dict_set_keys_present, Hm|].
    apply dict_set_length_present, Hm.
Qed.

(** C4. Adding a descriptor under a name that its kind's dict does not hold
    appends exactly one row to the table and one entry to the dict, and
    stores the descriptor; adding under a name the dict holds leaves the
    table and the keys as they are and replaces the descriptor where it
    stands. This holds for side inputs, side outputs and top inlets. *)
Theorem registry_add_or_update :
  forall (w : World) (name : string) (side : SideIO) (top : TopIO)
         (type_io : string),
    sio_type_io side = Some type_io ->
    ((addInput name side w).1 = inr tt /\
     added_or_updated dict_inputs name side type_io w
       (addInput name side w).2) /\
    ((addOutput name side w).1 = inr tt /\
     added_or_updated dict_outputs name side type_io w
       (addOutput name side w).2) /\
    ((addTopInlet name top w).1 = inr tt /\
     added_or_updated dict_top_inlets name top (tio_type_io top) w
       (addTopInlet name top w).2).
Proof.
  intros w name side top type_io Ht.
  split; [|split].
  - unfold addInput, getitem_type_io, _addNewRow, l_debug, emit, update,
      the_self, read, bind, ret. simpl.
    rewrite Ht. destruct (dict_mem name (dict_inputs (self w))) eqn:Hm;
      simpl; (split; [reflexivity|]);
      apply added_or_updated_set; simpl; rewrite ?Hm; reflexivity.
  - unfold addOutput, getitem_type_io, _addNewRow, l_debug, emit, update,
      the_self, read, bind, ret. simpl.
    rewrite Ht. destruct (dict_mem name (dict_outputs (self w))) eqn:Hm;
      simpl; (split; [reflexivity|]);
      apply added_or_updated_set; simpl; rewrite ?Hm; reflexivity.
  - unfold addTopInlet, _addNewRow, l_debug, emit, update,
      the_self, read, bind, ret. simpl.
    destruct (dict_mem name (dict_top_inlets (self w))) eqn:Hm;
      simpl; (split; [reflexivity|]);
      apply added_or_updated_set; simpl; rewrite ?Hm; reflexivity.
Qed.

(** * Reading a trace that grew *)

Lemma dialogs_app t1 t2 : dialogs (t1 ++ t2) = dialogs t1 ++ dialogs t2.
Proof. apply omap_app. Qed.

Lemma parent_calls_app t1 t2 :
  parent_calls (t1 ++ t2) = parent_calls t1 ++ parent_calls t2.
Proof. apply omap_app. Qed.

Lemma constructions_app t1 t2 :
  constructions (t1 ++ t2) = constructions t1 ++ constructions t2.
Proof. apply omap_app. Qed.

Lemma calls_on_app o t1 t2 :
  calls_on o (t1 ++ t2) = calls_on o t1 ++ calls_on o t2.
Proof. apply omap_app. Qed.

Lemma registry_add_or_update_witness :
  (addInput "in2" (Sample.side SIDE_INPUT 2%Q) Sample.editing).1 = inr tt /\
  List.length
    (table_io (self (addInput "in2" (Sample.side SIDE_INPUT 2%Q)
                       Sample.editing).2)) = 3.
Proof.
  destruct (registry_add_or_update Sample.editing "in2"
              (Sample.side SIDE_INPUT 2%Q) (Sample.inlet "custom")
              SIDE_INPUT eq_refl) as [[Hr [_ [_ [Hnew _]]]] _].
  split; [exact Hr|].
  destruct (Hnew eq_refl) as (_ & Hlen & _). exact Hlen.
Defined.

(** * Commit in test mode *)

(** C10. A dialog made with no parent has [test] set, and its commit only
    reads the form into [self.params] and closes: it builds no CAD object,
    calls no method of a CAD object or of a parent, shows no message, and
    leaves every CAD object as it is. *)
Theorem test_mode_commit_is_inert :
  forall (C : Collaborators) (cad_obj : option ref) (objects : list CadObj)
         (w : World),
    test (self (__init__ true cad_obj objects).2) = true /\
    (test (self w) = true ->
     buildModule w =
       (inr tt,
        with_trace
          (fun t => t ++ [Log DEBUG "Filter reactor, read form"; Close])
          (with_self (with_params (snapshot (form (self w)))) w)) /\
     heap (buildModule w).2 = heap w /\
     constructions (trace (buildModule w).2) = constructions (trace w) /\
     (forall o, calls_on o (trace (buildModule w).2) = calls_on o (trace w)) /\
     parent_calls (trace (buildModule w).2) = parent_calls (trace w) /\
     dialogs (trace (buildModule w).2) = dialogs (trace w)).
Proof.
  intros C co objects w. split.
  - unfold __init__.
    assert (H : preserves same_dialog
                  (l_debug "Module path" ;;
                   (if py_in B_ROUND BOTTOMS then ret tt
                    else l_debug "Round bottom already removed") ;;
                   restoreParams)).
    { unfold l_debug. pose proof restoreParams_same_dialog.
      pose proof emit_same_dialog. preserves_auto. }
    destruct (H {| self := new_dialog true co; heap := objects; trace := [] |})
      as [Ht _].
    exact Ht.
  - intros Ht.
    assert (E : buildModule w =
       (inr tt,
        with_trace
          (fun t => t ++ [Log DEBUG "Filter reactor, read form"; Close])
          (with_self (with_params (snapshot (form (self w)))) w))).
    { unfold buildModule, readForm, close, l_debug, emit, update, the_self,
        read, bind, ret. simpl. rewrite Ht. simpl.
      unfold with_trace. simpl. rewrite <- app_assoc. reflexivity. }
    rewrite E. simpl. split; [reflexivity|]. split; [reflexivity|].
    rewrite constructions_app, parent_calls_app, dialogs_app. simpl.
    rewrite !app_nil_r. repeat split; try reflexivity.
    intros o. rewrite calls_on_app. simpl. apply app_nil_r.
Qed.

Lemma test_mode_commit_is_inert_witness :
  test (self Sample.testing) = true /\
  heap (@buildModule Sample.C Sample.testing).2 = heap Sample.testing.
Proof.
  destruct (test_mode_commit_is_inert Sample.C None [] Sample.testing)
    as [Ht H].
  split; [exact Ht|].
  destruct (H eq_refl) as (_ & Hh & _). exact Hh.
Defined.

(** * Deleting an I/O *)

Lemma deleteIO_no_selection w :
  deleteIO [] w =
    (inr tt,
     with_trace (fun t => t ++ [Log DEBUG "No I/O selected, can't delete"]) w).
Proof. reflexivity. Qed.

Lemma deleteIO_default_output w row rows it :
  table_io (self w) !! row = Some it ->
  row_type it = DEF_OUTPUT ->
  deleteIO (row :: rows) w = (inr tt, w).
Proof.
  intros Hit Ht. unfold deleteIO, table_item, the_self, read, bind, ret.
  simpl. rewrite Hit. simpl. rewrite Ht. reflexivity.
Qed.

(** The row of a default output cannot be selected in the first place. *)
Lemma _addNewRow_default_output_flags name connected w :
  exists it,
    table_io (self (_addNewRow name DEF_OUTPUT connected w).2) =
      table_io (self w) ++ [it] /\
    row_type it = DEF_OUTPUT /\ row_flags it = false.
Proof. eexists. split; [reflexivity|]. split; reflexivity. Qed.

Lemma without_scalars type_io name c :
  scalars (without type_io name c) = scalars c.
Proof. unfold without. repeat case_decide; reflexivity. Qed.

(** What [deleteIO] does on a row that is not the default output: the name
    leaves the dict of the dialog, then that of the CAD object if there is
    one, then the row leaves the table; a name that is missing from a dict
    stops the slot there with a [KeyError]. *)
Lemma deleteIO_row w row rows it :
  table_io (self w) !! row = Some it ->
  row_type it <> DEF_OUTPUT ->
  let type_io := row_type it in
  let name := row_name it in
  deleteIO (row :: rows) w =
    if registered type_io name (self w) then
      let w1 := with_self (forget type_io name) w in
      match cad_obj (self w) with
      | None =>
          (inr tt,
           with_self (with_table_io (delete row))
             (with_trace
                (fun t => t ++ [Log DEBUG ("Filter reactor, deleting I/O " +:+ name)])
                w1))
      | Some o =>
          match heap w !! o with
          | None => (inl (Exn OtherException "dangling reference"), w1)
          | Some c =>
              if attached type_io name c then
                (inr tt,
                 with_self (with_table_io (delete row))
                   (with_trace
                      (fun t => t ++ [Log DEBUG ("Filter reactor, deleting I/O " +:+ name)])
                      (with_heap (fun h => <[o := without type_io name c]> h)
                         w1)))
              else (inl (Exn KeyError name), w1)
          end
      end
    else (inl (Exn KeyError name), w).
Proof.
  intros Hit Hnd. simpl.
  unfold deleteIO, table_item, the_self, read, bind, ret. simpl.
  rewrite Hit. simpl.
  destruct (decide (row_type it = DEF_OUTPUT)) as [E|_]; [contradiction|].
  unfold registered, forget, attached, without.
  destruct (decide (row_type it = SIDE_INPUT)) as [Ei|Ni];
    [|destruct (decide (row_type it = SIDE_OUTPUT)) as [Eo|No]].
  all: unfold del_cad_item, del_item, dict_del, bind, read, update, raise,
         l_debug, emit; simpl.
  all: match goal with
       | |- context [dict_mem ?n ?d] => destruct (dict_mem n d) eqn:Hm
       end; simpl; [|reflexivity].
  all: destruct (cad_obj (self w)) as [o|]; simpl; [|reflexivity].
  all: destruct (heap w !! o) as [c|]; simpl; [|reflexivity].
  all: match goal with
       | |- context [dict_mem ?n ?d] => destruct (dict_mem n d) eqn:Hc
       end; simpl; reflexivity.
Qed.

Lemma registered_forget type_io name s :
  registered type_io name (forget type_io name s) = false.
Proof.
  unfold registered, forget. repeat case_decide; simpl; apply dict_mem_remove.
Qed.

(** C5. Where the code leaves the claim: a descriptor that the registry
    holds and the CAD object under edit does not (one added since the
    dialog opened) is not deletable. [deleteIO] takes it out of the dict of
    the dialog, raises [KeyError] on the dict of the CAD object, and leaves
    its row in the table; deleting the same row again raises [KeyError]
    once more, now on the dict of the dialog. *)
Theorem deleteIO_raises_on_unbuilt_descriptor :
  forall (w : World) (row : nat) (rows : list nat) (it : Row) (o : ref)
         (c : CadObj),
    table_io (self w) !! row = Some it ->
    row_type it <> DEF_OUTPUT ->
    cad_obj (self w) = Some o ->
    heap w !! o = Some c ->
    registered (row_type it) (row_name it) (self w) = true ->
    attached (row_type it) (row_name it) c = false ->
    (deleteIO (row :: rows) w).1 = inl (Exn KeyError (row_name it)) /\
    registered (row_type it) (row_name it)
      (self (deleteIO (row :: rows) w).2) = false /\
    table_io (self (deleteIO (row :: rows) w).2) = table_io (self w) /\
    (deleteIO (row :: rows) (deleteIO (row :: rows) w).2).1 =
      inl (Exn KeyError (row_name it)).
Proof.
  intros w row rows it o c Hit Hnd Ho Hc Hreg Hatt.
  assert (E : deleteIO (row :: rows) w =
              (inl (Exn KeyError (row_name it)),
               with_self (forget (row_type it) (row_name it)) w)).
  { rewrite (deleteIO_row w row rows it Hit Hnd). cbv zeta.
    rewrite Hreg, Ho, Hc, Hatt. reflexivity. }
  rewrite E. cbn [fst snd].
  assert (Hit' : table_io (self (with_self
                   (forget (row_type it) (row_name it)) w)) !! row = Some it).
  { unfold forget; repeat case_decide; simpl; exact Hit. }
  split; [reflexivity|]. split; [apply registered_forget|].
  split; [unfold forget; repeat case_decide; reflexivity|].
  rewrite (deleteIO_row _ row rows it Hit' Hnd). cbv zeta.
  cbn [self with_self]. rewrite registered_forget. reflexivity.
Qed.

Lemma deleteIO_raises_on_unbuilt_descriptor_witness :
  let w := Sample.run (addInput "in2" (Sample.side SIDE_INPUT 2%Q))
             Sample.editing in
  (deleteIO [2] w).1 = inl (Exn KeyError "in2") /\
  List.length (table_io (self (deleteIO [2] w).2)) = 3.
Proof.
  intros w.
  destruct (deleteIO_raises_on_unbuilt_descriptor w 2 []
              (new_row "in2" SIDE_INPUT) 0 Sample.live)
    as (Hr & _ & Ht & _).
  - reflexivity.
  - vm_compute. discriminate.
  - reflexivity.
  - reflexivity.
  - reflexivity.
  - reflexivity.
  - split; [exact Hr|]. rewrite Ht. reflexivity.
Defined.

(** What the claim asks for holds of a descriptor that the registry and the
    CAD object under edit both hold, and of every descriptor when a module
    is being created: the slot returns, the name has left the registry and
    the row has left the table. *)
Lemma deleteIO_once w row rows it :
  table_io (self w) !! row = Some it ->
  row_type it <> DEF_OUTPUT ->
  registered (row_type it) (row_name it) (self w) = true ->
  match cad_obj (self w) with
  | Some o =>
      exists c, heap w !! o = Some c /\
                attached (row_type it) (row_name it) c = true
  | None => True
  end ->
  (deleteIO (row :: rows) w).1 = inr tt /\
  registered (row_type it) (row_name it)
    (self (deleteIO (row :: rows) w).2) = false /\
  table_io (self (deleteIO (row :: rows) w).2) = delete row (table_io (self w)).
Proof.
  intros Hit Hnd Hreg Hatt.
  rewrite (deleteIO_row w row rows it Hit Hnd). simpl. rewrite Hreg.
  destruct (cad_obj (self w)) as [o|]; simpl.
  - destruct Hatt as (c & Hc & Ha). rewrite Hc, Ha. simpl.
    split; [reflexivity|].
    split; unfold registered, forget; repeat case_decide; simpl;
      first [apply dict_mem_remove | reflexivity].
  - split; [reflexivity|].
    split; unfold registered, forget; repeat case_decide; simpl;
      first [apply dict_mem_remove | reflexivity].
Qed.

(** * The registry and the CAD object under edit *)

Lemma deleteIO_reaches_the_live_object :
  cad_inputs <$> heap Sample.editing !! 0 =
    Some [("in1", SpecCAD.new_io 0.5%Q 0%Q 2%Q false)] /\
  cad_inputs <$> heap (deleteIO [0] Sample.editing).2 !! 0 = Some [] /\
  heap (deleteIO [0] Sample.editing).2 <> heap Sample.editing.
Proof.
  split; [reflexivity|]. split; [reflexivity|].
  vm_compute. intros H. discriminate H.
Qed.

(** C3, as the code has it. Adding or replacing a descriptor changes the
    registry and no CAD object. Deleting one changes at most the CAD object
    under edit, and at most by deleting the name of the selected row from
    its dict of the same kind, which it does at once, before any commit,
    whenever that dict holds the name; the other attributes of the object
    stay as they are. *)
Theorem registry_touches_live_object_only_on_delete :
  forall (w : World) (name : string) (side : SideIO) (top : TopIO)
         (rows : list nat),
    heap (addInput name side w).2 = heap w /\
    heap (addOutput name side w).2 = heap w /\
    heap (addTopInlet name top w).2 = heap w /\
    (heap (deleteIO rows w).2 = heap w \/
     exists row it o c,
       head rows = Some row /\
       table_io (self w) !! row = Some it /\
       row_type it <> DEF_OUTPUT /\
       cad_obj (self w) = Some o /\
       heap w !! o = Some c /\
       heap (deleteIO rows w).2 =
         <[o := without (row_type it) (row_name it) c]> (heap w) /\
       scalars (without (row_type it) (row_name it) c) = scalars c) /\
    (forall row it o c,
       head rows = Some row ->
       table_io (self w) !! row = Some it ->
       row_type it <> DEF_OUTPUT ->
       cad_obj (self w) = Some o ->
       heap w !! o = Some c ->
       registered (row_type it) (row_name it) (self w) = true ->
       attached (row_type it) (row_name it) c = true ->
       heap (deleteIO rows w).2 =
         <[o := without (row_type it) (row_name it) c]> (heap w)).
Proof.
  intros w name side top rows.
  split; [|split; [|split; [|split]]].
  - unfold addInput, getitem_type_io, _addNewRow, l_debug, emit, update,
      the_self, read, bind, ret, raise. simpl.
    destruct (dict_mem name (dict_inputs (self w))); simpl; [reflexivity|].
    destruct (sio_type_io side); reflexivity.
  - unfold addOutput, getitem_type_io, _addNewRow, l_debug, emit, update,
      the_self, read, bind, ret, raise. simpl.
    destruct (dict_mem name (dict_outputs (self w))); simpl; [reflexivity|].
    destruct (sio_type_io side); reflexivity.
  - unfold addTopInlet, _addNewRow, l_debug, emit, update,
      the_self, read, bind, ret, raise. simpl.
    destruct (dict_mem name (dict_top_inlets (self w))); reflexivity.
  - destruct rows as [|row rows]; [left; reflexivity|].
    destruct (table_io (self w) !! row) as [it|] eqn:Hit.
    + destruct (decide (row_type it = DEF_OUTPUT)) as [Ed|Hnd].
      * left. rewrite (deleteIO_default_output w row rows it Hit Ed).
        reflexivity.
      * rewrite (deleteIO_row w row rows it Hit Hnd). simpl.
        destruct (registered (row_type it) (row_name it) (self w));
          [|left; reflexivity].
        destruct (cad_obj (self w)) as [o|] eqn:Ho; [|left; reflexivity].
        destruct (heap w !! o) as [c|] eqn:Hc; [|left; reflexivity].
        destruct (attached (row_type it) (row_name it) c);
          [|left; reflexivity].
        right. exists row, it, o, c.
        repeat split; try assumption; try reflexivity.
        apply without_scalars.
    + left. unfold deleteIO, table_item, the_self, read, bind, ret, raise.
      simpl. rewrite Hit. reflexivity.
  - intros row it o c Hrow Hit Hnd Ho Hc Hreg Hatt.
    destruct rows as [|row' rows]; [discriminate|].
    simpl in Hrow. injection Hrow as ->.
    rewrite (deleteIO_row w row rows it Hit Hnd). simpl.
    rewrite Hreg, Ho, Hc, Hatt. reflexivity.
Qed.

Lemma registry_touches_live_object_only_on_delete_witness :
  heap (deleteIO [0] Sample.editing).2 =
    <[0 := without SIDE_INPUT "in1" Sample.live]> (heap Sample.editing).
Proof.
  destruct (registry_touches_live_object_only_on_delete Sample.editing "in2"
              (Sample.side SIDE_INPUT 2%Q) (Sample.inlet "custom") [0])
    as (_ & _ & _ & _ & H).
  apply (H 0 (new_row "in1" SIDE_INPUT) 0 Sample.live); try reflexivity.
  vm_compute. discriminate.
Defined.

(** * The radius widgets *)

(** The slot of the check box: the radius can be edited exactly when the
    box is ticked. *)
Lemma rConstraintChanged_enables {C : Collaborators} w :
  spin_r_enabled (enabled (self (rConstraintChanged w).2)) =
    check_r_constrained (form (self w)) /\
  form (self (rConstraintChanged w).2) = form (self w).
Proof.
  unfold rConstraintChanged, the_self, read, bind, spin_r_setEnabled, update.
  simpl. destruct (check_r_constrained (form (self w))); split; reflexivity.
Qed.

(** A threaded top: whatever the widgets were, the box ends ticked and
    disabled and the radius disabled. The box is ticked first: ticking it
    runs [rConstraintChanged], which enables the radius, and the slot then
    disables it. *)
Lemma topTypeChanged_threaded {C : Collaborators} w :
  py_in (combo_top (form (self w))) THREADED_TOPS = true ->
  let w' := (topTypeChanged w).2 in
  (topTypeChanged w).1 = inr tt /\
  check_r_constrained (form (self w')) = true /\
  check_r_constrained_enabled (enabled (self w')) = false /\
  spin_r_enabled (enabled (self w')) = false /\
  combo_top (form (self w')) = combo_top (form (self w)) /\
  same_dialog w w' /\ heap w' = heap w /\ trace w' = trace w.
Proof.
  intros Ht. unfold topTypeChanged, check_r_constrained_setCheckState,
    rConstraintChanged, the_self, read, bind, ret, spin_r_setEnabled,
    check_r_constrained_setEnabled, update. simpl. rewrite Ht.
  destruct (check_r_constrained (form (self w))) eqn:Hc; simpl;
    rewrite ?Hc; repeat split; reflexivity.
Qed.

(** C8. Where the code leaves the claim: once a threaded top has ticked the
    box and disabled the radius, picking a top that is not threaded only
    enables the box again. The box is ticked and the top is not threaded,
    and the radius still cannot be edited. *)
Theorem radius_stays_disabled_after_threaded_top :
  forall (C : Collaborators) (w : World) (top : string),
    py_in (combo_top (form (self w))) THREADED_TOPS = true ->
    py_in top TOPS = true ->
    py_in top THREADED_TOPS = false ->
    let w1 := (topTypeChanged w).2 in
    let w2 := (combo_top_setCurrent top w1).2 in
    (check_r_constrained (form (self w1)) = true /\
     check_r_constrained_enabled (enabled (self w1)) = false /\
     spin_r_enabled (enabled (self w1)) = false) /\
    (combo_top (form (self w2)) = top /\
     check_r_constrained (form (self w2)) = true /\
     check_r_constrained_enabled (enabled (self w2)) = true /\
     spin_r_enabled (enabled (self w2)) = false).
Proof.
  intros C w top Hthr Htop Hnot w1 w2.
  destruct (topTypeChanged_threaded w Hthr)
    as (_ & Hc & He & Hr & Hcombo & _).
  fold w1 in Hc, He, Hr, Hcombo.
  split; [repeat split; assumption|].
  assert (Hne : combo_top (form (self w1)) <> top).
  { rewrite Hcombo. intros E. rewrite E in Hthr. congruence. }
  subst w2. unfold combo_top_setCurrent, topTypeChanged, the_self, read,
    bind, ret, update, check_r_constrained_setEnabled. simpl.
  rewrite Htop. simpl.
  destruct (decide (combo_top (form (self w1)) = top)) as [E|_];
    [contradiction|].
  simpl. rewrite Hnot. simpl. repeat split; assumption.
Qed.

Lemma radius_stays_disabled_after_threaded_top_witness :
  let w2 := Sample.run (Sample.pick_top "GL45" ;; Sample.pick_top "A")
              Sample.creating in
  combo_top (form (self w2)) = "A" /\
  check_r_constrained (form (self w2)) = true /\
  spin_r_enabled (enabled (self w2)) = false.
Proof.
  destruct (radius_stays_disabled_after_threaded_top Sample.C
              (with_self (with_form (set_combo_top "GL45")) Sample.creating)
              "A" eq_refl eq_refl eq_refl)
    as (_ & Ht & Hc & _ & Hr).
  repeat split; assumption.
Defined.

(** * Building the validation object *)

Lemma silent_above_quiet n t :
  Forall (silent_above n) t ->
  dialogs t = [] /\ parent_calls t = [] /\
  forall o, o < n -> calls_on o t = [].
Proof.
  induction 1 as [|e t He _ (IHd & IHp & IHc)]; [repeat split; reflexivity|].
  destruct e; simpl in He; try contradiction.
  all: split; [exact IHd|]; split; [exact IHp|]; intros o' Ho; simpl.
  - apply IHc, Ho.
  - apply IHc, Ho.
  - destruct (decide (o = o')); [lia|]. apply IHc, Ho.
Qed.

Section Validation.
Context {C : Collaborators}.

Lemma call_eq o m w c :
  heap w !! o = Some c ->
  call o m w =
    ((match (cad_method m c).1 with Some e => inl e | None => inr tt end),
     with_trace (fun t => t ++ [Call o m (cad_method m c).1])
       (with_heap (fun h => <[o := (cad_method m c).2]> h) w)).
Proof.
  intros Hc. unfold call. rewrite Hc.
  destruct (cad_method m c) as [[e|] c']; reflexivity.
Qed.

Lemma _buildCADObject_result w :
  (_buildCADObject w).1 =
    match build_raises (params (self w)) with
    | Some e => inl e
    | None => inr (List.length (heap w))
    end.
Proof.
  unfold _buildCADObject, build_raises, construct, the_self, l_debug, emit,
    update, read, bind, ret, raise. simpl.
  destruct (f_rea _ _ _ _ _ _ _ _) as [e|c]; simpl; [reflexivity|].
  destruct (p_r_constrained (params (self w)) &&
            negb (py_in (p_type_top (params (self w))) THREADED_TOPS));
    simpl; [|reflexivity].
  unfold call. simpl. rewrite list_lookup_middle by reflexivity.
  destruct (cad_method _ c) as [[e|] c']; reflexivity.
Qed.

Lemma _buildCADObject_validation_only w :
  validation_only w (_buildCADObject w).2.
Proof.
  unfold _buildCADObject, construct, the_self, l_debug, emit,
    update, read, bind, ret, raise. simpl.
  destruct (f_rea _ _ _ _ _ _ _ _) as [e|c]; simpl.
  { split; [reflexivity|]. split; [auto|].
    eexists. simpl. rewrite <- app_assoc. split; [reflexivity|].
    repeat constructor. }
  destruct (p_r_constrained (params (self w)) &&
            negb (py_in (p_type_top (params (self w))) THREADED_TOPS));
    simpl.
  - unfold call. simpl. rewrite list_lookup_middle by reflexivity.
    destruct (cad_method _ c) as [raised c'].
    assert (Hframe : forall o c0, heap w !! o = Some c0 ->
              (<[List.length (heap w) := c']> (heap w ++ [c])) !! o = Some c0).
    { intros o c0 Ho. pose proof (lookup_lt_Some _ _ _ Ho).
      rewrite list_lookup_insert_ne by lia.
      rewrite lookup_app_l by assumption. exact Ho. }
    destruct raised as [e|]; simpl.
    all: split; [reflexivity|]; split; [exact Hframe|].
    all: eexists; simpl; rewrite <- !app_assoc; split; [reflexivity|].
    all: repeat constructor.
  - split; [reflexivity|]. split.
    + intros o c0 Ho. pose proof (lookup_lt_Some _ _ _ Ho). simpl.
      rewrite lookup_app_l by assumption. exact Ho.
    + eexists. simpl. rewrite <- !app_assoc. split; [reflexivity|].
      repeat constructor.
Qed.

(** A validation object is a new object: it is none of those that
    existed. *)
Lemma _buildCADObject_fresh w reactor w' :
  _buildCADObject w = (inr reactor, w') ->
  reactor = List.length (heap w) /\ is_Some (heap w' !! reactor).
Proof.
  intros E. pose proof (_buildCADObject_result w) as Hr.
  rewrite E in Hr. simpl in Hr.
  destruct (build_raises (params (self w))); [discriminate|].
  injection Hr as ->. split; [reflexivity|].
  revert E. unfold _buildCADObject, construct, the_self, l_debug, emit,
    update, read, bind, ret, raise. simpl.
  destruct (f_rea _ _ _ _ _ _ _ _) as [e|c]; simpl; [discriminate|].
  destruct (p_r_constrained (params (self w)) &&
            negb (py_in (p_type_top (params (self w))) THREADED_TOPS));
    simpl.
  - unfold call. simpl. rewrite list_lookup_middle by reflexivity.
    destruct (cad_method _ c) as [[e|] c']; [discriminate|].
    intros [= <-]. simpl. apply lookup_lt_is_Some.
    rewrite length_insert, length_app. simpl. lia.
  - intros [= <-]. simpl. apply lookup_lt_is_Some.
    rewrite length_app. simpl. lia.
Qed.
End Validation.

(** * The update path *)

Section UpdatePath.
Context {C : Collaborators}.

Lemma _updateModule_invalid w e :
  build_raises (params (self w)) = Some e ->
  _updateModule w =
    (inr false,
     with_trace
       (fun t => t ++ [Log ERROR (update_error e);
                       MessageBox "Update error" (update_error e)])
       (_buildCADObject
          (with_trace
             (fun t => t ++ [Log DEBUG "Filter reactor, _updateModule"])
             w)).2).
Proof.
  intros Hb. unfold _updateModule.
  unfold bind at 1. unfold l_debug at 1, emit, update. cbn [fst snd].
  set (w0 := with_trace _ w).
  pose proof (_buildCADObject_result w0) as Hr.
  change (params (self w0)) with (params (self w)) in Hr.
  rewrite Hb in Hr.
  unfold bind at 1, try_except. unfold bind at 1.
  destruct (_buildCADObject w0) as [[e'|r] w1]; simpl in Hr;
    [|discriminate].
  injection Hr as ->. unfold Exception, l_error, critical, emit, update,
    bind, ret. simpl. unfold with_trace. simpl.
  rewrite <- app_assoc. reflexivity.
Qed.
End UpdatePath.

(** C1. An update commit whose validation object cannot be built stops
    there: the user is told "Update error" with the cause, the dialog
    closes, and the CAD object under edit is, attribute for attribute and
    I/O for I/O, the object it was; no call or assignment was made on it,
    the parent was not called, and the registry of the dialog is as it
    was. *)
Theorem failed_validation_leaves_live_object :
  forall (C : Collaborators) (w : World) (o : ref) (c : CadObj) (e : exn),
    test (self w) = false ->
    cad_obj (self w) = Some o ->
    heap w !! o = Some c ->
    build_raises (snapshot (form (self w))) = Some e ->
    (buildModule w).1 = inr tt /\
    (_updateModule (readForm w).2).1 = inr false /\
    heap (buildModule w).2 !! o = Some c /\
    calls_on o (trace (buildModule w).2) = calls_on o (trace w) /\
    parent_calls (trace (buildModule w).2) = parent_calls (trace w) /\
    dialogs (trace (buildModule w).2) =
      dialogs (trace w) ++ [("Update error", update_error e)] /\
    self (buildModule w).2 =
      with_params (snapshot (form (self w))) (self w).
Proof.
  intros C w o c e Ht Ho Hc Hb.
  set (w0 := (readForm w).2).
  assert (Hw0 : readForm w = (inr tt, w0)) by reflexivity.
  assert (Hp : params (self w0) = snapshot (form (self w))) by reflexivity.
  pose proof (_updateModule_invalid w0 e) as Hu.
  rewrite Hp in Hu. specialize (Hu Hb).
  set (w1 := with_trace
               (fun t => t ++ [Log DEBUG "Filter reactor, _updateModule"])
               w0) in Hu.
  destruct (_buildCADObject_validation_only w1)
    as (Hself & Hheap & t & Htr & Hsil).
  destruct (silent_above_quiet _ _ Hsil) as (Hd & Hpc & Hco).
  assert (Ho1 : o < List.length (heap w1))
    by (apply (lookup_lt_Some _ _ c); exact Hc).
  assert (E : buildModule w =
    (inr tt,
     with_trace (fun t => t ++ [Close])
       (with_trace
          (fun t => t ++ [Log ERROR (update_error e);
                          MessageBox "Update error" (update_error e)])
          (_buildCADObject w1).2))).
  { unfold buildModule. unfold bind at 1. rewrite Hw0.
    unfold bind at 1, the_self, read. cbn [fst snd].
    unfold bind at 1.
    change (test (self w0)) with (test (self w)). rewrite Ht. cbn [negb].
    change (cad_obj (self w0)) with (cad_obj (self w)). rewrite Ho.
    unfold bind at 1. rewrite Hu. reflexivity. }
  rewrite E, Hu. cbn [fst snd].
  split; [reflexivity|]. split; [reflexivity|].
  split; [apply Hheap; exact Hc|].
  assert (Etr : trace (with_trace (fun t => t ++ [Close])
       (with_trace
          (fun t => t ++ [Log ERROR (update_error e);
                          MessageBox "Update error" (update_error e)])
          (_buildCADObject w1).2)) =
     trace w ++ [Log DEBUG "Filter reactor, read form";
                 Log DEBUG "Filter reactor, _updateModule"] ++ t ++
       [Log ERROR (update_error e);
        MessageBox "Update error" (update_error e); Close]).
  { simpl. rewrite Htr. simpl. rewrite <- !app_assoc. reflexivity. }
  rewrite Etr.
  rewrite !calls_on_app, !parent_calls_app, !dialogs_app.
  rewrite Hd, Hpc, (Hco o Ho1). simpl.
  rewrite !app_nil_r.
  repeat split; try reflexivity.
  simpl. rewrite Hself. reflexivity.
Qed.

(** * Attaching the registry *)

Section Attach.
Context {C : Collaborators}.

Lemma calls_on_same o m raised : calls_on o [Call o m raised] = [m].
Proof. simpl. destruct (decide (o = o)); [reflexivity|contradiction]. Qed.

Lemma for_each_ext {A} (l : list A) (f g : A -> M unit) :
  (forall x, f x = g x) -> for_each l f = for_each l g.
Proof.
  intros H. induction l as [|x l IH]; [reflexivity|].
  simpl. rewrite H, IH. reflexivity.
Qed.

(** *** What the build methods leave alone *)

Lemma only_object_call o m : preserves (only_object o) (call o m).
Proof.
  intros w. unfold call. destruct (heap w !! o) as [c|]; [|reflexivity].
  destruct (cad_method m c) as [raised c'].
  assert (H : only_object o w
                (with_trace (fun t => t ++ [Call o m raised])
                   (with_heap (fun h => <[o := c']> h) w))).
  { split; simpl; [apply length_insert|].
    intros o' Hne. apply list_lookup_insert_ne. congruence. }
  destruct raised; exact H.
Qed.

Lemma only_object_emit o e : preserves (only_object o) (emit e).
Proof. intros w. split; [reflexivity|]. intros; reflexivity. Qed.

Lemma same_self_call o m : preserves same_self (call o m).
Proof.
  intros w. unfold call. destruct (heap w !! o) as [c|]; [|reflexivity].
  destruct (cad_method m c) as [[e|] c']; reflexivity.
Qed.

Lemma same_self_emit e : preserves same_self (emit e).
Proof. intros w. reflexivity. Qed.

Lemma only_object_is_Some o w w' :
  only_object o w w' -> is_Some (heap w !! o) -> is_Some (heap w' !! o).
Proof.
  intros [Hl _] H. apply lookup_lt_is_Some. rewrite Hl.
  apply lookup_lt_is_Some. exact H.
Qed.

Hint Resolve only_object_call only_object_emit same_self_call
  same_self_emit : frame.

Lemma buildTopInlets_loop_only_object o items :
  preserves (only_object o) (buildTopInlets_loop o items).
Proof.
  induction items as [|[name io] items IH]; simpl;
    unfold l_debug; preserves_auto.
Qed.

Lemma buildTopInlets_loop_same_self o items :
  preserves same_self (buildTopInlets_loop o items).
Proof.
  induction items as [|[name io] items IH]; simpl;
    unfold l_debug; preserves_auto.
Qed.

Hint Resolve buildTopInlets_loop_only_object
  buildTopInlets_loop_same_self : frame.

(** *** How the build methods end *)

Lemma attach_outcome_prepend o s_pre s t_pre t res :
  Forall returned t_pre ->
  calls_on o t_pre = s_pre ->
  dialogs t_pre = [] ->
  ~ In autoPlaceTopInlets s_pre ->
  attach_outcome o s t res ->
  attach_outcome o (s_pre ++ s) (t_pre ++ t) res.
Proof.
  intros Hret Hcalls Hd Hauto Hout.
  destruct Hout as [Hr Hc Hdd|t0 m e -> Hr Hm He Hp Hn Hdd
                   |t0 e -> Hr He Hc Hdd|t0 m e -> Hr Hi Ha Hp Hdd].
  - apply all_attached.
    + apply Forall_app; split; assumption.
    + rewrite calls_on_app, Hcalls, Hc. reflexivity.
    + rewrite dialogs_app, Hd, Hdd. reflexivity.
  - apply (no_custom_top _ _ _ (t_pre ++ t0) m e); try assumption.
    + rewrite app_assoc. reflexivity.
    + apply Forall_app; split; assumption.
    + rewrite calls_on_app, Hcalls. apply prefix_app, Hp.
    + rewrite calls_on_app, Hcalls. intros Hin.
      apply in_app_or in Hin. destruct Hin; contradiction.
    + rewrite dialogs_app, Hd, Hdd. reflexivity.
  - apply (collided _ _ _ (t_pre ++ t0) e); try assumption.
    + rewrite app_assoc. reflexivity.
    + apply Forall_app; split; assumption.
    + rewrite calls_on_app, Hcalls, Hc. reflexivity.
    + rewrite dialogs_app, Hd, Hdd. reflexivity.
  - apply (escaped _ _ _ (t_pre ++ t0) m e); try assumption.
    + rewrite app_assoc. reflexivity.
    + apply Forall_app; split; assumption.
    + rewrite calls_on_app, Hcalls. apply prefix_app, Hp.
    + rewrite dialogs_app, Hd, Hdd. reflexivity.
Qed.

(** A loop that makes at most one call on [o] for each item, none of
    them on a top inlet. *)
Lemma for_each_outcome {A} (g : A -> option method) (l : list A) o w :
  is_Some (heap w !! o) ->
  (forall m, In m (omap g l) ->
     ~ is_top_inlet_call m /\ m <> autoPlaceTopInlets) ->
  let r := for_each l (fun x =>
             match g x with Some m => call o m | None => ret tt end) w in
  exists t,
    trace r.2 = trace w ++ t /\
    ((r.1 = inr tt /\ Forall returned t /\ calls_on o t = omap g l /\
      dialogs t = []) \/
     (exists e, r.1 = inl e /\
        forall rest, attach_outcome o (omap g l ++ rest) t (inl e))).
Proof.
  revert w. induction l as [|x l IH]; intros w Hsome Hg; simpl.
  { exists []. rewrite app_nil_r. split; [reflexivity|]. left.
    repeat split; constructor. }
  simpl in Hg. destruct (g x) as [m|] eqn:Hgx; [|exact (IH w Hsome Hg)].
  unfold bind.
  pose proof (only_object_call o m w) as Hoo.
  destruct Hsome as [c Hc]. rewrite (call_eq o m w c Hc) in *.
  destruct (cad_method m c) as [raised c']. cbn [fst snd] in *.
  set (w1 := with_trace (fun t => t ++ [Call o m raised])
               (with_heap (fun h => <[o := c']> h) w)) in *.
  destruct (Hg m (or_introl eq_refl)) as [Hntop Hnauto].
  destruct raised as [e|]; cbn [fst snd].
  { exists [Call o m (Some e)]. split; [reflexivity|]. right.
    exists e. split; [reflexivity|]. intros rest.
    apply (escaped _ _ _ [] m e); try reflexivity.
    - constructor.
    - intros Ht. contradiction.
    - intros ->. contradiction.
    - rewrite calls_on_same. apply prefix_cons, prefix_nil. }
  assert (Hs1 : is_Some (heap w1 !! o)).
  { apply (only_object_is_Some o w); [exact Hoo|]. rewrite Hc. eauto. }
  destruct (IH w1 Hs1 (fun m' Hin => Hg m' (or_intror Hin)))
    as (t & Ht & Hcase).
  exists (Call o m None :: t).
  split; [rewrite Ht; simpl; rewrite <- app_assoc; reflexivity|].
  change (Call o m None :: t) with ([Call o m None] ++ t).
  destruct Hcase as [(Hr & Hret & Hcalls & Hd)|(e & Hr & Hout)].
  - left. split; [exact Hr|]. split; [constructor; [exact I|exact Hret]|].
    split; [rewrite calls_on_app, calls_on_same, Hcalls; reflexivity|].
    rewrite dialogs_app, Hd. reflexivity.
  - right. exists e. split; [exact Hr|]. intros rest.
    apply (attach_outcome_prepend o [m] (omap g l ++ rest)
             [Call o m None] t); try apply Hout.
    + repeat constructor.
    + apply calls_on_same.
    + reflexivity.
    + intros [E|[]]. exact (Hnauto E).
Qed.

(** The loop of [buildTopInlets]. *)
Lemma buildTopInlets_loop_cons o name io items w c :
  heap w !! o = Some c ->
  let m := top_inlet_call (name, io) in
  let w1 := with_trace (fun t => t ++ [Call o m (cad_method m c).1])
              (with_heap (fun h => <[o := (cad_method m c).2]> h) w) in
  buildTopInlets_loop o ((name, io) :: items) w =
    match (cad_method m c).1 with
    | None => buildTopInlets_loop o items w1
    | Some e =>
        if only IncompatibilityError e then
          (inr false, with_trace (fun t => t ++ [can_t_build_top_inlet]) w1)
        else (inl e, w1)
    end.
Proof.
  intros Hc. simpl. unfold bind at 1. unfold try_except, bind at 1.
  unfold top_inlet_call. cbn [fst snd].
  rewrite (call_eq o _ w c Hc).
  destruct (cad_method _ c) as [[e|] c']; cbn [fst snd]; [|reflexivity].
  destruct (only IncompatibilityError e); reflexivity.
Qed.

Lemma buildTopInlets_loop_outcome items o w :
  is_Some (heap w !! o) ->
  exists t,
    trace (buildTopInlets_loop o items w).2 = trace w ++ t /\
    match (buildTopInlets_loop o items w).1 with
    | inr true =>
        Forall returned t /\
        calls_on o t = map top_inlet_call items /\ dialogs t = []
    | inr false =>
        forall rest,
          attach_outcome o (map top_inlet_call items ++ rest) t (inr tt)
    | inl e =>
        forall rest,
          attach_outcome o (map top_inlet_call items ++ rest) t (inl e)
    end.
Proof.
  revert w. induction items as [|[name io] items IH]; intros w Hsome.
  { exists []. simpl. rewrite app_nil_r. split; [reflexivity|].
    repeat split; constructor. }
  pose proof (only_object_call o (top_inlet_call (name, io)) w) as Hoo.
  destruct Hsome as [c Hc].
  rewrite (buildTopInlets_loop_cons o name io items w c Hc). cbv zeta.
  rewrite (call_eq o _ w c Hc) in Hoo. cbn [fst snd] in Hoo.
  cbn [map]. set (m := top_inlet_call (name, io)) in *.
  assert (Hm : is_top_inlet_call m) by exact I.
  assert (Hma : m <> autoPlaceTopInlets) by discriminate.
  clearbody m.
  destruct (cad_method m c) as [raised c']. cbn [fst snd] in *.
  set (w1 := with_trace (fun t => t ++ [Call o m raised])
               (with_heap (fun h => <[o := c']> h) w)) in *.
  destruct raised as [e|].
  - unfold only, bool_decide.
    destruct (decide_rel eq (exn_cls e) IncompatibilityError) as [E|N];
      cbn [fst snd].
    + exists [Call o m (Some e); can_t_build_top_inlet].
      split; [unfold with_trace; simpl; rewrite <- app_assoc; reflexivity|].
      intros rest.
      apply (no_custom_top _ _ _ [] m e); try reflexivity;
        try assumption.
      * constructor.
      * simpl. destruct (decide (o = o)); [|contradiction].
        apply prefix_cons, prefix_nil.
      * simpl. destruct (decide (o = o)); [|contradiction].
        intros [E'|[]]. exact (Hma E').
    + exists [Call o m (Some e)]. split; [reflexivity|].
      intros rest. apply (escaped _ _ _ [] m e); try reflexivity.
      * constructor.
      * intros _. exact N.
      * intros E'. contradiction.
      * rewrite calls_on_same. apply prefix_cons, prefix_nil.
  - assert (Hs1 : is_Some (heap w1 !! o)).
    { apply (only_object_is_Some o w); [exact Hoo|]. rewrite Hc. eauto. }
    destruct (IH w1 Hs1) as (t & Ht & Hcase).
    exists (Call o m None :: t).
    split; [rewrite Ht; simpl; rewrite <- app_assoc; reflexivity|].
    change (Call o m None :: t) with ([Call o m None] ++ t).
    destruct (buildTopInlets_loop o items w1).1 as [e|[|]].
    + intros rest.
      apply (attach_outcome_prepend o [m]
               (map top_inlet_call items ++ rest) [Call o m None] t);
        try apply Hcase.
      * repeat constructor.
      * apply calls_on_same.
      * reflexivity.
      * intros [E|[]]. exact (Hma E).
    + destruct Hcase as (Hret & Hcalls & Hd).
      split; [constructor; [exact I|exact Hret]|].
      split; [rewrite calls_on_app, calls_on_same, Hcalls; reflexivity|].
      rewrite dialogs_app, Hd. reflexivity.
    + intros rest.
      apply (attach_outcome_prepend o [m]
               (map top_inlet_call items ++ rest) [Call o m None] t);
        try apply Hcase.
      * repeat constructor.
      * apply calls_on_same.
      * reflexivity.
      * intros [E|[]]. exact (Hma E).
Qed.

Lemma attach_outcome_log o s t res lv msg :
  attach_outcome o s t res -> attach_outcome o s (Log lv msg :: t) res.
Proof.
  intros H.
  apply (attach_outcome_prepend o [] s [Log lv msg] t); try assumption;
    try reflexivity.
  - repeat constructor.
  - intros [].
Qed.

Lemma buildTopInlets_outcome o w :
  is_Some (heap w !! o) ->
  exists t,
    trace (buildTopInlets o w).2 = trace w ++ t /\
    attach_outcome o
      (map top_inlet_call (dict_top_inlets (self w)) ++
         [autoPlaceTopInlets])
      t (buildTopInlets o w).1.
Proof.
  intros Hsome.
  set (w0 := with_trace
               (fun t => t ++ [Log DEBUG "Filter Reactor, building top inlets"])
               w).
  set (items := dict_top_inlets (self w)).
  assert (E : buildTopInlets o w =
            match buildTopInlets_loop o items w0 with
            | (inl e, w3) => (inl e, w3)
            | (inr true, w3) =>
                try_except (call o autoPlaceTopInlets)
                  (only ConstraintError)
                  (fun _ =>
                     l_debug "Can't auto-place top inlets, collision ?" ;;
                     critical "Auto-placement error" auto_place_mes) w3
            | (inr false, w3) => (inr tt, w3)
            end).
  { unfold buildTopInlets, bind, l_debug, emit, update, the_self, read.
    cbn [fst snd]. fold w0. change (self w0) with (self w). fold items.
    destruct (buildTopInlets_loop o items w0) as [[e|[|]] w3];
      reflexivity. }
  rewrite E. clear E.
  assert (Hs0 : is_Some (heap w0 !! o)) by exact Hsome.
  destruct (buildTopInlets_loop_outcome items o w0 Hs0) as (t & Ht & Hcase).
  pose proof (buildTopInlets_loop_only_object o items w0) as Hoo.
  pose proof (only_object_is_Some _ _ _ Hoo Hs0) as Hs3.
  destruct (buildTopInlets_loop o items w0) as [[e|[|]] w3];
    cbn [fst snd] in *.
  - exists (Log DEBUG "Filter Reactor, building top inlets" :: t).
    split; [rewrite Ht; simpl; rewrite <- app_assoc; reflexivity|].
    apply attach_outcome_log, Hcase.
  - destruct Hcase as (Hret & Hcalls & Hd). destruct Hs3 as [c3 Hc3].
    unfold try_except. rewrite (call_eq o _ w3 c3 Hc3).
    destruct (cad_method autoPlaceTopInlets c3) as [[e|] c4];
      cbn [fst snd].
    + unfold only, bool_decide.
      destruct (decide_rel eq (exn_cls e) ConstraintError) as [E|N].
      * unfold bind, l_debug, critical, emit, update. cbn [fst snd].
        exists (Log DEBUG "Filter Reactor, building top inlets" ::
                  t ++ [Call o autoPlaceTopInlets (Some e);
                        can_t_auto_place;
                        MessageBox "Auto-placement error" auto_place_mes]).
        split; [simpl; rewrite Ht; simpl; rewrite <- !app_assoc;
                reflexivity|].
        apply attach_outcome_log.
        apply (collided _ _ _ t e); try assumption; try reflexivity.
        -- rewrite calls_on_app, Hcalls. simpl.
           destruct (decide (o = o)); [reflexivity|contradiction].
        -- rewrite dialogs_app, Hd. reflexivity.
      * exists (Log DEBUG "Filter Reactor, building top inlets" ::
                  t ++ [Call o autoPlaceTopInlets (Some e)]).
        split; [simpl; rewrite Ht; simpl; rewrite <- !app_assoc;
                reflexivity|].
        apply attach_outcome_log.
        apply (escaped _ _ _ t autoPlaceTopInlets e);
          try assumption; try reflexivity.
        -- intros [].
        -- intros _. exact N.
        -- rewrite calls_on_app, Hcalls, calls_on_same. reflexivity.
        -- rewrite dialogs_app, Hd. reflexivity.
    + exists (Log DEBUG "Filter Reactor, building top inlets" ::
                t ++ [Call o autoPlaceTopInlets None]).
      split; [simpl; rewrite Ht; simpl; rewrite <- !app_assoc;
              reflexivity|].
      apply attach_outcome_log. apply all_attached.
      * apply Forall_app. split; [exact Hret|repeat constructor].
      * rewrite calls_on_app, Hcalls, calls_on_same. reflexivity.
      * rewrite dialogs_app, Hd. reflexivity.
  - exists (Log DEBUG "Filter Reactor, building top inlets" :: t).
    split; [rewrite Ht; simpl; rewrite <- app_assoc; reflexivity|].
    apply attach_outcome_log, Hcase.
Qed.

Lemma buildInputs_eq o w :
  buildInputs o w =
    for_each (dict_inputs (self w))
      (fun x => match input_call x with
                | Some m => call o m
                | None => ret tt
                end)
      (with_trace
         (fun t => t ++ [Log DEBUG "Filter reactor, building inputs"]) w).
Proof. reflexivity. Qed.

Lemma buildOutputs_eq o w :
  buildOutputs o w =
    for_each (dict_outputs (self w))
      (fun x => match output_call x with
                | Some m => call o m
                | None => ret tt
                end)
      (with_trace
         (fun t => t ++ [Log DEBUG "Filter reactor, building outputs"]) w).
Proof.
  unfold buildOutputs, bind, l_debug, emit, update, the_self, read.
  cbn [fst snd].
  rewrite (for_each_ext (dict_outputs (self w)) _
             (fun x => match output_call x with
                       | Some m => call o m
                       | None => ret tt
                       end)); [reflexivity|].
  intros [name out_io]. unfold output_call. simpl.
  destruct (decide (name = "default")); reflexivity.
Qed.

Lemma buildInputs_only_object o : preserves (only_object o) (buildInputs o).
Proof. unfold buildInputs, the_self, l_debug. preserves_auto. Qed.

Lemma buildOutputs_only_object o :
  preserves (only_object o) (buildOutputs o).
Proof. unfold buildOutputs, the_self, l_debug. preserves_auto. Qed.

Lemma buildInputs_same_self o : preserves same_self (buildInputs o).
Proof. unfold buildInputs, the_self, l_debug. preserves_auto. Qed.

Lemma buildOutputs_same_self o : preserves same_self (buildOutputs o).
Proof. unfold buildOutputs, the_self, l_debug. preserves_auto. Qed.

Lemma input_calls_side s m :
  In m (omap input_call (dict_inputs s)) ->
  ~ is_top_inlet_call m /\ m <> autoPlaceTopInlets.
Proof.
  induction (dict_inputs s) as [|x l IH]; simpl; [intros []|].
  intros [<-|Hin]; [|exact (IH Hin)]. split; [intros []|discriminate].
Qed.

Lemma output_calls_side s m :
  In m (omap output_call (dict_outputs s)) ->
  ~ is_top_inlet_call m /\ m <> autoPlaceTopInlets.
Proof.
  induction (dict_outputs s) as [|x l IH]; simpl; [intros []|].
  unfold output_call at 1. destruct (decide (x.1 = "default")); simpl;
    [exact IH|].
  intros [<-|Hin]; [|exact (IH Hin)]. split; [intros []|discriminate].
Qed.

Lemma side_calls_no_auto s :
  ~ In autoPlaceTopInlets
      (omap input_call (dict_inputs s) ++ omap output_call (dict_outputs s)).
Proof.
  intros Hin. apply in_app_or in Hin. destruct Hin as [Hin|Hin].
  - destruct (input_calls_side s _ Hin) as [_ H]. exact (H eq_refl).
  - destruct (output_calls_side s _ Hin) as [_ H]. exact (H eq_refl).
Qed.

(** The three build methods, one after the other. *)
Theorem build_ios_outcome o w :
  is_Some (heap w !! o) ->
  exists t,
    trace (build_ios o w).2 = trace w ++ t /\
    attach_outcome o (attach_calls (self w)) t (build_ios o w).1.
Proof.
  intros Hsome.
  assert (E : build_ios o w =
            match buildInputs o w with
            | (inl e, w1) => (inl e, w1)
            | (inr _, w1) =>
                match buildOutputs o w1 with
                | (inl e, w2) => (inl e, w2)
                | (inr _, w2) => buildTopInlets o w2
                end
            end).
  { unfold build_ios, bind. destruct (buildInputs o w) as [[e|[]] w1];
      [reflexivity|].
    destruct (buildOutputs o w1) as [[e|[]] w2]; reflexivity. }
  rewrite E. clear E. unfold attach_calls.
  (* the inputs *)
  pose proof (buildInputs_only_object o w) as Hoo1.
  pose proof (buildInputs_same_self o w) as Hss1.
  rewrite buildInputs_eq in *.
  set (l1 := Log DEBUG "Filter reactor, building inputs") in *.
  set (w0 := with_trace (fun t => t ++ [l1]) w) in *.
  destruct (for_each_outcome input_call (dict_inputs (self w)) o w0 Hsome
              (input_calls_side (self w)))
    as (t1 & Ht1 & Hcase1).
  cbv zeta in Hcase1.
  destruct (for_each (dict_inputs (self w)) _ w0) as [[e|[]] w1];
    cbn [fst snd] in *.
  { exists (l1 :: t1).
    split; [rewrite Ht1; simpl; rewrite <- app_assoc; reflexivity|].
    destruct Hcase1 as [(Hr & _)|(e' & Hr & Hout)]; [discriminate|].
    injection Hr as <-. apply attach_outcome_log, Hout. }
  destruct Hcase1 as [(_ & Hret1 & Hcalls1 & Hd1)|(e' & Hr & _)];
    [|discriminate].
  pose proof (only_object_is_Some _ _ _ Hoo1 Hsome) as Hs1.
  (* the outputs *)
  pose proof (buildOutputs_only_object o w1) as Hoo2.
  pose proof (buildOutputs_same_self o w1) as Hss2.
  rewrite buildOutputs_eq in *.
  set (l2 := Log DEBUG "Filter reactor, building outputs") in *.
  set (w1' := with_trace (fun t => t ++ [l2]) w1) in *.
  destruct (for_each_outcome output_call (dict_outputs (self w1)) o w1' Hs1
              (output_calls_side (self w1)))
    as (t2 & Ht2 & Hcase2).
  cbv zeta in Hcase2. unfold same_self in Hss1, Hss2.
  rewrite Hss1 in *.
  destruct (for_each (dict_outputs (self w)) _ w1') as [[e|[]] w2];
    cbn [fst snd] in *.
  { exists ((l1 :: t1) ++ l2 :: t2).
    split; [rewrite Ht2; simpl; rewrite Ht1; simpl;
            rewrite <- !app_assoc; reflexivity|].
    destruct Hcase2 as [(Hr & _)|(e' & Hr & Hout)]; [discriminate|].
    injection Hr as <-.
    apply attach_outcome_prepend.
    - constructor; [exact I|exact Hret1].
    - exact Hcalls1.
    - exact Hd1.
    - intros Hin. destruct (input_calls_side (self w) _ Hin) as [_ H].
      exact (H eq_refl).
    - apply attach_outcome_log, Hout. }
  destruct Hcase2 as [(_ & Hret2 & Hcalls2 & Hd2)|(e' & Hr & _)];
    [|discriminate].
  pose proof (only_object_is_Some _ _ _ Hoo2 Hs1) as Hs2.
  (* the top inlets *)
  destruct (buildTopInlets_outcome o w2 Hs2) as (t3 & Ht3 & Hout).
  rewrite Hss2 in Hout.
  exists (((l1 :: t1) ++ l2 :: t2) ++ t3).
  split; [rewrite Ht3, Ht2; simpl; rewrite Ht1; simpl;
          rewrite <- !app_assoc; reflexivity|].
  rewrite (app_assoc (omap input_call _)).
  apply attach_outcome_prepend.
  - apply Forall_app. split; constructor; try exact I; assumption.
  - rewrite calls_on_app. simpl. rewrite Hcalls1, Hcalls2. reflexivity.
  - rewrite dialogs_app. simpl. rewrite Hd1, Hd2. reflexivity.
  - apply side_calls_no_auto.
  - exact Hout.
Qed.

Lemma build_ios_only_object o : preserves (only_object o) (build_ios o).
Proof.
  unfold build_ios, buildInputs, buildOutputs, buildTopInlets, the_self,
    l_debug, critical.
  preserves_auto.
Qed.

Lemma build_ios_same_self o : preserves same_self (build_ios o).
Proof.
  unfold build_ios, buildInputs, buildOutputs, buildTopInlets, the_self,
    l_debug, critical.
  preserves_auto.
Qed.
End Attach.

(** * Nothing is undone *)

Section Replay.
Context {C : Collaborators}.

Lemma replay_app ms1 ms2 c :
  replay (ms1 ++ ms2) c = replay ms2 (replay ms1 c).
Proof.
  revert c. induction ms1 as [|m ms1 IH]; intros c; [reflexivity|].
  simpl. apply IH.
Qed.

Lemma honest_app o t1 t2 c :
  honest o (t1 ++ t2) c <->
  honest o t1 c /\ honest o t2 (replay (calls_on o t1) c).
Proof.
  revert c. induction t1 as [|e t1 IH]; intros c; simpl; [tauto|].
  destruct e; try apply IH.
  destruct (decide (o0 = o)); simpl; [|apply IH].
  rewrite IH. tauto.
Qed.

#[global] Instance replays_preorder o : PreOrder (replays o).
Proof.
  split.
  - intros w c Hc. exists []. rewrite app_nil_r. split; [reflexivity|].
    split; [exact Hc|exact I].
  - intros w1 w2 w3 H12 H23 c Hc.
    destruct (H12 c Hc) as (t1 & Ht1 & Hc2 & Hh1).
    destruct (H23 _ Hc2) as (t2 & Ht2 & Hc3 & Hh2).
    exists (t1 ++ t2). split; [rewrite Ht2, Ht1, app_assoc; reflexivity|].
    rewrite calls_on_app, replay_app. split; [exact Hc3|].
    apply honest_app. split; assumption.
Qed.

Lemma replays_call o o' m : preserves (replays o) (call o' m).
Proof.
  intros w c Hc. unfold call.
  destruct (heap w !! o') as [c0|] eqn:Hc0.
  2: { exists []. simpl. rewrite app_nil_r.
       split; [reflexivity|]. split; [exact Hc|exact I]. }
  destruct (cad_method m c0) as [raised c'] eqn:Hm.
  assert (H : exists t,
            trace (with_trace (fun t => t ++ [Call o' m raised])
                     (with_heap (fun h => <[o' := c']> h) w)) =
              trace w ++ t /\
            heap (with_trace (fun t => t ++ [Call o' m raised])
                    (with_heap (fun h => <[o' := c']> h) w)) !! o =
              Some (replay (calls_on o t) c) /\
            honest o t c).
  { exists [Call o' m raised]. split; [reflexivity|]. simpl.
    destruct (decide (o' = o)) as [->|Hne].
    - rewrite list_lookup_insert_eq
        by (apply (lookup_lt_Some _ _ c); exact Hc).
      simpl. rewrite Hc in Hc0. injection Hc0 as <-. rewrite Hm.
      repeat split; reflexivity.
    - rewrite list_lookup_insert_ne by exact Hne.
      split; [exact Hc|exact I]. }
  destruct raised; exact H.
Qed.

Lemma replays_emit o e :
  match e with Call _ _ _ => False | _ => True end ->
  preserves (replays o) (emit e).
Proof.
  intros He w c Hc. exists [e]. split; [reflexivity|].
  destruct e; simpl; try (split; [exact Hc|exact I]). contradiction.
Qed.

Lemma replays_l_debug o msg : preserves (replays o) (l_debug msg).
Proof. apply replays_emit. exact I. Qed.

Lemma replays_l_error o msg : preserves (replays o) (l_error msg).
Proof. apply replays_emit. exact I. Qed.

Lemma replays_critical o title mes :
  preserves (replays o) (critical title mes).
Proof. apply replays_emit. exact I. Qed.

Lemma replays_close o : preserves (replays o) close.
Proof. apply replays_emit. exact I. Qed.

Lemma replays_New o res : preserves (replays o) (emit (New res)).
Proof. apply replays_emit. exact I. Qed.

Lemma replays_with_self o f : preserves (replays o) (update (with_self f)).
Proof.
  intros w c Hc. exists []. simpl. rewrite app_nil_r.
  split; [reflexivity|]. split; [exact Hc|exact I].
Qed.

Lemma replays_new_object o c' :
  preserves (replays o) (update (with_heap (fun h => h ++ [c']))).
Proof.
  intros w c Hc. exists []. simpl. rewrite app_nil_r.
  split; [reflexivity|]. split; [|exact I].
  rewrite lookup_app_l by (apply (lookup_lt_Some _ _ c); exact Hc).
  exact Hc.
Qed.

Lemma replays_call_parent o p : preserves (replays o) (call_parent p).
Proof.
  intros w c Hc. unfold call_parent. destruct (test (self w)).
  { exists []. simpl. rewrite app_nil_r.
    split; [reflexivity|]. split; [exact Hc|exact I]. }
  destruct (parent_method p (heap w)) as [e|]; simpl;
    eexists [_]; (split; [reflexivity|]); (split; [exact Hc|exact I]).
Qed.

#[local] Hint Resolve replays_call replays_l_debug replays_l_error
  replays_critical replays_close replays_New replays_with_self
  replays_new_object replays_call_parent : frame.

Lemma replays_buildTopInlets_loop o o' items :
  preserves (replays o) (buildTopInlets_loop o' items).
Proof. induction items as [|[name io] items IH]; simpl; preserves_auto. Qed.

#[local] Hint Resolve replays_buildTopInlets_loop : frame.

Lemma replays_build_ios o o' : preserves (replays o) (build_ios o').
Proof.
  unfold build_ios, buildInputs, buildOutputs, buildTopInlets, the_self.
  preserves_auto.
Qed.

Lemma replays__buildCADObject o : preserves (replays o) _buildCADObject.
Proof. unfold _buildCADObject, construct, the_self. preserves_auto. Qed.

Lemma replays_update_attributes o : preserves (replays o) update_attributes.
Proof.
  unfold update_attributes, set_cad_obj, the_cad_obj, the_self.
  preserves_auto.
Qed.

#[local] Hint Resolve replays_build_ios replays__buildCADObject
  replays_update_attributes : frame.

(** Whatever a commit does, the objects that existed are changed by the
    calls it made on them and in no other way. *)
Lemma replays_buildModule o : preserves (replays o) buildModule.
Proof.
  unfold buildModule, readForm, _buildNewModule, _updateModule,
    the_cad_obj, the_self.
  preserves_auto.
Qed.
End Replay.

(** * The two commit paths, event by event *)

Section Commit.
Context {C : Collaborators}.

Lemma grows_emit (P : event -> Prop) e : P e -> preserves (grows P) (emit e).
Proof.
  intros He w. exists [e]. split; [reflexivity|]. repeat constructor.
  exact He.
Qed.

Lemma grows_call (P : event -> Prop) o m :
  (forall raised, P (Call o m raised)) -> preserves (grows P) (call o m).
Proof.
  intros HP w. unfold call. destruct (heap w !! o) as [c|];
    [|reflexivity].
  destruct (cad_method m c) as [[e|] c']; simpl;
    eexists [_]; (split; [reflexivity|]); repeat constructor; apply HP.
Qed.

Lemma attaching_l_debug o msg :
  preserves (grows (attaching o)) (l_debug msg).
Proof. apply grows_emit. exact I. Qed.

Lemma attaching_call o m : preserves (grows (attaching o)) (call o m).
Proof. apply grows_call. intros raised. reflexivity. Qed.

Lemma attaching_critical o mes :
  preserves (grows (attaching o)) (critical "Auto-placement error" mes).
Proof. apply grows_emit. reflexivity. Qed.

#[local] Hint Resolve attaching_l_debug attaching_call attaching_critical
  : frame.

Lemma attaching_buildTopInlets_loop o items :
  preserves (grows (attaching o)) (buildTopInlets_loop o items).
Proof. induction items as [|[name io] items IH]; simpl; preserves_auto. Qed.

#[local] Hint Resolve attaching_buildTopInlets_loop : frame.

Lemma attaching_build_ios o : preserves (grows (attaching o)) (build_ios o).
Proof.
  unfold build_ios, buildInputs, buildOutputs, buildTopInlets, the_self.
  preserves_auto.
Qed.

Lemma attaching_quiet o t :
  Forall (attaching o) t ->
  parent_calls t = [] /\ constructions t = [] /\
  forall o', o' <> o -> calls_on o' t = [].
Proof.
  induction 1 as [|e t He _ (IHp & IHn & IHc)]; [repeat split; reflexivity|].
  destruct e; simpl in He; try contradiction.
  all: split; [exact IHp|]; split; [exact IHn|]; intros o' Ho; simpl.
  - apply IHc, Ho.
  - apply IHc, Ho.
  - destruct (decide (o0 = o')); [congruence|]. apply IHc, Ho.
Qed.

(** The three build methods on an object that exists: how they end, and
    that they reach nothing but that object. *)
Lemma build_ios_events o w :
  is_Some (heap w !! o) ->
  exists t,
    trace (build_ios o w).2 = trace w ++ t /\
    attach_outcome o (attach_calls (self w)) t (build_ios o w).1 /\
    Forall (attaching o) t /\
    self (build_ios o w).2 = self w /\
    only_object o w (build_ios o w).2.
Proof.
  intros Hsome.
  destruct (build_ios_outcome o w Hsome) as (t & Ht & Hout).
  destruct (attaching_build_ios o w) as (t' & Ht' & Hatt).
  assert (t' = t) as ->.
  { rewrite Ht in Ht'. apply app_inv_head in Ht'. congruence. }
  exists t. repeat split; try assumption.
  - apply build_ios_same_self.
  - apply build_ios_only_object.
  - apply build_ios_only_object.
Qed.

(** *** The assignments of the update path *)

Lemma set_cad_obj_eq a o w :
  cad_obj (self w) = Some o -> set_cad_obj a w = call o (setattr a) w.
Proof.
  intros Ho. unfold set_cad_obj, the_cad_obj, the_self, read, bind, ret.
  simpl. rewrite Ho. reflexivity.
Qed.

Lemma for_each_set_cad_obj l o w :
  cad_obj (self w) = Some o ->
  for_each l set_cad_obj w =
    for_each l
      (fun a => match Some (setattr a) with
                | Some m => call o m
                | None => ret tt
                end) w.
Proof.
  revert w. induction l as [|a l IH]; intros w Ho; [reflexivity|].
  simpl. unfold bind. rewrite (set_cad_obj_eq a o w Ho).
  pose proof (same_self_call o (setattr a) w) as Hs.
  destruct (call o (setattr a) w) as [[e|[]] w']; [reflexivity|].
  apply IH. simpl in Hs. unfold same_self in Hs. rewrite Hs. exact Ho.
Qed.

Lemma update_attributes_eq o w :
  cad_obj (self w) = Some o ->
  update_attributes w =
    match call o (setattr (radius_assignment (params (self w)))) w with
    | (inl e, w1) => (inl e, w1)
    | (inr _, w1) =>
        for_each (other_assignments (params (self w)))
          (fun a => match Some (setattr a) with
                    | Some m => call o m
                    | None => ret tt
                    end)
          (with_trace
             (fun t => t ++ [Log DEBUG "Filter reactor, buildModule w cad_obj"])
             w1)
    end.
Proof.
  intros Ho. unfold update_attributes.
  unfold bind at 1. unfold the_self at 1, read. cbn [fst snd].
  unfold bind at 1.
  assert (E : (if p_r_constrained (params (self w)) &&
                  negb (py_in (p_type_top (params (self w))) THREADED_TOPS)
               then set_cad_obj (Set_r (p_r (params (self w))))
               else set_cad_obj (Set_r_constrained false)) w =
              call o (setattr (radius_assignment (params (self w)))) w).
  { unfold radius_assignment.
    destruct (p_r_constrained (params (self w)) &&
              negb (py_in (p_type_top (params (self w))) THREADED_TOPS));
      apply set_cad_obj_eq, Ho. }
  rewrite E. clear E.
  pose proof (same_self_call o
                (setattr (radius_assignment (params (self w)))) w) as Hs.
  destruct (call o (setattr (radius_assignment (params (self w)))) w)
    as [[e|[]] w1]; [reflexivity|].
  simpl in Hs. unfold same_self in Hs.
  unfold bind at 1. unfold l_debug at 1, emit, update. cbn [fst snd].
  set (w2 := with_trace _ w1).
  assert (Ho2 : cad_obj (self w2) = Some o)
    by (change (self w2) with (self w1); rewrite Hs; exact Ho).
  rewrite <- (for_each_set_cad_obj _ o w2 Ho2).
  unfold other_assignments, for_each, bind, ret.
  repeat (destruct (set_cad_obj _ _) as [[?|[]] ?]; try reflexivity).
Qed.

Lemma setattr_side l m :
  In m (omap (fun a => Some (setattr a)) l) ->
  ~ is_top_inlet_call m /\ m <> autoPlaceTopInlets.
Proof.
  induction l as [|a l IH]; simpl; [intros []|].
  intros [<-|Hin]; [|exact (IH Hin)]. split; [intros []|discriminate].
Qed.

Lemma omap_Some_map {A B} (f : A -> B) (l : list A) :
  omap (fun a => Some (f a)) l = map f l.
Proof.
  induction l as [|a l IH]; simpl; [reflexivity|]. f_equal; exact IH.
Qed.

Lemma update_attributes_events o w :
  cad_obj (self w) = Some o ->
  is_Some (heap w !! o) ->
  let script :=
    map setattr (radius_assignment (params (self w)) ::
                 other_assignments (params (self w))) in
  exists t,
    trace (update_attributes w).2 = trace w ++ t /\
    Forall (attaching o) t /\
    dialogs t = [] /\
    prefix (calls_on o t) script /\
    self (update_attributes w).2 = self w /\
    only_object o w (update_attributes w).2 /\
    (((update_attributes w).1 = inr tt /\ Forall returned t /\
      calls_on o t = script) \/
     (exists e, (update_attributes w).1 = inl e /\ ~ Forall returned t)).
Proof.
  intros Ho Hsome script.
  rewrite (update_attributes_eq o w Ho).
  set (a1 := radius_assignment (params (self w))) in *.
  set (rest := other_assignments (params (self w))) in *.
  pose proof (only_object_call o (setattr a1) w) as Hoo1.
  pose proof (same_self_call o (setattr a1) w) as Hss1.
  destruct Hsome as [c Hc]. rewrite (call_eq o _ w c Hc) in *.
  destruct (cad_method (setattr a1) c) as [raised c1].
  cbn [fst snd] in *.
  set (w1 := with_trace (fun t => t ++ [Call o (setattr a1) raised])
               (with_heap (fun h => <[o := c1]> h) w)) in *.
  destruct raised as [e|].
  { exists [Call o (setattr a1) (Some e)]. cbn [fst snd].
    split; [reflexivity|]. split; [repeat constructor|].
    split; [reflexivity|].
    split; [rewrite calls_on_same; apply prefix_cons, prefix_nil|].
    split; [reflexivity|]. split; [exact Hoo1|].
    right. exists e. split; [reflexivity|].
    intros H. apply Forall_inv in H. exact H. }
  set (lg := Log DEBUG "Filter reactor, buildModule w cad_obj").
  set (w2 := with_trace (fun t => t ++ [lg]) w1).
  assert (Hs2 : is_Some (heap w2 !! o)).
  { apply (only_object_is_Some o w); [exact Hoo1|]. rewrite Hc. eauto. }
  pose proof (preserves_for_each (only_object o) rest
                (fun a => match Some (setattr a) with
                          | Some m => call o m
                          | None => ret tt
                          end)
                (fun a => only_object_call o (setattr a)) w2) as Hoo2.
  pose proof (preserves_for_each same_self rest
                (fun a => match Some (setattr a) with
                          | Some m => call o m
                          | None => ret tt
                          end)
                (fun a => same_self_call o (setattr a)) w2) as Hss2.
  pose proof (preserves_for_each (grows (attaching o)) rest
                (fun a => match Some (setattr a) with
                          | Some m => call o m
                          | None => ret tt
                          end)
                (fun a => attaching_call o (setattr a)) w2) as Hgr.
  destruct (for_each_outcome (fun a => Some (setattr a)) rest o w2 Hs2
              (setattr_side rest)) as (t & Ht & Hcase).
  cbv zeta in Hcase. rewrite omap_Some_map in Hcase.
  destruct Hgr as (t' & Ht' & Hatt).
  assert (t' = t) as ->.
  { rewrite Ht in Ht'. apply app_inv_head in Ht'. congruence. }
  exists (Call o (setattr a1) None :: lg :: t).
  split; [rewrite Ht; simpl; rewrite <- !app_assoc; reflexivity|].
  split; [constructor; [reflexivity|constructor; [exact I|exact Hatt]]|].
  change (Call o (setattr a1) None :: lg :: t)
    with ([Call o (setattr a1) None; lg] ++ t).
  assert (Hc1 : calls_on o [Call o (setattr a1) None; lg] = [setattr a1]).
  { simpl. destruct (decide (o = o)); [reflexivity|contradiction]. }
  rewrite calls_on_app, dialogs_app, Hc1. unfold script. cbn [map].
  split.
  { destruct Hcase as [(_ & _ & _ & Hd)|(e & _ & Hout)]; [exact Hd|].
    specialize (Hout []). inversion Hout; subst. assumption. }
  split.
  { apply prefix_cons.
    destruct Hcase as [(_ & _ & Hcalls & _)|(e & _ & Hout)].
    - rewrite Hcalls. reflexivity.
    - specialize (Hout []). rewrite app_nil_r in Hout.
      inversion Hout; subst. assumption. }
  split; [etransitivity; [exact Hss2|exact Hss1]|].
  split; [etransitivity; [exact Hoo1|exact Hoo2]|].
  destruct Hcase as [(Hr & Hret & Hcalls & _)|(e & Hr & Hout)].
  - left. split; [exact Hr|].
    split; [constructor; [exact I|constructor; [exact I|exact Hret]]|].
    rewrite Hcalls. reflexivity.
  - right. exists e. split; [exact Hr|]. intros Hall.
    apply Forall_inv_tail, Forall_inv_tail in Hall.
    specialize (Hout []). inversion Hout as [| | |t0 m e' Ht0 _ _ _ _ _].
    subst t. apply Forall_app in Hall. destruct Hall as [_ Hl].
    apply Forall_inv in Hl. exact Hl.
Qed.
(** *** The update path *)

Lemma buildModule_update_eq w o :
  test (self w) = false ->
  cad_obj (self w) = Some o ->
  buildModule w =
    match _updateModule (readForm w).2 with
    | (inl e, w') => (inl e, w')
    | (inr _, w') => (inr tt, with_trace (fun t => t ++ [Close]) w')
    end.
Proof.
  intros Ht Ho. set (w0 := (readForm w).2).
  assert (Er : readForm w = (inr tt, w0)) by reflexivity.
  assert (Ht0 : test (self w0) = false) by exact Ht.
  assert (Ho0 : cad_obj (self w0) = Some o) by exact Ho.
  clearbody w0.
  unfold buildModule, bind. rewrite Er.
  unfold the_self, read. cbn [fst snd]. rewrite Ht0, Ho0. cbn [negb].
  destruct (_updateModule w0) as [[e|b] w']; reflexivity.
Qed.

Lemma _updateModule_valid_eq w :
  build_raises (params (self w)) = None ->
  let w1 := with_trace
              (fun t => t ++ [Log DEBUG "Filter reactor, _updateModule"])
              w in
  let w2 := (_buildCADObject w1).2 in
  _updateModule w =
    match update_attributes w2 with
    | (inl e, w3) => (inl e, w3)
    | (inr _, w3) =>
        match the_cad_obj w3 with
        | (inl e, w4) =>
            (inr false,
             with_trace
               (fun t => t ++ [Log ERROR (ios_error e);
                               MessageBox "I/Os error" (ios_error e)]) w4)
        | (inr o, _) =>
            match build_ios o w3 with
            | (inl e, w4) =>
                (inr false,
                 with_trace
                   (fun t => t ++ [Log ERROR (ios_error e);
                                   MessageBox "I/Os error" (ios_error e)])
                   w4)
            | (inr _, w4) =>
                match call_parent parent_refresh w4 with
                | (inl e, w5) =>
                    (inr false,
                     with_trace
                       (fun t => t ++ [Log ERROR (refresh_error_mes e);
                                       MessageBox "Refresh error"
                                         (refresh_error_mes e)]) w5)
                | (inr _, w5) => (inr true, w5)
                end
            end
        end
    end.
Proof.
  intros Hb w1 w2.
  pose proof (_buildCADObject_result w1) as Hr.
  change (params (self w1)) with (params (self w)) in Hr.
  rewrite Hb in Hr.
  unfold _updateModule.
  unfold bind at 1. unfold l_debug at 1, emit, update. cbn [fst snd].
  fold w1.
  unfold bind at 1. unfold try_except at 1. unfold bind at 1.
  destruct (_buildCADObject w1) as [[e|r] w2'] eqn:E; [discriminate|].
  subst w2. cbn [fst snd]. unfold ret at 1. cbn iota.
  unfold bind at 1.
  destruct (update_attributes w2') as [[e|[]] w3]; [reflexivity|].
  unfold bind at 1. unfold try_except at 1. unfold bind at 1.
  destruct (the_cad_obj w3) as [[e|o] w3'] eqn:Eo.
  { unfold Exception, l_error, critical, emit, update, bind, ret.
    cbn [fst snd]. unfold with_trace. cbn. rewrite <- app_assoc.
    reflexivity. }
  assert (w3' = w3) as ->.
  { revert Eo. unfold the_cad_obj, the_self, read, bind, ret, raise.
    cbn [fst snd]. destruct (cad_obj (self w3)); intros [= _ <-];
      reflexivity. }
  unfold bind at 1.
  destruct (build_ios o w3) as [[e|[]] w4].
  { unfold Exception, l_error, critical, emit, update, bind, ret.
    cbn [fst snd]. unfold with_trace. cbn. rewrite <- app_assoc.
    reflexivity. }
  unfold ret at 1. cbn iota.
  unfold try_except, bind at 1.
  destruct (call_parent parent_refresh w4) as [[e|[]] w5].
  { unfold Exception, l_error, critical, emit, update, bind, ret.
    cbn [fst snd]. unfold with_trace. cbn. rewrite <- app_assoc.
    reflexivity. }
  reflexivity.
Qed.
Lemma call_parent_eq p w :
  test (self w) = false ->
  call_parent p w =
    (match parent_method p (heap w) with
     | Some e => inl e
     | None => inr tt
     end,
     with_trace (fun t => t ++ [Parent p (parent_method p (heap w))]) w).
Proof.
  intros Ht. unfold call_parent. rewrite Ht.
  destruct (parent_method p (heap w)); reflexivity.
Qed.

(** An update commit whose validation object was built, event by event:
    the events of the validation, then those of the assignments, then,
    if every assignment returned, those of the three build methods and
    the ending. *)
Lemma update_commit_events w o c :
  test (self w) = false ->
  cad_obj (self w) = Some o ->
  heap w !! o = Some c ->
  build_raises (snapshot (form (self w))) = None ->
  let p := snapshot (form (self w)) in
  let script := map setattr (radius_assignment p :: other_assignments p) in
  exists t_valid t_attrs,
    Forall (silent_above (List.length (heap w))) t_valid /\
    Forall (attaching o) t_attrs /\
    dialogs t_attrs = [] /\
    prefix (calls_on o t_attrs) script /\
    ((exists e,
        (buildModule w).1 = inl e /\
        ~ Forall returned t_attrs /\
        trace (buildModule w).2 = trace w ++ t_valid ++ t_attrs) \/
     (Forall returned t_attrs /\
      calls_on o t_attrs = script /\
      exists t_io res raised,
        attach_outcome o (attach_calls (self w)) t_io res /\
        Forall (attaching o) t_io /\
        (buildModule w).1 = inr tt /\
        trace (buildModule w).2 =
          trace w ++ t_valid ++ t_attrs ++ t_io ++
            update_ending res raised)).
Proof.
  intros Ht Ho Hc Hb p script.
  rewrite (buildModule_update_eq w o Ht Ho).
  set (w0 := (readForm w).2).
  assert (Hp0 : params (self w0) = p) by reflexivity.
  assert (Htr0 : trace w0 =
                 trace w ++ [Log DEBUG "Filter reactor, read form"])
    by reflexivity.
  assert (Hh0 : heap w0 = heap w) by reflexivity.
  assert (Hd0 : attach_calls (self w0) = attach_calls (self w))
    by reflexivity.
  assert (Ht0 : test (self w0) = false) by exact Ht.
  assert (Ho0 : cad_obj (self w0) = Some o) by exact Ho.
  clearbody w0.
  rewrite (_updateModule_valid_eq w0) by (rewrite Hp0; exact Hb).
  cbv zeta.
  set (w1 := with_trace
               (fun t => t ++ [Log DEBUG "Filter reactor, _updateModule"])
               w0).
  destruct (_buildCADObject_validation_only w1)
    as (Hs2 & Hh2 & tv & Htv & Hsil).
  set (w2 := (_buildCADObject w1).2) in *.
  change (heap w1) with (heap w0) in Hh2, Hsil.
  rewrite Hh0 in Hh2, Hsil.
  assert (Hc2 : heap w2 !! o = Some c) by (apply Hh2; exact Hc).
  assert (Ho2 : cad_obj (self w2) = Some o)
    by (rewrite Hs2; exact Ho0).
  assert (Hp2 : params (self w2) = p) by (rewrite Hs2; exact Hp0).
  assert (Htr2 : trace w2 =
            trace w ++ [Log DEBUG "Filter reactor, read form";
                        Log DEBUG "Filter reactor, _updateModule"] ++ tv).
  { rewrite Htv. simpl. rewrite Htr0, <- !app_assoc. reflexivity. }
  destruct (update_attributes_events o w2 Ho2 (ex_intro _ c Hc2))
    as (ta & Hta & Hatt & Hda & Hpre & Hs3 & Hoo3 & Hcase).
  rewrite Hp2 in Hpre, Hcase. fold script in Hpre, Hcase.
  exists ([Log DEBUG "Filter reactor, read form";
           Log DEBUG "Filter reactor, _updateModule"] ++ tv), ta.
  split; [repeat constructor; exact Hsil|].
  split; [exact Hatt|]. split; [exact Hda|]. split; [exact Hpre|].
  destruct (update_attributes w2) as [[e|[]] w3]; cbn [fst snd] in *.
  { left. exists e. destruct Hcase as [(Hr & _)|(e' & _ & Hnr)];
      [discriminate|].
    split; [reflexivity|]. split; [exact Hnr|].
    rewrite Hta, Htr2, <- !app_assoc. reflexivity. }
  right. destruct Hcase as [(_ & Hret & Hcalls)|(e' & Hr & _)];
    [|discriminate].
  split; [exact Hret|]. split; [exact Hcalls|].
  assert (Ho3 : cad_obj (self w3) = Some o) by (rewrite Hs3; exact Ho2).
  assert (Eo : the_cad_obj w3 = (inr o, w3)).
  { unfold the_cad_obj, the_self, read, bind, ret. cbn [fst snd].
    rewrite Ho3. reflexivity. }
  rewrite Eo.
  assert (Hsome3 : is_Some (heap w3 !! o)).
  { apply (only_object_is_Some o w2); [exact Hoo3|]. rewrite Hc2. eauto. }
  destruct (build_ios_events o w3 Hsome3)
    as (tio & Htio & Hout & Hattio & Hs4 & Hoo4).
  assert (Hscript : attach_calls (self w3) = attach_calls (self w)).
  { rewrite Hs3, Hs2. exact Hd0. }
  rewrite Hscript in Hout.
  assert (Htr3 : trace w3 =
            trace w ++ ([Log DEBUG "Filter reactor, read form";
                         Log DEBUG "Filter reactor, _updateModule"] ++ tv)
              ++ ta).
  { rewrite Hta, Htr2, <- !app_assoc. reflexivity. }
  destruct (build_ios o w3) as [[e|[]] w4]; cbn [fst snd] in *.
  { exists tio, (inl e), None. split; [exact Hout|].
    split; [exact Hattio|]. split; [reflexivity|].
    simpl. rewrite Htio, Htr3.
    repeat first [progress simpl | rewrite <- app_assoc]. reflexivity. }
  assert (Ht4 : test (self w4) = false).
  { rewrite Hs4, Hs3, Hs2. exact Ht0. }
  rewrite (call_parent_eq parent_refresh w4 Ht4).
  exists tio, (inr tt), (parent_method parent_refresh (heap w4)).
  split; [exact Hout|]. split; [exact Hattio|].
  destruct (parent_method parent_refresh (heap w4)) as [e|];
    (split; [reflexivity|]);
    simpl; rewrite Htio, Htr3;
    repeat first [progress simpl | rewrite <- app_assoc]; reflexivity.
Qed.
(** *** The create path *)

Lemma buildModule_create_eq w :
  test (self w) = false ->
  cad_obj (self w) = None ->
  buildModule w =
    match _buildNewModule (readForm w).2 with
    | (inl e, w') => (inl e, w')
    | (inr _, w') => (inr tt, with_trace (fun t => t ++ [Close]) w')
    end.
Proof.
  intros Ht Ho. set (w0 := (readForm w).2).
  assert (Er : readForm w = (inr tt, w0)) by reflexivity.
  assert (Ht0 : test (self w0) = false) by exact Ht.
  assert (Ho0 : cad_obj (self w0) = None) by exact Ho.
  clearbody w0.
  unfold buildModule, bind. rewrite Er.
  unfold the_self, read. cbn [fst snd]. rewrite Ht0, Ho0. cbn [negb].
  destruct (_buildNewModule w0) as [[e|b] w']; reflexivity.
Qed.

Lemma _buildNewModule_eq w :
  let w1 := with_trace
              (fun t => t ++ [Log DEBUG "Filter reactor, _buildNewModule"])
              w in
  _buildNewModule w =
    match _buildCADObject w1 with
    | (inl e, w2) =>
        (inr false,
         with_trace
           (fun t => t ++ [Log ERROR (creation_error e);
                           MessageBox "Creation error" (creation_error e)])
           w2)
    | (inr reactor, w2) =>
        match build_ios reactor w2 with
        | (inl e, w3) =>
            (inr false,
             with_trace
               (fun t => t ++ [Log ERROR (ios_error e);
                               MessageBox "I/Os error" (ios_error e)]) w3)
        | (inr _, w3) =>
            match call_parent (parent_buildModule reactor) w3 with
            | (inl e, w4) => (inl e, w4)
            | (inr _, w4) => (inr true, w4)
            end
        end
    end.
Proof.
  intros w1. unfold _buildNewModule.
  unfold bind at 1. unfold l_debug at 1, emit, update. cbn [fst snd].
  fold w1.
  unfold bind at 1. unfold try_except at 1. unfold bind at 1.
  destruct (_buildCADObject w1) as [[e|reactor] w2].
  { unfold Exception, l_error, critical, emit, update, bind, ret.
    cbn [fst snd]. unfold with_trace. cbn. rewrite <- app_assoc.
    reflexivity. }
  unfold ret at 1. cbn iota.
  unfold bind at 1. unfold try_except at 1. unfold bind at 1.
  destruct (build_ios reactor w2) as [[e|[]] w3].
  { unfold Exception, l_error, critical, emit, update, bind, ret.
    cbn [fst snd]. unfold with_trace. cbn. rewrite <- app_assoc.
    reflexivity. }
  unfold ret at 1. cbn iota. unfold bind.
  destruct (call_parent (parent_buildModule reactor) w3) as [[e|[]] w4];
    reflexivity.
Qed.

(** A create commit, event by event: the events of the construction,
    then either the report of its failure, or those of the three build
    methods on the new object and the ending. *)
Lemma create_commit_events w :
  test (self w) = false ->
  cad_obj (self w) = None ->
  let p := snapshot (form (self w)) in
  let reactor := List.length (heap w) in
  exists t_build,
    Forall (silent_above reactor) t_build /\
    match build_raises p with
    | Some e =>
        (buildModule w).1 = inr tt /\
        self (buildModule w).2 = with_params p (self w) /\
        trace (buildModule w).2 =
          trace w ++ t_build ++
            [Log ERROR (creation_error e);
             MessageBox "Creation error" (creation_error e); Close]
    | None =>
        exists t_io res raised,
          attach_outcome reactor (attach_calls (self w)) t_io res /\
          Forall (attaching reactor) t_io /\
          (buildModule w).1 =
            match res, raised with
            | inr _, Some e => inl e
            | _, _ => inr tt
            end /\
          self (buildModule w).2 = with_params p (self w) /\
          trace (buildModule w).2 =
            trace w ++ t_build ++ t_io ++ create_ending reactor res raised
    end.
Proof.
  intros Ht Ho p reactor.
  rewrite (buildModule_create_eq w Ht Ho).
  set (w0 := (readForm w).2).
  assert (Hp0 : params (self w0) = p) by reflexivity.
  assert (Hs0 : self w0 = with_params p (self w)) by reflexivity.
  assert (Htr0 : trace w0 =
                 trace w ++ [Log DEBUG "Filter reactor, read form"])
    by reflexivity.
  assert (Hh0 : heap w0 = heap w) by reflexivity.
  assert (Hd0 : attach_calls (self w0) = attach_calls (self w))
    by reflexivity.
  assert (Ht0 : test (self w0) = false) by exact Ht.
  clearbody w0.
  rewrite (_buildNewModule_eq w0). cbv zeta.
  set (w1 := with_trace
               (fun t => t ++ [Log DEBUG "Filter reactor, _buildNewModule"])
               w0).
  destruct (_buildCADObject_validation_only w1)
    as (Hs2 & Hh2 & tv & Htv & Hsil).
  pose proof (_buildCADObject_result w1) as Hres.
  pose proof (_buildCADObject_fresh w1) as Hfresh.
  change (heap w1) with (heap w0) in Hsil, Hres, Hfresh.
  change (params (self w1)) with (params (self w0)) in Hres.
  rewrite Hh0 in Hsil, Hres, Hfresh. rewrite Hp0 in Hres.
  fold reactor in Hsil, Hres, Hfresh.
  exists ([Log DEBUG "Filter reactor, read form";
           Log DEBUG "Filter reactor, _buildNewModule"] ++ tv).
  split; [repeat constructor; exact Hsil|].
  destruct (_buildCADObject w1) as [[e|r] w2]; cbn [fst snd] in *.
  { destruct (build_raises p) as [e'|]; [|discriminate].
    injection Hres as <-.
    split; [reflexivity|]. split; [simpl; rewrite Hs2; exact Hs0|].
    simpl. rewrite Htv. simpl. rewrite Htr0.
    repeat first [progress simpl | rewrite <- app_assoc]. reflexivity. }
  destruct (build_raises p) as [e'|]; [discriminate|].
  injection Hres as ->.
  destruct (Hfresh reactor w2 eq_refl) as [_ Hsome].
  destruct (build_ios_events reactor w2 Hsome)
    as (tio & Htio & Hout & Hattio & Hs3 & _).
  assert (Hscript : attach_calls (self w2) = attach_calls (self w)).
  { rewrite Hs2. exact Hd0. }
  rewrite Hscript in Hout.
  assert (Htr2 : trace w2 =
            trace w ++ ([Log DEBUG "Filter reactor, read form";
                         Log DEBUG "Filter reactor, _buildNewModule"]
                        ++ tv)).
  { rewrite Htv. simpl. rewrite Htr0, <- !app_assoc. reflexivity. }
  destruct (build_ios reactor w2) as [[e|[]] w3]; cbn [fst snd] in *.
  { exists tio, (inl e), None. split; [exact Hout|].
    split; [exact Hattio|]. split; [reflexivity|].
    split; [simpl; rewrite Hs3, Hs2; exact Hs0|].
    simpl. rewrite Htio, Htr2.
    repeat first [progress simpl | rewrite <- app_assoc]. reflexivity. }
  assert (Ht3 : test (self w3) = false).
  { rewrite Hs3, Hs2. exact Ht0. }
  rewrite (call_parent_eq (parent_buildModule reactor) w3 Ht3).
  exists tio, (inr tt),
    (parent_method (parent_buildModule reactor) (heap w3)).
  split; [exact Hout|]. split; [exact Hattio|].
  destruct (parent_method (parent_buildModule reactor) (heap w3)) as [e|];
    (split; [reflexivity|]);
    (split; [simpl; rewrite Hs3, Hs2; exact Hs0|]);
    simpl; rewrite Htio, Htr2;
    repeat first [progress simpl | rewrite <- app_assoc]; reflexivity.
Qed.
End Commit.

(** * Failures of the top inlets *)

Lemma returned_not_raised t o m e :
  Forall returned t -> ~ In (Call o m (Some e)) t.
Proof.
  intros Hret Hin. rewrite Forall_forall in Hret.
  apply list_elem_of_In in Hin. exact (Hret _ Hin).
Qed.

Lemma In_calls_on o m raised t : In (Call o m raised) t -> In m (calls_on o t).
Proof.
  induction t as [|e t IH]; [intros []|].
  intros [->|Hin].
  - simpl. destruct (decide (o = o)); [left; reflexivity|contradiction].
  - change (e :: t) with ([e] ++ t). rewrite calls_on_app.
    apply in_or_app. right. exact (IH Hin).
Qed.

Lemma attach_outcome_incompatibility o s t res m e :
  attach_outcome o s t res ->
  In (Call o m (Some e)) t ->
  is_top_inlet_call m ->
  exn_cls e = IncompatibilityError ->
  res = inr tt /\ dialogs t = [] /\
  ~ In autoPlaceTopInlets (calls_on o t).
Proof.
  intros Hout Hin Hm He.
  destruct Hout as [Hr _ _|t0 m' e' -> Hr _ _ _ Hn Hd
                   |t0 e' -> Hr _ _ _|t0 m' e' -> Hr Hi _ _ _].
  - destruct (returned_not_raised _ _ _ _ Hr Hin).
  - repeat split; assumption.
  - apply in_app_or in Hin. destruct Hin as [Hin|Hin].
    + destruct (returned_not_raised _ _ _ _ Hr Hin).
    + destruct Hin as [E|[E|[E|[]]]]; try discriminate E.
      injection E as <- _. destruct Hm.
  - apply in_app_or in Hin. destruct Hin as [Hin|Hin].
    + destruct (returned_not_raised _ _ _ _ Hr Hin).
    + destruct Hin as [E|[]]. injection E as <- <-.
      destruct (Hi Hm He).
Qed.

Lemma attach_outcome_collision o s t res e :
  attach_outcome o s t res ->
  In (Call o autoPlaceTopInlets (Some e)) t ->
  exn_cls e = ConstraintError ->
  res = inr tt /\
  dialogs t = [("Auto-placement error", auto_place_mes)] /\
  calls_on o t = s.
Proof.
  intros Hout Hin He.
  destruct Hout as [Hr _ _|t0 m' e' -> Hr Hm _ _ _ _
                   |t0 e' -> Hr _ Hc Hd|t0 m' e' -> Hr _ Ha _ _].
  - destruct (returned_not_raised _ _ _ _ Hr Hin).
  - apply in_app_or in Hin. destruct Hin as [Hin|Hin].
    + destruct (returned_not_raised _ _ _ _ Hr Hin).
    + destruct Hin as [E|[E|[]]]; try discriminate E.
      injection E as -> _. destruct Hm.
  - repeat split; assumption.
  - apply in_app_or in Hin. destruct Hin as [Hin|Hin].
    + destruct (returned_not_raised _ _ _ _ Hr Hin).
    + destruct Hin as [E|[]]. injection E as -> ->.
      destruct (Ha eq_refl He).
Qed.

(** C9. While the registry is attached to a CAD object, in either commit
    path: a top inlet that raises [IncompatibilityError] is no error, the
    build methods return, no message is shown and the auto-placement is
    not called; an auto-placement that raises [ConstraintError] is told to
    the user as "Auto-placement error" and the build methods return, every
    input, output and top inlet having been attached. In both cases the
    object is what the calls made it: nothing attached is taken back. *)
Theorem top_inlet_failures_are_contained :
  forall (C : Collaborators) (w : World) (o : ref) (c : CadObj),
    heap w !! o = Some c ->
    exists t,
      trace (build_ios o w).2 = trace w ++ t /\
      heap (build_ios o w).2 !! o = Some (replay (calls_on o t) c) /\
      prefix (calls_on o t) (attach_calls (self w)) /\
      (forall m e,
         In (Call o m (Some e)) t ->
         is_top_inlet_call m ->
         exn_cls e = IncompatibilityError ->
         (build_ios o w).1 = inr tt /\
         dialogs t = [] /\
         ~ In autoPlaceTopInlets (calls_on o t)) /\
      (forall e,
         In (Call o autoPlaceTopInlets (Some e)) t ->
         exn_cls e = ConstraintError ->
         (build_ios o w).1 = inr tt /\
         dialogs t = [("Auto-placement error", auto_place_mes)] /\
         calls_on o t = attach_calls (self w)).
Proof.
  intros C w o c Hc.
  destruct (build_ios_events o w (ex_intro _ c Hc))
    as (t & Ht & Hout & _ & _ & _).
  destruct (replays_build_ios o o w c Hc) as (t' & Ht' & Hrep & _).
  assert (t' = t) as ->.
  { rewrite Ht in Ht'. apply app_inv_head in Ht'. congruence. }
  exists t. split; [exact Ht|]. split; [exact Hrep|].
  split.
  { destruct Hout; try assumption.
    - match goal with H : calls_on o t = _ |- _ => rewrite H end. reflexivity.
    - match goal with H : calls_on o t = _ |- _ => rewrite H end. reflexivity. }
  split.
  - intros m e Hin Hm He.
    exact (attach_outcome_incompatibility _ _ _ _ m e Hout Hin Hm He).
  - intros e Hin He.
    exact (attach_outcome_collision _ _ _ _ e Hout Hin He).
Qed.

(** * The create path *)

Lemma attach_outcome_prefix o s t res :
  attach_outcome o s t res -> prefix (calls_on o t) s.
Proof.
  intros [_ -> _| | |]; try assumption; try reflexivity.
  intros. match goal with H : calls_on o t = _ |- _ => rewrite H end.
  reflexivity.
Qed.

Lemma attach_outcome_escaped o s t e :
  attach_outcome o s t (inl e) ->
  dialogs t = [] /\
  exists t0 m, t = t0 ++ [Call o m (Some e)] /\ Forall returned t0 /\
    (is_top_inlet_call m -> exn_cls e <> IncompatibilityError) /\
    (m = autoPlaceTopInlets -> exn_cls e <> ConstraintError).
Proof.
  intros H. inversion H as [| | |t0 m e' Ht Hr Hi Ha _ Hd]. subst.
  split; [exact Hd|]. exists t0, m. repeat split; assumption.
Qed.

Lemma create_ending_events reactor res raised :
  dialogs (create_ending reactor res raised) =
    match res with
    | inl e => [("I/Os error", ios_error e)]
    | inr _ => []
    end /\
  parent_calls (create_ending reactor res raised) =
    match res with
    | inl _ => []
    | inr _ => [parent_buildModule reactor]
    end.
Proof. destruct res as [e|[]]; [|destruct raised]; split; reflexivity. Qed.

Lemma swallowed_top_inlet_is_handed_over :
  let w := Sample.threaded_with_inlet in
  let t := drop (List.length (trace w)) (trace (@buildModule Sample.C w).2) in
  test (self w) = false /\ cad_obj (self w) = None /\
  In (Call 0 (addCustomTopInlet "t1" 2%Q 10%Q 1%Q "custom")
        (Some (Exn IncompatibilityError "no custom top"))) t /\
  dialogs t = [] /\
  parent_calls t = [parent_buildModule 0].
Proof. vm_compute. repeat split. do 7 right. left. reflexivity. Qed.

(** C7, as the code has it. A create commit whose constructor raises shows
    "Creation error" and does not call the parent. Otherwise the build
    methods call, on the new object and in this order, the attachment of
    every registered input, of every output but the one named "default",
    of every top inlet, then the auto-placement, and stop at the first
    call that raises. An exception that leaves the build methods (any but
    the [IncompatibilityError] of a top inlet and the [ConstraintError] of
    the auto-placement, which [buildTopInlets] catches) shows "I/Os error"
    and the parent is not called; in every other case the parent's
    [buildModule] is called exactly once, with the new object. The dialog
    never keeps the object. *)
Theorem create_commit_hands_over_or_reports :
  forall (C : Collaborators) (w : World),
    test (self w) = false ->
    cad_obj (self w) = None ->
    let p := snapshot (form (self w)) in
    let reactor := List.length (heap w) in
    exists t,
      trace (buildModule w).2 = trace w ++ t /\
      cad_obj (self (buildModule w).2) = None /\
      match build_raises p with
      | Some e =>
          dialogs t = [("Creation error", creation_error e)] /\
          parent_calls t = []
      | None =>
          exists t_build t_io res raised,
            t = t_build ++ t_io ++ create_ending reactor res raised /\
            Forall (silent_above reactor) t_build /\
            attach_outcome reactor (attach_calls (self w)) t_io res /\
            match res with
            | inl e =>
                dialogs t = [("I/Os error", ios_error e)] /\
                parent_calls t = []
            | inr _ =>
                dialogs t = dialogs t_io /\
                parent_calls t = [parent_buildModule reactor]
            end
      end.
Proof.
  intros C w Ht Ho p reactor.
  destruct (create_commit_events w Ht Ho) as (t_build & Hsil & H).
  fold p reactor in Hsil, H.
  destruct (silent_above_quiet _ _ Hsil) as (Hdb & Hpb & _).
  destruct (build_raises p) as [e|].
  - destruct H as (_ & Hs & Htr).
    eexists. split; [exact Htr|].
    split; [rewrite Hs; exact Ho|].
    rewrite dialogs_app, parent_calls_app, Hdb, Hpb. split; reflexivity.
  - destruct H as (t_io & res & raised & Hout & Hatt & _ & Hs & Htr).
    eexists. split; [exact Htr|].
    split; [rewrite Hs; exact Ho|].
    exists t_build, t_io, res, raised.
    split; [reflexivity|]. split; [exact Hsil|]. split; [exact Hout|].
    destruct (attaching_quiet _ _ Hatt) as (Hpio & _ & _).
    destruct (create_ending_events reactor res raised) as [Hde Hpe].
    rewrite !dialogs_app, !parent_calls_app, Hdb, Hpb, Hpio, Hde, Hpe.
    destruct res as [e|[]]; simpl.
    + destruct (attach_outcome_escaped _ _ _ _ Hout) as [Hd _].
      rewrite Hd. split; reflexivity.
    + rewrite app_nil_r. split; reflexivity.
Qed.

Lemma create_commit_hands_over_or_reports_witness :
  exists t,
    trace (@buildModule Sample.C Sample.creating).2 =
      trace Sample.creating ++ t /\
    cad_obj (self (@buildModule Sample.C Sample.creating).2) = None.
Proof.
  destruct (create_commit_hands_over_or_reports Sample.C Sample.creating
              eq_refl eq_refl) as (t & Ht & Hc & _).
  exists t. split; assumption.
Defined.

(** * The update path keeps what it did *)

Lemma silent_above_no_call n t o m raised :
  Forall (silent_above n) t -> o < n -> ~ In (Call o m raised) t.
Proof.
  intros Hsil Ho Hin. rewrite Forall_forall in Hsil.
  apply list_elem_of_In in Hin. specialize (Hsil _ Hin). simpl in Hsil. lia.
Qed.

Lemma update_ending_events res raised :
  (forall o, calls_on o (update_ending res raised) = []) /\
  (forall o m r, ~ In (Call o m r) (update_ending res raised)) /\
  dialogs (update_ending res raised) =
    match res, raised with
    | inl e, _ => [("I/Os error", ios_error e)]
    | inr _, Some e => [("Refresh error", refresh_error_mes e)]
    | inr _, None => []
    end /\
  parent_calls (update_ending res raised) =
    match res with
    | inl _ => []
    | inr _ => [parent_refresh]
    end.
Proof.
  destruct res as [e|[]]; [|destruct raised as [e|]].
  all: split; [intros o; reflexivity|].
  all: split; [intros o m r Hin; simpl in Hin;
               repeat (destruct Hin as [Hin|Hin]; [discriminate Hin|]);
               exact Hin|].
  all: split; reflexivity.
Qed.

Lemma prefix_In {A} (l1 l2 : list A) x : prefix l1 l2 -> In x l1 -> In x l2.
Proof. intros [k ->] Hin. apply in_or_app. left. exact Hin. Qed.

(** C6. An update commit whose validation object was built never takes
    back what it did to the CAD object under edit: at the end the object
    is the object it was with the calls of the trace applied, and these
    are, in order, the assignments and the attachments. When a call that
    attaches an I/O raises, every assignment has been made and stays, and
    either the exception is one that [buildTopInlets] catches, or "I/Os
    error" is shown and the parent is not called. When the refresh of the
    parent raises, "Refresh error" is shown and the object keeps every
    assignment and attachment. *)
Theorem update_commit_is_not_rolled_back :
  forall (C : Collaborators) (w : World) (o : ref) (c : CadObj),
    test (self w) = false ->
    cad_obj (self w) = Some o ->
    heap w !! o = Some c ->
    build_raises (snapshot (form (self w))) = None ->
    let p := snapshot (form (self w)) in
    let assignments :=
      map setattr (radius_assignment p :: other_assignments p) in
    exists t,
      trace (buildModule w).2 = trace w ++ t /\
      heap (buildModule w).2 !! o = Some (replay (calls_on o t) c) /\
      prefix (calls_on o t) (assignments ++ attach_calls (self w)) /\
      (forall m e,
         In (Call o m (Some e)) t ->
         (forall a, m <> setattr a) ->
         exists attached,
           calls_on o t = assignments ++ attached /\
           prefix attached (attach_calls (self w)) /\
           (buildModule w).1 = inr tt /\
           ((is_top_inlet_call m /\ exn_cls e = IncompatibilityError) \/
            (m = autoPlaceTopInlets /\ exn_cls e = ConstraintError) \/
            (dialogs t = [("I/Os error", ios_error e)] /\
             parent_calls t = []))) /\
      (forall e,
         In (Parent parent_refresh (Some e)) t ->
         exists attached,
           calls_on o t = assignments ++ attached /\
           prefix attached (attach_calls (self w)) /\
           (buildModule w).1 = inr tt /\
           In (MessageBox "Refresh error" (refresh_error_mes e)) t).
Proof.
  intros C w o c Ht Ho Hc Hb p assignments.
  destruct (replays_buildModule o w c Hc) as (t & Htr & Hrep & _).
  exists t. split; [exact Htr|]. split; [exact Hrep|].
  destruct (update_commit_events w o c Ht Ho Hc Hb)
    as (tv & ta & Hsil & Hatt & Hda & Hpre & Hcase).
  fold p in Hpre, Hcase. fold assignments in Hpre, Hcase.
  assert (Hassign : forall m, In m assignments -> exists a, m = setattr a).
  { intros m Hin. apply in_map_iff in Hin. destruct Hin as (a & <- & _).
    exists a. reflexivity. }
  clearbody assignments.
  assert (Hon : o < List.length (heap w))
    by (apply (lookup_lt_Some _ _ c); exact Hc).
  destruct (silent_above_quiet _ _ Hsil) as (Hdv & Hpv & Hcv).
  specialize (Hcv o Hon).
  destruct (attaching_quiet _ _ Hatt) as (Hpa & _ & _).
  destruct Hcase as [(e0 & Hres & Hnret & Htr')
                    |(Hret & Hcalls & tio & res & raised & Hout & Hattio
                      & Hres & Htr')].
  - (* an assignment raised *)
    assert (t = tv ++ ta) as ->.
    { rewrite Htr in Htr'. apply app_inv_head in Htr'. exact Htr'. }
    rewrite calls_on_app, Hcv, app_nil_l.
    split; [apply prefix_app_r; exact Hpre|].
    split.
    + intros m e Hin Hm. apply in_app_or in Hin. destruct Hin as [Hin|Hin].
      * destruct (silent_above_no_call _ _ _ _ _ Hsil Hon Hin).
      * apply In_calls_on in Hin. apply (prefix_In _ _ _ Hpre) in Hin.
        destruct (Hassign _ Hin) as (a & ->). destruct (Hm a eq_refl).
    + intros e Hin. apply in_app_or in Hin. destruct Hin as [Hin|Hin].
      * rewrite Forall_forall in Hsil. apply list_elem_of_In in Hin.
        destruct (Hsil _ Hin).
      * rewrite Forall_forall in Hatt. apply list_elem_of_In in Hin.
        destruct (Hatt _ Hin).
  - (* every assignment returned *)
    assert (t = tv ++ ta ++ tio ++ update_ending res raised) as ->.
    { rewrite Htr in Htr'. apply app_inv_head in Htr'. exact Htr'. }
    destruct (update_ending_events res raised) as (Hce & Hne & Hde & Hpe).
    destruct (attaching_quiet _ _ Hattio) as (Hpio & _ & _).
    pose proof (attach_outcome_prefix _ _ _ _ Hout) as Hpio'.
    assert (Hall : calls_on o (tv ++ ta ++ tio ++ update_ending res raised) =
                   assignments ++ calls_on o tio).
    { rewrite !calls_on_app, Hcv, Hcalls, Hce, app_nil_r. reflexivity. }
    rewrite Hall.
    split; [apply prefix_app; exact Hpio'|].
    split.
    + intros m e Hin Hm.
      exists (calls_on o tio). split; [reflexivity|].
      split; [exact Hpio'|]. split; [exact Hres|].
      apply in_app_or in Hin. destruct Hin as [Hin|Hin];
        [destruct (silent_above_no_call _ _ _ _ _ Hsil Hon Hin)|].
      apply in_app_or in Hin. destruct Hin as [Hin|Hin];
        [destruct (returned_not_raised _ _ _ _ Hret Hin)|].
      apply in_app_or in Hin. destruct Hin as [Hin|Hin];
        [|destruct (Hne _ _ _ Hin)].
      rewrite !dialogs_app, !parent_calls_app, Hdv, Hda, Hpv, Hpa, Hpio,
        Hde, Hpe.
      clear Hall Htr Htr' Hrep Hres.
      destruct Hout as [Hr _ _|t0 m' e' -> Hr Hm' He' _ _ _
                       |t0 e' -> Hr He' _ _|t0 m' e' -> Hr _ _ _ Hd].
      * destruct (returned_not_raised _ _ _ _ Hr Hin).
      * apply in_app_or in Hin. destruct Hin as [Hin|Hin];
          [destruct (returned_not_raised _ _ _ _ Hr Hin)|].
        destruct Hin as [E|[E|[]]]; [|discriminate E].
        injection E as -> ->. left. split; assumption.
      * apply in_app_or in Hin. destruct Hin as [Hin|Hin];
          [destruct (returned_not_raised _ _ _ _ Hr Hin)|].
        destruct Hin as [E|[E|[E|[]]]]; try discriminate E.
        injection E as <- ->. right. left. split; [reflexivity|assumption].
      * apply in_app_or in Hin. destruct Hin as [Hin|Hin];
          [destruct (returned_not_raised _ _ _ _ Hr Hin)|].
        destruct Hin as [E|[]]. injection E as -> ->.
        right. right. rewrite Hd. split; reflexivity.
    + intros e Hin.
      exists (calls_on o tio). split; [reflexivity|].
      split; [exact Hpio'|]. split; [exact Hres|].
      apply in_app_or in Hin. destruct Hin as [Hin|Hin].
      { rewrite Forall_forall in Hsil. apply list_elem_of_In in Hin.
        destruct (Hsil _ Hin). }
      apply in_app_or in Hin. destruct Hin as [Hin|Hin].
      { rewrite Forall_forall in Hatt. apply list_elem_of_In in Hin.
        destruct (Hatt _ Hin). }
      apply in_app_or in Hin. destruct Hin as [Hin|Hin].
      { rewrite Forall_forall in Hattio. apply list_elem_of_In in Hin.
        destruct (Hattio _ Hin). }
      apply in_or_app. right. apply in_or_app. right.
      apply in_or_app. right.
      destruct res as [e'|[]]; simpl in Hin.
      { repeat (destruct Hin as [Hin|Hin]; [discriminate Hin|]).
        destruct Hin. }
      destruct Hin as [E|Hin].
      * injection E as ->. simpl. right. right. left. reflexivity.
      * destruct raised; simpl in Hin;
          repeat (destruct Hin as [Hin|Hin]; [discriminate Hin|]);
          destruct Hin.
Qed.

(** * The threaded top, on the collaborators of the specification *)

Section Threaded.
Variable g : SpecCAD.Geometry.

#[local] Instance spec_collaborators : Collaborators :=
  SpecCAD.collaborators g.

Lemma spec_setattr_returns a c : (cad_method (setattr a) c).1 = None.
Proof. reflexivity. Qed.

Lemma recalculate_threaded c :
  py_in (cad_type_top c) (SpecCAD.g_threaded_tops g) = true ->
  settled g (cad_volume c) (cad_type_top c) (SpecCAD.recalculate g c).
Proof.
  intros Ht. unfold SpecCAD.recalculate. rewrite Ht.
  repeat split; reflexivity.
Qed.

Lemma settled_keeps vol top m c :
  py_in top (SpecCAD.g_threaded_tops g) = true ->
  keeps_top_and_volume m ->
  settled g vol top c ->
  settled g vol top (cad_method m c).2.
Proof.
  intros Ht Hm (Htop & Hvol & Hrc & Hr).
  assert (Hrec : forall c', cad_type_top c' = top -> cad_volume c' = vol ->
                   settled g vol top (SpecCAD.recalculate g c')).
  { intros c' <- <-. apply recalculate_threaded, Ht. }
  assert (Hsame : settled g vol top c) by (repeat split; assumption).
  destruct m as [a|name h a d ext|name h a d ext|name d l wl ty|]; simpl.
  - destruct a; simpl in Hm; try contradiction; apply Hrec; assumption.
  - destruct (SpecCAD.attach_error g _ c); simpl;
      repeat split; assumption.
  - destruct (SpecCAD.attach_error g _ c); simpl;
      repeat split; assumption.
  - destruct (py_in (cad_type_top c) (SpecCAD.g_custom_tops g));
      [|exact Hsame].
    destruct (SpecCAD.attach_error g _ c); simpl;
      repeat split; assumption.
  - destruct (SpecCAD.collision g c); exact Hsame.
Qed.

Lemma settled_replay vol top ms c :
  py_in top (SpecCAD.g_threaded_tops g) = true ->
  Forall keeps_top_and_volume ms ->
  settled g vol top c ->
  settled g vol top (replay ms c).
Proof.
  intros Ht Hms. revert c. induction Hms as [|m ms Hm _ IH]; intros c Hc;
    [exact Hc|].
  simpl. apply IH. apply settled_keeps; assumption.
Qed.

Lemma attach_calls_keep s : Forall keeps_top_and_volume (attach_calls s).
Proof.
  unfold attach_calls. rewrite !Forall_app. repeat split.
  - induction (dict_inputs s) as [|x l IH]; simpl; constructor;
      [exact I|exact IH].
  - induction (dict_outputs s) as [|x l IH]; simpl; [constructor|].
    unfold output_call at 1. destruct (decide (x.1 = "default"));
      [exact IH|]. constructor; [exact I|exact IH].
  - induction (dict_top_inlets s) as [|x l IH]; simpl; constructor;
      [exact I|exact IH].
  - repeat constructor.
Qed.

Lemma honest_returned o t c :
  (forall m, In m (calls_on o t) -> exists a, m = setattr a) ->
  Forall (attaching o) t ->
  honest o t c ->
  Forall returned t.
Proof.
  intros Hm Hatt. revert c Hm.
  induction Hatt as [|e t He _ IH]; intros c Hm Hh; [constructor|].
  destruct e; simpl in *; try (constructor; [exact I|eauto]).
  subst o0. destruct (decide (o = o)) as [_|N]; [|contradiction].
  destruct Hh as [-> Hh].
  destruct (Hm m (or_introl eq_refl)) as (a & ->).
  constructor; [exact I|].
  apply (IH _ (fun m' Hin => Hm m' (or_intror Hin)) Hh).
Qed.
(** C2. On the collaborators of the specification: an update commit
    whose form has a threaded top, and whose validation object was
    built, leaves the CAD object under edit with that top, a constrained
    radius and the radius the geometry derives from its volume and its
    top, whatever the radius field of the form held and whatever the
    module was (so for a module with a constrained radius and a top that
    was not threaded). The radius of the form is never assigned; the
    first assignment to the object is that of the radius constraint, the
    other attributes follow in the order of the source, then the I/O. *)
Theorem threaded_top_update :
  forall (w : World) (o : ref) (c : CadObj),
    test (self w) = false ->
    cad_obj (self w) = Some o ->
    heap w !! o = Some c ->
    build_raises (snapshot (form (self w))) = None ->
    py_in (combo_top (form (self w))) (SpecCAD.g_threaded_tops g) = true ->
    let p := snapshot (form (self w)) in
    exists t c',
      trace (buildModule w).2 = trace w ++ t /\
      heap (buildModule w).2 !! o = Some c' /\
      cad_type_top c' = combo_top (form (self w)) /\
      cad_r_constrained c' = true /\
      cad_r c' =
        SpecCAD.derived_radius g (spin_vol (form (self w)))
          (combo_top (form (self w))) /\
      (forall v, ~ In (setattr (Set_r v)) (calls_on o t)) /\
      exists attached,
        calls_on o t =
          setattr (Set_r_constrained false) ::
          map setattr (other_assignments p) ++ attached /\
        prefix attached (attach_calls (self w)).
Proof.
  intros w o c Ht Ho Hc Hb Hthr p.
  destruct (replays_buildModule o w c Hc) as (t & Htr & Hrep & Hhon).
  destruct (update_commit_events w o c Ht Ho Hc Hb)
    as (tv & ta & Hsil & Hatt & Hda & Hpre & Hcase).
  fold p in Hpre, Hcase.
  assert (Hrad : radius_assignment p = Set_r_constrained false).
  { unfold radius_assignment. change (p_type_top p)
      with (combo_top (form (self w))).
    change THREADED_TOPS with (SpecCAD.g_threaded_tops g).
    rewrite Hthr. rewrite andb_false_r. reflexivity. }
  rewrite Hrad in Hpre, Hcase.
  assert (Hon : o < List.length (heap w))
    by (apply (lookup_lt_Some _ _ c); exact Hc).
  destruct (silent_above_quiet _ _ Hsil) as (_ & _ & Hcv).
  specialize (Hcv o Hon).
  destruct Hcase as [(e0 & _ & Hnret & Htr')
                    |(Hret & Hcalls & tio & res & raised & Hout & Hattio
                      & Hres & Htr')].
  { (* no assignment raises *)
    assert (t = tv ++ ta) as ->.
    { rewrite Htr in Htr'. apply app_inv_head in Htr'. exact Htr'. }
    apply honest_app in Hhon. destruct Hhon as [_ Hhon].
    destruct Hnret.
    apply (honest_returned o ta (replay (calls_on o tv) c));
      [|exact Hatt|exact Hhon].
    intros m Hin. apply (prefix_In _ _ _ Hpre) in Hin.
    apply in_map_iff in Hin. destruct Hin as (a & <- & _).
    exists a. reflexivity. }
  assert (t = tv ++ ta ++ tio ++ update_ending res raised) as ->.
  { rewrite Htr in Htr'. apply app_inv_head in Htr'. exact Htr'. }
  destruct (update_ending_events res raised) as (Hce & _ & _ & _).
  pose proof (attach_outcome_prefix _ _ _ _ Hout) as Hpio.
  assert (Hall : calls_on o (tv ++ ta ++ tio ++ update_ending res raised) =
                 map setattr (Set_r_constrained false :: other_assignments p)
                   ++ calls_on o tio).
  { rewrite !calls_on_app, Hcv, Hcalls, Hce, app_nil_r. reflexivity. }
  rewrite Hall in Hrep.
  set (top := combo_top (form (self w))) in *.
  set (vol := spin_vol (form (self w))) in *.
  assert (Hset : settled g vol top
                   (replay (map setattr (Set_r_constrained false ::
                                         other_assignments p) ++
                            calls_on o tio) c)).
  { rewrite replay_app. apply settled_replay; [exact Hthr| |].
    - pose proof (attach_calls_keep (self w)) as Hk.
      rewrite Forall_forall in Hk. apply Forall_forall.
      intros m Hin. apply Hk. apply list_elem_of_In.
      apply list_elem_of_In in Hin. exact (prefix_In _ _ _ Hpio Hin).
    - change (map setattr (Set_r_constrained false :: other_assignments p))
        with ([setattr (Set_r_constrained false);
               setattr (Set_volume vol); setattr (Set_type_top top)] ++
              map setattr
                [Set_type_bottom (p_type_bottom p); Set_d_can (p_d_can p);
                 Set_h_filter (p_h_filter p); Set_d_filter (p_d_filter p);
                 Set_align_top_strategy (p_align_top_strategy p);
                 Set_align_filter_strategy (p_align_filter_strategy p)]).
      rewrite replay_app. apply settled_replay; [exact Hthr| |].
      + repeat constructor.
      + cbn [replay]. cbn [cad_method spec_collaborators
                            SpecCAD.collaborators SpecCAD.spec_method snd].
        match goal with
        | |- settled g vol top (SpecCAD.recalculate g ?x) =>
            assert (E1 : cad_type_top x = top) by reflexivity;
            assert (E2 : cad_volume x = vol)
        end.
        { cbn [SpecCAD.store cad_volume].
          unfold SpecCAD.recalculate.
          repeat match goal with
                 | |- context [if ?b then _ else _] => destruct b
                 end; reflexivity. }
        rewrite <- E1 at 1. rewrite <- E2 at 1.
        apply recalculate_threaded. rewrite E1. exact Hthr. }
  destruct Hset as (Htop & _ & Hrc & Hr).
  eexists _, _. split; [exact Htr|]. split; [exact Hrep|].
  split; [exact Htop|]. split; [exact Hrc|]. split; [exact Hr|].
  rewrite Hall. split.
  - intros v Hin. apply in_app_or in Hin. destruct Hin as [Hin|Hin].
    + simpl in Hin.
      repeat (destruct Hin as [Hin|Hin]; [discriminate Hin|]).
      exact Hin.
    + apply (prefix_In _ _ _ Hpio) in Hin.
      pose proof (attach_calls_keep (self w)) as Hk.
      unfold attach_calls in Hin.
      repeat (apply in_app_or in Hin; destruct Hin as [Hin|Hin]).
      * destruct (input_calls_side (self w) _ Hin) as [_ _].
        induction (dict_inputs (self w)) as [|x l IH]; simpl in Hin;
          [exact Hin|].
        destruct Hin as [E|Hin]; [discriminate E|exact (IH Hin)].
      * induction (dict_outputs (self w)) as [|x l IH]; simpl in Hin;
          [exact Hin|].
        unfold output_call at 1 in Hin.
        destruct (decide (x.1 = "default")); [exact (IH Hin)|].
        destruct Hin as [E|Hin]; [discriminate E|exact (IH Hin)].
      * apply in_map_iff in Hin. destruct Hin as (x & E & _).
        discriminate E.
      * destruct Hin as [E|[]]. discriminate E.
  - exists (calls_on o tio). split; [reflexivity|exact Hpio].
Qed.
End Threaded.

(** * The theorems at work on the sample worlds *)

Lemma failed_validation_leaves_live_object_witness :
  heap (@buildModule Sample.C Sample.too_large).2 !! 0 = Some Sample.live /\
  dialogs (trace (@buildModule Sample.C Sample.too_large).2) =
    dialogs (trace Sample.too_large) ++
      [("Update error", "Impossible to update reactor: filter too large")].
Proof.
  destruct (failed_validation_leaves_live_object Sample.C Sample.too_large 0
              Sample.live (Exn OtherException "filter too large"))
    as (_ & _ & Hh & _ & _ & Hd & _); try reflexivity.
  split; [exact Hh|exact Hd].
Defined.

Lemma threaded_top_update_witness :
  exists c',
    heap (@buildModule Sample.C Sample.now_threaded).2 !! 0 = Some c' /\
    cad_type_top c' = "GL45" /\
    cad_r_constrained c' = true /\
    cad_r c' = 20%Q.
Proof.
  destruct (threaded_top_update SpecCAD.sample Sample.now_threaded 0
              Sample.live)
    as (t & c' & _ & Hh & Htop & Hrc & Hr & _); try reflexivity.
  exists c'. repeat split; assumption.
Defined.

Lemma update_commit_is_not_rolled_back_witness :
  exists t,
    trace (@buildModule Sample.C Sample.too_wide).2 =
      trace Sample.too_wide ++ t /\
    heap (@buildModule Sample.C Sample.too_wide).2 !! 0 =
      Some (@replay Sample.C (calls_on 0 t) Sample.live).
Proof.
  destruct (update_commit_is_not_rolled_back Sample.C Sample.too_wide 0
              Sample.live)
    as (t & Ht & Hh & _); try reflexivity.
  exists t. split; assumption.
Defined.

(** The same commit, computed: the volume of the form is on the object,
    the input that was too wide is not, and "I/Os error" was shown. *)
Lemma update_with_failing_input :
  let r := @buildModule Sample.C Sample.too_wide in
  cad_volume <$> heap r.2 !! 0 = Some 30%Q /\
  dict_keys <$> (cad_inputs <$> heap r.2 !! 0) = Some ["in1"] /\
  dict_keys (dict_inputs (self r.2)) = ["in1"; "wide"] /\
  dialogs (trace r.2) =
    [("I/Os error", "Impossible to create I/Os: I/O too wide")].
Proof. vm_compute. repeat split. Qed.

Lemma top_inlet_failures_are_contained_witness :
  (@build_ios Sample.C 0 Sample.crowded).1 = inr tt /\
  exists t,
    trace (@build_ios Sample.C 0 Sample.crowded).2 =
      trace Sample.crowded ++ t /\
    dialogs t = [("Auto-placement error", auto_place_mes)] /\
    calls_on 0 t = attach_calls (self Sample.crowded).
Proof.
  destruct (top_inlet_failures_are_contained Sample.C Sample.crowded 0
              Sample.live eq_refl)
    as (t & Ht & _ & _ & _ & Hcol).
  assert (Et : t = drop (List.length (trace Sample.crowded))
                     (trace (@build_ios Sample.C 0 Sample.crowded).2)).
  { rewrite Ht, drop_app_length. reflexivity. }
  destruct (Hcol (Exn ConstraintError "top inlets collide"))
    as (Hr & Hd & Hc).
  - rewrite Et. vm_compute. do 7 right. left. reflexivity.
  - reflexivity.
  - split; [exact Hr|]. exists t. repeat split; assumption.
Defined.

(** * Running a method step by step *)

Lemma bind_returns {A B} (c : M A) (k : A -> M B) w a w1 r :
  c w = (inr a, w1) -> k a w1 = r -> bind c k w = r.
Proof. intros Hc Hk. unfold bind. rewrite Hc. exact Hk. Qed.

Lemma bind_raises {A B} (c : M A) (k : A -> M B) w e w1 :
  c w = (inl e, w1) -> bind c k w = (inl e, w1).
Proof. intros Hc. unfold bind. rewrite Hc. reflexivity. Qed.

(** The next statement returns, by [tac] or by computation. *)
Ltac returns_by tac :=
  eapply bind_returns; [first [tac | reflexivity]|cbv beta].

Ltac returns := returns_by fail.

(** The updates of the world and of the dialog, computed innermost
    first. *)
Ltac world_cbv :=
  cbv beta iota delta
    [with_trace with_heap with_self with_table_io with_dict_inputs
     with_dict_outputs with_dict_top_inlets with_form with_enabled
     with_params self heap trace test cad_obj form enabled table_io
     dict_inputs dict_outputs dict_top_inlets params fst snd].

(** * The slots of the combo boxes and of the check box *)

Section Widgets.
Context {C : Collaborators}.

(** The slot of the top, when the box is not ticked and the radius cannot
    be edited, as in a dialog that was just made. *)
Lemma combo_top_setCurrent_fresh text w :
  py_in text TOPS = true ->
  check_r_constrained (form (self w)) = false ->
  spin_r_enabled (enabled (self w)) = false ->
  check_r_constrained_enabled (enabled (self w)) = true ->
  combo_top_setCurrent text w =
    (inr tt,
     with_self
       (fun s =>
          with_enabled
            (fun e =>
               set_check_r_constrained_enabled
                 (if decide (combo_top (form s) = text) then true
                  else negb (py_in text THREADED_TOPS)) e)
            (with_form
               (fun f =>
                  set_check_r_constrained
                    (if decide (combo_top (form s) = text) then false
                     else py_in text THREADED_TOPS)
                    (set_combo_top text f)) s)) w).
Proof.
  intros Hin Hck Hr Hce.
  destruct w as [[tst co [sv ct cb shf sdf sdc sr ck cat caf] [sre cre sde]
                     tbl di do dt pr] hp tr].
  cbn in Hck, Hr, Hce. subst.
  unfold combo_top_setCurrent. rewrite Hin.
  unfold topTypeChanged, check_r_constrained_setCheckState,
    rConstraintChanged, spin_r_setEnabled, check_r_constrained_setEnabled,
    the_self, read, update, bind, ret, with_self, with_enabled, with_form.
  cbn. destruct (decide (ct = text)) as [->|N]; [reflexivity|].
  cbn. destruct (py_in text THREADED_TOPS); reflexivity.
Qed.

Lemma combo_bottom_setCurrent_eq text w :
  py_in text list_bottoms = true ->
  combo_bottom_setCurrent text w =
    (inr tt,
     with_self
       (fun s =>
          with_enabled
            (fun e =>
               set_spin_d_can_enabled
                 (if decide (combo_bottom (form s) = text)
                  then spin_d_can_enabled e
                  else py_in text BOTTOMS_PIPE) e)
            (with_form (set_combo_bottom text) s)) w).
Proof.
  intros Hin.
  destruct w as [[tst co [sv ct cb shf sdf sdc sr ck cat caf] [sre cre sde]
                     tbl di do dt pr] hp tr].
  unfold combo_bottom_setCurrent. rewrite Hin.
  unfold bottomTypeChanged, spin_d_can_setEnabled,
    the_self, read, update, bind, ret, with_self, with_enabled, with_form.
  cbn. destruct (decide (cb = text)) as [->|N]; [reflexivity|].
  cbn. destruct (py_in text BOTTOMS_PIPE); reflexivity.
Qed.

(** The statements of [restoreParams] that restore the check box. *)
Lemma restore_check_box (r_constrained threaded : bool) w :
  (if r_constrained then
     check_r_constrained_setCheckState true ;;
     if threaded then
       spin_r_setEnabled false ;;
       check_r_constrained_setEnabled false
     else check_r_constrained_setEnabled true
   else
     check_r_constrained_setCheckState false ;;
     spin_r_setEnabled false) w =
    (inr tt,
     with_self
       (fun s =>
          with_enabled
            (fun e =>
               {| spin_r_enabled :=
                    if r_constrained then
                      if threaded then false
                      else if check_r_constrained (form s)
                           then spin_r_enabled e else true
                    else false;
                  check_r_constrained_enabled :=
                    if r_constrained then negb threaded
                    else check_r_constrained_enabled e;
                  spin_d_can_enabled := spin_d_can_enabled e |})
            (with_form (set_check_r_constrained r_constrained) s)) w).
Proof.
  destruct w as [[tst co [sv ct cb shf sdf sdc sr ck cat caf] [sre cre sde]
                     tbl di do dt pr] hp tr].
  unfold check_r_constrained_setCheckState,
    rConstraintChanged, spin_r_setEnabled, check_r_constrained_setEnabled,
    the_self, read, update, bind, ret.
  destruct r_constrained, threaded, ck; reflexivity.
Qed.

(** The statements of [restoreParams] that restore the two strategies:
    [setCurrentText] leaves the combo box as it is on a text it does not
    offer. *)
Lemma restore_align_top c w :
  (if decide (cad_align_top_strategy c = "expand") then
     if py_in "Expand body" ALIGN_TOP_STRATEGIES then
       update (with_self (with_form
         (set_combo_align_top_strategy "Expand body")))
     else ret tt
   else if decide (cad_align_top_strategy c = "lift") then
     if py_in "Lift reactor" ALIGN_TOP_STRATEGIES then
       update (with_self (with_form
         (set_combo_align_top_strategy "Lift reactor")))
     else ret tt
   else ret tt) w =
    (inr tt,
     with_self
       (with_form
          (fun f =>
             set_combo_align_top_strategy
               (if decide (cad_align_top_strategy c = "expand") then
                  if py_in "Expand body" ALIGN_TOP_STRATEGIES
                  then "Expand body" else combo_align_top_strategy f
                else if decide (cad_align_top_strategy c = "lift") then
                  if py_in "Lift reactor" ALIGN_TOP_STRATEGIES
                  then "Lift reactor" else combo_align_top_strategy f
                else combo_align_top_strategy f) f)) w).
Proof.
  destruct w as [[tst co [sv ct cb shf sdf sdc sr ck cat caf] [sre cre sde]
                     tbl di do dt pr] hp tr].
  unfold update, ret, with_self, with_form. cbn.
  repeat first [case_decide | destruct (py_in _ _)]; reflexivity.
Qed.

Lemma restore_align_filter c w :
  (if decide (cad_align_filter_strategy c = "adapt") then
     if py_in "Adapt" ALIGN_FILTER_STRATEGIES then
       update (with_self (with_form
         (set_combo_align_filter_strategy "Adapt")))
     else ret tt
   else if decide (cad_align_filter_strategy c = "lift") then
     if py_in "Lift reactor" ALIGN_FILTER_STRATEGIES then
       update (with_self (with_form
         (set_combo_align_filter_strategy "Lift reactor")))
     else ret tt
   else ret tt) w =
    (inr tt,
     with_self
       (with_form
          (fun f =>
             set_combo_align_filter_strategy
               (if decide (cad_align_filter_strategy c = "adapt") then
                  if py_in "Adapt" ALIGN_FILTER_STRATEGIES
                  then "Adapt" else combo_align_filter_strategy f
                else if decide (cad_align_filter_strategy c = "lift") then
                  if py_in "Lift reactor" ALIGN_FILTER_STRATEGIES
                  then "Lift reactor" else combo_align_filter_strategy f
                else combo_align_filter_strategy f) f)) w).
Proof.
  destruct w as [[tst co [sv ct cb shf sdf sdc sr ck cat caf] [sre cre sde]
                     tbl di do dt pr] hp tr].
  unfold update, ret, with_self, with_form. cbn.
  repeat first [case_decide | destruct (py_in _ _)]; reflexivity.
Qed.

(** [restoreParams] on a dialog that [initUI] just made, up to
    [restoreIO]: every statement returns, none writes to the log. *)
Lemma restoreParams_widgets p o c objects t :
  objects !! o = Some c ->
  py_in (cad_type_top c) TOPS = true ->
  py_in (cad_type_bottom c) list_bottoms = true ->
  restoreParams
    {| self := new_dialog p (Some o); heap := objects; trace := t |} =
  (restoreIO c ;; l_debug "Filter reactor, restored reactor")
    {| self := opened_widgets p o c; heap := objects; trace := t |}.
Proof.
  intros Hc Ht Hb. unfold restoreParams.
  returns. cbn [self new_dialog cad_obj].
  returns. cbn [heap]. rewrite Hc.
  returns. returns.
  returns_by ltac:(apply combo_top_setCurrent_fresh;
                   [exact Ht|reflexivity..]).
  returns_by ltac:(apply combo_bottom_setCurrent_eq; exact Hb).
  returns.
  returns_by ltac:(apply restore_check_box).
  returns_by ltac:(apply restore_align_top).
  returns_by ltac:(apply restore_align_filter).
  f_equal.
  cbv beta iota delta
    [opened_widgets opened_form opened_enabled opened_params
     restored_align_top restored_align_filter new_dialog initUI_form
     initUI_enabled with_self with_enabled with_form with_params
     set_check_r_constrained_enabled set_check_r_constrained set_combo_top
     set_spin_d_can_enabled set_combo_bottom set_spins
     set_combo_align_top_strategy set_combo_align_filter_strategy
     self heap trace test cad_obj form enabled table_io dict_inputs
     dict_outputs dict_top_inlets params
     spin_vol combo_top combo_bottom spin_h_filter spin_d_filter spin_d_can
     spin_r check_r_constrained combo_align_top_strategy
     combo_align_filter_strategy spin_r_enabled check_r_constrained_enabled
     spin_d_can_enabled p_volume p_type_top p_type_bottom p_h_filter
     p_d_filter p_d_can p_r p_r_constrained p_align_top_strategy
     p_align_filter_strategy].
  destruct (cad_r_constrained c); [|reflexivity].
  destruct (py_in (cad_type_top c) THREADED_TOPS); [reflexivity|].
  destruct (decide (hd "" TOPS = cad_type_top c)); reflexivity.
Qed.
End Widgets.

(** * Restoring the I/O of the CAD object *)

Lemma dict_get_absent {V} k (d : pydict V) :
  ~ In k (dict_keys d) -> dict_get k d = None.
Proof.
  induction d as [|[k' v] d IH]; simpl; intros Hn; [reflexivity|].
  destruct (decide (k' = k)) as [->|N]; [destruct Hn; left; reflexivity|].
  apply IH. intros Hin. apply Hn. right. exact Hin.
Qed.

Lemma NoDup_app_cons_fresh (l1 : list string) k l2 :
  NoDup (l1 ++ k :: l2) -> ~ In k l1 /\ NoDup ((l1 ++ [k]) ++ l2).
Proof.
  intros H. split.
  - apply NoDup_app in H. destruct H as (_ & Hd & _).
    intros Hin. apply (Hd k); [apply list_elem_of_In, Hin|left].
  - rewrite <- app_assoc. exact H.
Qed.

Lemma dict_keys_app {V} (d1 d2 : pydict V) :
  dict_keys (d1 ++ d2) = dict_keys d1 ++ dict_keys d2.
Proof. apply map_app. Qed.

Lemma dict_keys_restored {A B} (f : A -> B) (d : pydict A) :
  dict_keys (restored f d) = dict_keys d.
Proof.
  unfold dict_keys, restored. rewrite map_map. reflexivity.
Qed.

Section RestoreIO.
Context {C : Collaborators}.

Lemma restore_inputs_loop c l w :
  NoDup (dict_keys (dict_inputs (self w)) ++ dict_keys l) ->
  exists t,
    for_each l (fun item =>
      let name := item.1 in
      let in_io := item.2 in
      let connected := io_connected in_io in
      let params :=
        {| sio_type_io := None;
           sio_height_per := getHeightPercentage c in_io;
           sio_angle := io_angle in_io;
           sio_diameter := io_diameter in_io;
           sio_external := io_external in_io;
           sio_connected := Some connected |} in
      l_debug "Filter reactor, restoring I/O" ;;
      update (with_self (with_dict_inputs (dict_set name params))) ;;
      _addNewRow name SIDE_INPUT connected) w =
      (inr tt,
       with_trace (fun tr => tr ++ t)
         (with_self
            (fun s =>
               with_table_io (fun tb => tb ++ map input_row l)
                 (with_dict_inputs
                    (fun d => d ++ restored (restored_side c) l) s)) w)) /\
    Forall is_log t.
Proof.
  revert w. induction l as [|[name io] l IH]; intros w Hnd.
  - exists []. split; [|constructor].
    destruct w as [[tst co fm en tbl di do dt pr] hp tr].
    unfold for_each, ret, with_trace, with_self, with_table_io,
      with_dict_inputs, restored. cbn [map self heap trace table_io
      dict_inputs dict_outputs dict_top_inlets test cad_obj form enabled
      params]. rewrite !app_nil_r. reflexivity.
  - cbn [dict_keys map fst] in Hnd.
    apply NoDup_app_cons_fresh in Hnd. destruct Hnd as [Hfresh Hnd].
    apply dict_get_absent in Hfresh.
    cbn [for_each].
    set (body := fun item : string * InputOutput => _).
    set (w1 := (body (name, io) w).2).
    assert (E1 : body (name, io) w = (inr tt, w1)) by reflexivity.
    assert (Hd1 : dict_inputs (self w1) =
                  dict_inputs (self w) ++ [(name, restored_side c io)]).
    { change (dict_inputs (self w1))
        with (dict_set name (restored_side c io) (dict_inputs (self w))).
      apply dict_set_fresh, Hfresh. }
    destruct (IH w1) as (t & Et & Hlog).
    { rewrite Hd1, dict_keys_app. exact Hnd. }
    exists (Log DEBUG "Filter reactor, restoring I/O" ::
            Log DEBUG ("Adding new row " +:+ name +:+ ", " +:+ SIDE_INPUT)
            :: t).
    split; [|repeat constructor; exact Hlog].
    eapply bind_returns; [exact E1|].
    etransitivity; [exact Et|]. f_equal.
    destruct w as [[tst co fm en tbl di do dt pr] hp tr].
    cbn [self dict_inputs] in Hfresh.
    subst w1 body.
    cbv beta iota zeta delta
      [_addNewRow l_debug emit update bind ret restored with_trace
       with_heap with_self with_table_io with_dict_inputs
       with_dict_outputs with_dict_top_inlets self heap trace test cad_obj
       form enabled table_io dict_inputs dict_outputs dict_top_inlets
       params fst snd].
    cbn [map fst snd].
    rewrite (dict_set_fresh _ _ _ Hfresh), <- !app_assoc.
    reflexivity.
Qed.

Lemma restore_outputs_loop c l w :
  NoDup (dict_keys (dict_outputs (self w)) ++ dict_keys l) ->
  exists t,
    for_each l (fun item =>
      let name := item.1 in
      let out_io := item.2 in
      let connected := io_connected out_io in
      let params :=
        {| sio_type_io := None;
           sio_height_per := getHeightPercentage c out_io;
           sio_angle := io_angle out_io;
           sio_diameter := io_diameter out_io;
           sio_external := io_external out_io;
           sio_connected := Some connected |} in
      l_debug "Filter reactor, restoring I/O" ;;
      update (with_self (with_dict_outputs (dict_set name params))) ;;
      if decide (name = "default") then _addNewRow name DEF_OUTPUT connected
      else _addNewRow name SIDE_OUTPUT connected) w =
      (inr tt,
       with_trace (fun tr => tr ++ t)
         (with_self
            (fun s =>
               with_table_io (fun tb => tb ++ map output_row l)
                 (with_dict_outputs
                    (fun d => d ++ restored (restored_side c) l) s)) w)) /\
    Forall is_log t.
Proof.
  revert w. induction l as [|[name io] l IH]; intros w Hnd.
  - exists []. split; [|constructor].
    destruct w as [[tst co fm en tbl di do dt pr] hp tr].
    unfold for_each, ret, with_trace, with_self, with_table_io,
      with_dict_outputs, restored. cbn [map self heap trace table_io
      dict_inputs dict_outputs dict_top_inlets test cad_obj form enabled
      params]. rewrite !app_nil_r. reflexivity.
  - cbn [dict_keys map fst] in Hnd.
    apply NoDup_app_cons_fresh in Hnd. destruct Hnd as [Hfresh Hnd].
    apply dict_get_absent in Hfresh.
    cbn [for_each].
    set (body := fun item : string * InputOutput => _).
    set (w1 := (body (name, io) w).2).
    assert (E1 : body (name, io) w = (inr tt, w1)).
    { unfold w1, body. cbn [fst snd]. unfold bind, l_debug, emit, update.
      cbn [fst snd]. destruct (decide (name = "default")); reflexivity. }
    assert (Hd1 : dict_outputs (self w1) =
                  dict_outputs (self w) ++ [(name, restored_side c io)]).
    { transitivity
        (dict_set name (restored_side c io) (dict_outputs (self w)));
        [|apply dict_set_fresh, Hfresh].
      unfold w1, body. cbn [fst snd]. unfold bind, l_debug, emit, update.
      cbn [fst snd]. destruct (decide (name = "default")); reflexivity. }
    destruct (IH w1) as (t & Et & Hlog).
    { rewrite Hd1, dict_keys_app. exact Hnd. }
    exists (Log DEBUG "Filter reactor, restoring I/O" ::
            Log DEBUG ("Adding new row " +:+ name +:+ ", " +:+
                       (if decide (name = "default") then DEF_OUTPUT
                        else SIDE_OUTPUT))
            :: t).
    split; [|repeat constructor; exact Hlog].
    eapply bind_returns; [exact E1|].
    etransitivity; [exact Et|]. f_equal.
    destruct w as [[tst co fm en tbl di do dt pr] hp tr].
    cbn [self dict_outputs] in Hfresh.
    unfold w1, body, output_row, _addNewRow, l_debug, emit, update, bind,
      ret, with_trace, with_self, with_table_io, with_dict_outputs, restored.
    cbn [map fst snd self heap trace table_io
      dict_inputs dict_outputs dict_top_inlets test cad_obj form enabled
      params].
    destruct (decide (name = "default"));
      cbn [map fst snd self heap trace table_io
        dict_inputs dict_outputs dict_top_inlets test cad_obj form enabled
        params];
      rewrite (dict_set_fresh _ _ _ Hfresh), <- !app_assoc;
      reflexivity.
Qed.

Lemma restore_top_inlets_loop l w :
  NoDup (dict_keys (dict_top_inlets (self w)) ++ dict_keys l) ->
  exists t,
    for_each l (fun item =>
      let name := item.1 in
      let top_io := item.2 in
      let type_io := ti_type_io top_io in
      let connected := false in
      let params :=
        {| tio_diameter := ti_diameter top_io;
           tio_length := ti_length top_io;
           tio_walls := ti_walls top_io;
           tio_type_io := type_io;
           tio_connected := Some connected |} in
      l_debug "Filter reactor, restoring I/O" ;;
      update (with_self (with_dict_top_inlets (dict_set name params))) ;;
      _addNewRow name type_io connected) w =
      (inr tt,
       with_trace (fun tr => tr ++ t)
         (with_self
            (fun s =>
               with_table_io (fun tb => tb ++ map top_inlet_row l)
                 (with_dict_top_inlets
                    (fun d => d ++ restored restored_top l) s)) w)) /\
    Forall is_log t.
Proof.
  revert w. induction l as [|[name io] l IH]; intros w Hnd.
  - exists []. split; [|constructor].
    destruct w as [[tst co fm en tbl di do dt pr] hp tr].
    unfold for_each, ret, with_trace, with_self, with_table_io,
      with_dict_top_inlets, restored. cbn [map self heap trace table_io
      dict_inputs dict_outputs dict_top_inlets test cad_obj form enabled
      params]. rewrite !app_nil_r. reflexivity.
  - cbn [dict_keys map fst] in Hnd.
    apply NoDup_app_cons_fresh in Hnd. destruct Hnd as [Hfresh Hnd].
    apply dict_get_absent in Hfresh.
    cbn [for_each].
    set (body := fun item : string * TopInlet => _).
    set (w1 := (body (name, io) w).2).
    assert (E1 : body (name, io) w = (inr tt, w1)) by reflexivity.
    assert (Hd1 : dict_top_inlets (self w1) =
                  dict_top_inlets (self w) ++ [(name, restored_top io)]).
    { change (dict_top_inlets (self w1))
        with (dict_set name (restored_top io) (dict_top_inlets (self w))).
      apply dict_set_fresh, Hfresh. }
    destruct (IH w1) as (t & Et & Hlog).
    { rewrite Hd1, dict_keys_app. exact Hnd. }
    exists (Log DEBUG "Filter reactor, restoring I/O" ::
            Log DEBUG ("Adding new row " +:+ name +:+ ", " +:+
                       ti_type_io io)
            :: t).
    split; [|repeat constructor; exact Hlog].
    eapply bind_returns; [exact E1|].
    etransitivity; [exact Et|]. f_equal.
    destruct w as [[tst co fm en tbl di do dt pr] hp tr].
    cbn [self dict_top_inlets] in Hfresh.
    subst w1 body.
    cbv beta iota zeta delta
      [_addNewRow l_debug emit update bind ret restored with_trace
       with_heap with_self with_table_io with_dict_inputs
       with_dict_outputs with_dict_top_inlets self heap trace test cad_obj
       form enabled table_io dict_inputs dict_outputs dict_top_inlets
       params fst snd].
    cbn [map fst snd].
    rewrite (dict_set_fresh _ _ _ Hfresh), <- !app_assoc.
    reflexivity.
Qed.

(** [restoreIO] on a dialog whose registry holds none of the names of the
    object: it returns, appends to each dict the I/O of its kind and to
    the table their rows, and writes to the log only. *)
Lemma restoreIO_returns c w :
  NoDup (dict_keys (dict_inputs (self w)) ++ dict_keys (cad_inputs c)) ->
  NoDup (dict_keys (dict_outputs (self w)) ++ dict_keys (cad_outputs c)) ->
  NoDup (dict_keys (dict_top_inlets (self w)) ++
         dict_keys (cad_top_inlets c)) ->
  exists t,
    restoreIO c w =
      (inr tt,
       with_trace (fun tr => tr ++ t)
         (with_self
            (fun s =>
               with_table_io
                 (fun tb =>
                    tb ++ map input_row (cad_inputs c) ++
                    map output_row (cad_outputs c) ++
                    map top_inlet_row (cad_top_inlets c))
                 (with_dict_top_inlets
                    (fun d => d ++ restored restored_top (cad_top_inlets c))
                    (with_dict_outputs
                       (fun d =>
                          d ++ restored (restored_side c) (cad_outputs c))
                       (with_dict_inputs
                          (fun d =>
                             d ++ restored (restored_side c) (cad_inputs c))
                          s)))) w)) /\
    Forall is_log t.
Proof.
  intros Hi Ho Ht.
  destruct (restore_inputs_loop c (cad_inputs c) w Hi) as (t1 & E1 & L1).
  match type of E1 with _ = (_, ?w') => set (w1 := w') in * end.
  destruct (restore_outputs_loop c (cad_outputs c) w1 Ho) as (t2 & E2 & L2).
  match type of E2 with _ = (_, ?w') => set (w2 := w') in * end.
  destruct (restore_top_inlets_loop (cad_top_inlets c) w2 Ht)
    as (t3 & E3 & L3).
  exists (t1 ++ t2 ++ t3 ++ [Log DEBUG "Filter reactor, restored I/O"]).
  split.
  - unfold restoreIO.
    eapply bind_returns; [exact E1|]. cbv beta.
    eapply bind_returns; [exact E2|]. cbv beta.
    eapply bind_returns; [exact E3|]. cbv beta.
    unfold l_debug, emit, update. f_equal.
    subst w2 w1. clear.
    destruct w as [[tst co fm en tbl di do dt pr] hp tr].
    world_cbv.
    rewrite <- !app_assoc. reflexivity.
  - repeat (apply Forall_app; split); try assumption.
    repeat constructor.
Qed.
End RestoreIO.

(** * The dialog opened on a CAD object *)

Section Opening.
Context {C : Collaborators}.

(** [ChemModule(parent, cad_obj)] on an object whose top and bottom are
    among those the combo boxes offer: the constructor returns, the
    dialog is [opened], no object changed and nothing but the log was
    written. *)
Lemma __init___opened p o c objects :
  objects !! o = Some c ->
  py_in (cad_type_top c) TOPS = true ->
  py_in (cad_type_bottom c) list_bottoms = true ->
  NoDup (dict_keys (cad_inputs c)) ->
  NoDup (dict_keys (cad_outputs c)) ->
  NoDup (dict_keys (cad_top_inlets c)) ->
  exists t,
    __init__ p (Some o) objects =
      (inr tt, {| self := opened p o c; heap := objects; trace := t |}) /\
    Forall is_log t.
Proof.
  intros Hc Ht Hb Hi Ho Hti. unfold __init__.
  set (t0 := [Log DEBUG "Module path"] ++
             if py_in B_ROUND BOTTOMS then []
             else [Log DEBUG "Round bottom already removed"]).
  destruct (restoreIO_returns c
              {| self := opened_widgets p o c; heap := objects;
                 trace := t0 |} Hi Ho Hti) as (t1 & E1 & L1).
  exists (t0 ++ t1 ++ [Log DEBUG "Filter reactor, restored reactor"]).
  split.
  - returns.
    eapply (bind_returns _ _ _ tt
              {| self := new_dialog p (Some o); heap := objects;
                 trace := t0 |}).
    { unfold t0. destruct (py_in B_ROUND BOTTOMS); reflexivity. }
    rewrite (restoreParams_widgets p o c objects t0 Hc Ht Hb).
    eapply bind_returns; [exact E1|]. cbv beta.
    unfold l_debug, emit, update. f_equal.
    unfold opened_widgets, opened. world_cbv.
    rewrite <- !app_assoc. reflexivity.
  - unfold t0. repeat (apply Forall_app; split); try assumption.
    + repeat constructor.
    + destruct (py_in B_ROUND BOTTOMS); repeat constructor.
    + repeat constructor.
Qed.
End Opening.

(** * Methods that cannot raise *)

Lemma always_returns_bind (c : M unit) (k : unit -> M unit) :
  always_returns c -> always_returns (k tt) -> always_returns (bind c k).
Proof.
  intros Hc Hk w. unfold bind. specialize (Hc w).
  destruct (c w) as [[e|[]] w1]; [discriminate|]. apply Hk.
Qed.

Lemma always_returns_for_each {A} (l : list A) (body : A -> M unit) :
  (forall x, always_returns (body x)) -> always_returns (for_each l body).
Proof.
  intros Hb. induction l as [|x l IH]; [intros w; reflexivity|].
  apply always_returns_bind; [apply Hb|exact IH].
Qed.

Lemma always_returns_update f : always_returns (update f).
Proof. intros w. reflexivity. Qed.

Lemma always_returns__addNewRow name type_io connected :
  always_returns (_addNewRow name type_io connected).
Proof. intros w. reflexivity. Qed.

#[global] Instance same_widgets_preorder : PreOrder same_widgets.
Proof.
  split.
  - intros w. repeat split; reflexivity.
  - intros w1 w2 w3 (H1 & H2 & H3 & H4) (H5 & H6 & H7 & H8).
    repeat split; congruence.
Qed.

Section RestoreIOFrame.
Context {C : Collaborators}.

Lemma restoreIO_always_returns c : always_returns (restoreIO c).
Proof.
  unfold restoreIO.
  repeat first
    [ apply always_returns_bind
    | apply always_returns_for_each; intros [name io]; cbv zeta
    | apply always_returns_update
    | apply always_returns__addNewRow
    | match goal with
      | |- always_returns (if ?b then _ else _) => destruct b
      end
    | intros w; reflexivity ].
Qed.

Lemma restoreIO_same_widgets c : preserves same_widgets (restoreIO c).
Proof.
  assert (He : forall e, preserves same_widgets (emit e))
    by (intros e w; repeat split; reflexivity).
  assert (Ht : forall f,
            preserves same_widgets (update (with_self (with_table_io f))))
    by (intros f w; repeat split; reflexivity).
  assert (Hi : forall f,
            preserves same_widgets (update (with_self (with_dict_inputs f))))
    by (intros f w; repeat split; reflexivity).
  assert (Ho : forall f,
            preserves same_widgets (update (with_self (with_dict_outputs f))))
    by (intros f w; repeat split; reflexivity).
  assert (Hti : forall f,
            preserves same_widgets
              (update (with_self (with_dict_top_inlets f))))
    by (intros f w; repeat split; reflexivity).
  unfold restoreIO, _addNewRow, l_debug.
  repeat first [ apply He | apply Ht | apply Hi | apply Ho | apply Hti
               | preserves_step ].
Qed.

(** The widgets of a dialog opened on a CAD object whose top and bottom
    the combo boxes offer, whatever its I/O. *)
Lemma __init___widgets p o c objects :
  objects !! o = Some c ->
  py_in (cad_type_top c) TOPS = true ->
  py_in (cad_type_bottom c) list_bottoms = true ->
  (__init__ p (Some o) objects).1 = inr tt /\
  form (self (__init__ p (Some o) objects).2) = opened_form c /\
  enabled (self (__init__ p (Some o) objects).2) = opened_enabled c /\
  params (self (__init__ p (Some o) objects).2) = opened_params c /\
  heap (__init__ p (Some o) objects).2 = objects.
Proof.
  intros Hc Ht Hb.
  set (t0 := [Log DEBUG "Module path"] ++
             if py_in B_ROUND BOTTOMS then []
             else [Log DEBUG "Round bottom already removed"]).
  set (w1 := {| self := opened_widgets p o c; heap := objects;
                trace := t0 |}).
  assert (E : __init__ p (Some o) objects =
              (restoreIO c ;; l_debug "Filter reactor, restored reactor")
                w1).
  { unfold __init__. returns.
    eapply (bind_returns _ _ _ tt
              {| self := new_dialog p (Some o); heap := objects;
                 trace := t0 |}).
    { unfold t0. destruct (py_in B_ROUND BOTTOMS); reflexivity. }
    apply (restoreParams_widgets p o c objects t0 Hc Ht Hb). }
  rewrite E. clear E.
  pose proof (restoreIO_always_returns c w1) as Hr.
  pose proof (restoreIO_same_widgets c w1) as (Hf & He & Hp & Hh).
  unfold bind. destruct (restoreIO c w1) as [[e|[]] w2]; [discriminate|].
  cbn [fst snd] in *. unfold l_debug, emit, update. cbn [fst snd].
  split; [reflexivity|].
  change (self (with_trace _ w2)) with (self w2).
  change (heap (with_trace _ w2)) with (heap w2).
  rewrite Hf, He, Hp, Hh. repeat split; reflexivity.
Qed.
End RestoreIOFrame.

(** X3. A dialog opened on a CAD object shows the constraint of its
    radius: the box is ticked exactly when the radius of the object is
    constrained, and the radius can be edited exactly when it is
    constrained and the top is not threaded. The box of a constrained
    object can be changed exactly when the top is not threaded; that of
    an unconstrained object also when its top is the one the combo box
    showed first, whose slot never ran. *)
Theorem opening_sets_radius_widgets :
  forall (C : Collaborators) (parent_is_None : bool) (o : ref)
         (objects : list CadObj) (c : CadObj),
    objects !! o = Some c ->
    py_in (cad_type_top c) TOPS = true ->
    py_in (cad_type_bottom c) list_bottoms = true ->
    let s := self (__init__ parent_is_None (Some o) objects).2 in
    let threaded := py_in (cad_type_top c) THREADED_TOPS in
    check_r_constrained (form s) = cad_r_constrained c /\
    spin_r_enabled (enabled s) = cad_r_constrained c && negb threaded /\
    (cad_r_constrained c = true ->
     check_r_constrained_enabled (enabled s) = negb threaded) /\
    (cad_r_constrained c = false ->
     check_r_constrained_enabled (enabled s) =
       bool_decide (hd "" TOPS = cad_type_top c) || negb threaded).
Proof.
  intros C p o objects c Hc Ht Hb s threaded.
  destruct (__init___widgets p o c objects Hc Ht Hb)
    as (_ & Hf & He & _ & _).
  unfold s. rewrite Hf, He. unfold opened_form, opened_enabled.
  cbn [check_r_constrained spin_r_enabled check_r_constrained_enabled].
  fold threaded.
  split; [reflexivity|]. split; [reflexivity|].
  split; intros ->; [reflexivity|].
  case_bool_decide; case_decide; try contradiction; reflexivity.
Qed.

Lemma opening_sets_radius_widgets_witness :
  spin_r_enabled (enabled (self Sample.editing)) = true /\
  check_r_constrained (form (self Sample.editing)) = true.
Proof.
  destruct (opening_sets_radius_widgets Sample.C false 0 [Sample.live]
              Sample.live eq_refl eq_refl eq_refl) as (Hck & Hr & _).
  split; [exact Hr|exact Hck].
Defined.

(** X6. In a dialog opened on a CAD object the diameter of the internal
    pipe can be edited when the bottom of the object has a pipe, and also
    when the bottom is the one the combo box showed first: the slot of
    the combo box runs only when the bottom changes. *)
Theorem opening_sets_pipe_widget :
  forall (C : Collaborators) (parent_is_None : bool) (o : ref)
         (objects : list CadObj) (c : CadObj),
    objects !! o = Some c ->
    py_in (cad_type_top c) TOPS = true ->
    py_in (cad_type_bottom c) list_bottoms = true ->
    let s := self (__init__ parent_is_None (Some o) objects).2 in
    combo_bottom (form s) = cad_type_bottom c /\
    spin_d_can_enabled (enabled s) =
      bool_decide (hd "" list_bottoms = cad_type_bottom c) ||
      py_in (cad_type_bottom c) BOTTOMS_PIPE.
Proof.
  intros C p o objects c Hc Ht Hb s.
  destruct (__init___widgets p o c objects Hc Ht Hb)
    as (_ & Hf & He & _ & _).
  unfold s. rewrite Hf, He. unfold opened_form, opened_enabled.
  cbn [combo_bottom spin_d_can_enabled].
  split; [reflexivity|].
  case_bool_decide; case_decide; try contradiction; reflexivity.
Qed.

Lemma opening_sets_pipe_widget_witness :
  spin_d_can_enabled (enabled (self Sample.editing)) = true.
Proof.
  destruct (opening_sets_pipe_widget Sample.C false 0 [Sample.live]
              Sample.live eq_refl eq_refl eq_refl) as (_ & H).
  exact H.
Defined.

(** X5. What [restoreParams] shows, [readForm] reads back: after the
    dialog is opened on a CAD object, the form gives the top, the bottom
    and the constraint of the object, and its two strategies when they
    are among those [restoreParams] knows and the combo boxes offer their
    text. A strategy [restoreParams] does not know leaves the combo box
    on its first item, which is what the form then gives. *)
Theorem opening_then_readForm_round_trip :
  forall (C : Collaborators) (parent_is_None : bool) (o : ref)
         (objects : list CadObj) (c : CadObj),
    objects !! o = Some c ->
    py_in (cad_type_top c) TOPS = true ->
    py_in (cad_type_bottom c) list_bottoms = true ->
    let w := (__init__ parent_is_None (Some o) objects).2 in
    let p := params (self (readForm w).2) in
    (readForm w).1 = inr tt /\
    p_type_top p = cad_type_top c /\
    p_type_bottom p = cad_type_bottom c /\
    p_r_constrained p = cad_r_constrained c /\
    (cad_align_top_strategy c = "expand" ->
     py_in "Expand body" ALIGN_TOP_STRATEGIES = true ->
     p_align_top_strategy p = "expand") /\
    (cad_align_top_strategy c = "lift" ->
     py_in "Lift reactor" ALIGN_TOP_STRATEGIES = true ->
     p_align_top_strategy p = "lift") /\
    (cad_align_filter_strategy c = "adapt" ->
     py_in "Adapt" ALIGN_FILTER_STRATEGIES = true ->
     p_align_filter_strategy p = "adapt") /\
    (cad_align_filter_strategy c = "lift" ->
     py_in "Lift reactor" ALIGN_FILTER_STRATEGIES = true ->
     p_align_filter_strategy p = "lift") /\
    (cad_align_top_strategy c <> "expand" ->
     cad_align_top_strategy c <> "lift" ->
     p_align_top_strategy p = read_align_top (hd "" ALIGN_TOP_STRATEGIES)) /\
    (cad_align_filter_strategy c <> "adapt" ->
     cad_align_filter_strategy c <> "lift" ->
     p_align_filter_strategy p =
       read_align_filter (hd "" ALIGN_FILTER_STRATEGIES)).
Proof.
  intros C p0 o objects c Hc Ht Hb w p.
  destruct (__init___widgets p0 o c objects Hc Ht Hb)
    as (_ & Hf & _ & _ & _).
  assert (Hp : p = snapshot (opened_form c)).
  { unfold p, w. rewrite <- Hf. reflexivity. }
  rewrite Hp. unfold snapshot, opened_form, restored_align_top,
    restored_align_filter.
  cbn [p_type_top p_type_bottom p_r_constrained p_align_top_strategy
       p_align_filter_strategy combo_top combo_bottom check_r_constrained
       combo_align_top_strategy combo_align_filter_strategy].
  split; [reflexivity|]. split; [reflexivity|]. split; [reflexivity|].
  split; [reflexivity|].
  split; [intros E H; rewrite E, H; reflexivity|].
  split; [intros E H; rewrite E, H; reflexivity|].
  split; [intros E H; rewrite E, H; reflexivity|].
  split; [intros E H; rewrite E, H; reflexivity|].
  split; intros N1 N2; repeat case_decide; try contradiction; reflexivity.
Qed.

Lemma opening_then_readForm_round_trip_witness :
  let p := params (self (readForm Sample.editing).2) in
  p_type_top p = "A" /\ p_align_top_strategy p = "expand".
Proof.
  destruct (opening_then_readForm_round_trip Sample.C false 0 [Sample.live]
              Sample.live eq_refl eq_refl eq_refl)
    as (_ & Htop & _ & _ & He & _).
  split; [exact Htop|]. apply He; reflexivity.
Defined.

(** X1. Opening the dialog on a CAD object, whose top and bottom are
    among those the combo boxes offer, returns and fills the registry
    from the object: each dict holds the I/O of its kind under their
    names, in order, with the values of the object (the height as
    [getHeightPercentage] gives it, no ["type_io"] for side I/O, top
    inlets never connected), and the table has one row for each, the
    inputs first, then the outputs, then the top inlets. No CAD object
    is changed and only the log is written. *)
Theorem opening_restores_io :
  forall (C : Collaborators) (parent_is_None : bool) (o : ref)
         (objects : list CadObj) (c : CadObj),
    objects !! o = Some c ->
    py_in (cad_type_top c) TOPS = true ->
    py_in (cad_type_bottom c) list_bottoms = true ->
    NoDup (dict_keys (cad_inputs c)) ->
    NoDup (dict_keys (cad_outputs c)) ->
    NoDup (dict_keys (cad_top_inlets c)) ->
    let r := __init__ parent_is_None (Some o) objects in
    r.1 = inr tt /\
    dict_inputs (self r.2) = restored (restored_side c) (cad_inputs c) /\
    dict_outputs (self r.2) = restored (restored_side c) (cad_outputs c) /\
    dict_top_inlets (self r.2) = restored restored_top (cad_top_inlets c) /\
    table_io (self r.2) =
      map input_row (cad_inputs c) ++ map output_row (cad_outputs c) ++
      map top_inlet_row (cad_top_inlets c) /\
    heap r.2 = objects /\
    Forall is_log (trace r.2).
Proof.
  intros C p o objects c Hc Ht Hb Hi Ho Hti r.
  destruct (__init___opened p o c objects Hc Ht Hb Hi Ho Hti)
    as (t & E & Hlog).
  unfold r. rewrite E. cbn [fst snd self heap trace].
  repeat split; try reflexivity. exact Hlog.
Qed.

Lemma opening_restores_io_witness :
  List.length (table_io (self Sample.editing)) = 2 /\
  dict_keys (dict_outputs (self Sample.editing)) = ["default"].
Proof.
  pose proof (opening_restores_io Sample.C false 0 [Sample.live]
                Sample.live eq_refl eq_refl eq_refl
                (NoDup_singleton _) (NoDup_singleton _) NoDup_nil_2)
    as H.
  cbv zeta in H. destruct H as (_ & _ & Hout & _ & Htb & _).
  split.
  - exact (eq_trans (f_equal (@List.length Row) Htb) eq_refl).
  - exact (eq_trans (f_equal dict_keys Hout) eq_refl).
Defined.

(** * Committing a dialog that was opened on a CAD object *)





(** * Opening on a style the combo boxes do not offer *)

Lemma list_remove_not_in x l : NoDup l -> x ∉ list_remove x l.
Proof.
  induction l as [|y l IH]; simpl; intros Hnd.
  - apply not_elem_of_nil.
  - apply NoDup_cons in Hnd. destruct Hnd as [Hy Hnd].
    destruct (decide (y = x)) as [->|N]; [exact Hy|].
    apply not_elem_of_cons. split; [congruence|apply IH, Hnd].
Qed.

Section Unlisted.
Context {C : Collaborators}.

Lemma round_bottom_not_offered :
  NoDup BOTTOMS -> py_in B_ROUND list_bottoms = false.
Proof.
  intros Hnd. unfold py_in, list_bottoms.
  apply bool_decide_eq_false, list_remove_not_in, Hnd.
Qed.

Lemma combo_top_setCurrent_unlisted text w :
  py_in text TOPS = false ->
  combo_top_setCurrent text w =
    (inl (Exn ValueError (text +:+ " is not in list")), w).
Proof. intros H. unfold combo_top_setCurrent. rewrite H. reflexivity. Qed.

Lemma combo_bottom_setCurrent_unlisted text w :
  py_in text list_bottoms = false ->
  combo_bottom_setCurrent text w =
    (inl (Exn ValueError (text +:+ " is not in list")), w).
Proof. intros H. unfold combo_bottom_setCurrent. rewrite H. reflexivity. Qed.

(** [index] raises before [restoreIO] is reached. *)
Lemma __init___unlisted p o c objects :
  objects !! o = Some c ->
  py_in (cad_type_top c) TOPS = false \/
  py_in (cad_type_bottom c) list_bottoms = false ->
  exists e w',
    __init__ p (Some o) objects = (inl e, w') /\
    exn_cls e = ValueError /\
    table_io (self w') = [] /\
    dict_inputs (self w') = [] /\
    dict_outputs (self w') = [] /\
    dict_top_inlets (self w') = [] /\
    heap w' = objects /\
    Forall is_log (trace w').
Proof.
  intros Hc Hout.
  set (t0 := [Log DEBUG "Module path"] ++
             if py_in B_ROUND BOTTOMS then []
             else [Log DEBUG "Round bottom already removed"]).
  assert (Hlog : Forall is_log t0).
  { unfold t0. destruct (py_in B_ROUND BOTTOMS); repeat constructor. }
  assert (E0 : forall r,
            restoreParams {| self := new_dialog p (Some o);
                             heap := objects; trace := t0 |} = r ->
            __init__ p (Some o) objects = r).
  { intros r Hr. unfold __init__. returns.
    eapply (bind_returns _ _ _ tt
              {| self := new_dialog p (Some o); heap := objects;
                 trace := t0 |}); [|exact Hr].
    unfold t0. destruct (py_in B_ROUND BOTTOMS); reflexivity. }
  destruct (py_in (cad_type_top c) TOPS) eqn:Ht.
  - destruct Hout as [Hf|Hb]; [discriminate|].
    eexists _, _. split.
    { apply E0. unfold restoreParams.
      returns. cbn [self new_dialog cad_obj].
      returns. cbn [heap]. rewrite Hc.
      returns. returns.
      returns_by ltac:(apply combo_top_setCurrent_fresh;
                       [exact Ht|reflexivity..]).
      eapply bind_raises.
      apply combo_bottom_setCurrent_unlisted, Hb. }
    cbn [exn_cls]. split; [reflexivity|]. world_cbv.
    repeat split; try reflexivity. exact Hlog.
  - eexists _, _. split.
    { apply E0. unfold restoreParams.
      returns. cbn [self new_dialog cad_obj].
      returns. cbn [heap]. rewrite Hc.
      returns. returns.
      eapply bind_raises.
      apply combo_top_setCurrent_unlisted, Ht. }
    cbn [exn_cls]. split; [reflexivity|]. world_cbv.
    repeat split; try reflexivity. exact Hlog.
Qed.
End Unlisted.

(** X4. The dialog cannot be opened on a CAD object whose top or bottom
    is not among those the combo boxes offer: [index] raises
    [ValueError] in the constructor, before any I/O of the object is
    restored. No CAD object is changed. *)
Theorem opening_unlisted_style_raises :
  forall (C : Collaborators) (parent_is_None : bool) (o : ref)
         (objects : list CadObj) (c : CadObj),
    objects !! o = Some c ->
    py_in (cad_type_top c) TOPS = false \/
    py_in (cad_type_bottom c) list_bottoms = false ->
    let r := __init__ parent_is_None (Some o) objects in
    (exists e, r.1 = inl e /\ exn_cls e = ValueError) /\
    table_io (self r.2) = [] /\
    dict_inputs (self r.2) = [] /\
    dict_outputs (self r.2) = [] /\
    dict_top_inlets (self r.2) = [] /\
    heap r.2 = objects.
Proof.
  intros C p o objects c Hc Hout r.
  destruct (__init___unlisted p o c objects Hc Hout)
    as (e & w' & E & He & Htb & Hi & Ho & Hti & Hh & _).
  unfold r. rewrite E. cbn [fst snd].
  split; [exists e; split; [reflexivity|exact He]|].
  repeat split; assumption.
Qed.

(** X7. The round bottom, which [initUI] removes from the list of
    bottoms, is one of them: a CAD object that has it cannot be opened in
    the dialog, [ValueError] is raised in the constructor. *)
Theorem opening_round_bottom_raises :
  forall (C : Collaborators) (parent_is_None : bool) (o : ref)
         (objects : list CadObj) (c : CadObj),
    objects !! o = Some c ->
    NoDup BOTTOMS ->
    cad_type_bottom c = B_ROUND ->
    py_in B_ROUND list_bottoms = false /\
    exists e,
      (__init__ parent_is_None (Some o) objects).1 = inl e /\
      exn_cls e = ValueError.
Proof.
  intros C p o objects c Hc Hnd Hb.
  pose proof (round_bottom_not_offered Hnd) as Hr.
  split; [exact Hr|].
  destruct (__init___unlisted p o c objects Hc)
    as (e & w' & E & He & _).
  { right. rewrite Hb. exact Hr. }
  exists e. rewrite E. split; [reflexivity|exact He].
Qed.

Lemma opening_unlisted_style_raises_witness :
  heap (@__init__ Sample.C false (Some 0) [round_bottomed]).2 =
    [round_bottomed].
Proof.
  pose proof (opening_unlisted_style_raises Sample.C false 0
                [round_bottomed] round_bottomed eq_refl
                (or_intror eq_refl)) as H.
  cbv zeta in H. destruct H as (_ & _ & _ & _ & _ & H). exact H.
Defined.

Lemma opening_round_bottom_raises_witness :
  exists e,
    (@__init__ Sample.C false (Some 0) [round_bottomed]).1 = inl e /\
    exn_cls e = ValueError.
Proof.
  destruct (opening_round_bottom_raises Sample.C false 0 [round_bottomed]
              round_bottomed eq_refl) as (_ & H).
  - apply (bool_decide_unpack _). vm_compute. exact I.
  - reflexivity.
  - exact H.
Defined.

(** * The table mirrors the registry *)

Lemma names_shown_app P t1 t2 :
  names_shown P (t1 ++ t2) = names_shown P t1 ++ names_shown P t2.
Proof. unfold names_shown. rewrite List.filter_app, map_app. reflexivity. Qed.

Lemma names_shown_map {A} P (f : string * A -> Row) (l : pydict A)
  (b : bool) :
  (forall item, In item l -> P (f item) = b) ->
  (forall item, row_name (f item) = item.1) ->
  names_shown P (map f l) = if b then dict_keys l else [].
Proof.
  intros HP Hn. unfold names_shown.
  induction l as [|item l IH]; [destruct b; reflexivity|].
  cbn [map List.filter]. rewrite (HP item (or_introl eq_refl)).
  assert (IH' := IH (fun i Hi => HP i (or_intror Hi))).
  destruct b; cbn [map dict_keys]; [rewrite Hn|]; rewrite IH';
    reflexivity.
Qed.

(** What a row shows depends on the text of its type only. *)
Lemma shows_side_input r :
  row_type r = SIDE_INPUT ->
  shows_input r = true /\ shows_output r = false /\
  shows_top_inlet r = false.
Proof.
  intros E. unfold shows_top_inlet, shows_input, shows_output.
  rewrite E. repeat split; reflexivity.
Qed.

Lemma shows_side_output r :
  row_type r = SIDE_OUTPUT \/ row_type r = DEF_OUTPUT ->
  shows_input r = false /\ shows_output r = true /\
  shows_top_inlet r = false.
Proof.
  intros [E|E]; unfold shows_top_inlet, shows_input, shows_output;
    rewrite E; repeat split; reflexivity.
Qed.

Lemma shows_other r :
  row_type r <> SIDE_INPUT -> row_type r <> SIDE_OUTPUT ->
  row_type r <> DEF_OUTPUT ->
  shows_input r = false /\ shows_output r = false /\
  shows_top_inlet r = true.
Proof.
  intros N1 N2 N3. unfold shows_top_inlet, shows_input, shows_output.
  rewrite !bool_decide_eq_false_2 by assumption.
  repeat split; reflexivity.
Qed.

Lemma mirrors_opened {C : Collaborators} p o c :
  NoDup (dict_keys (cad_inputs c)) ->
  NoDup (dict_keys (cad_outputs c)) ->
  NoDup (dict_keys (cad_top_inlets c)) ->
  Forall (fun item => top_inlet_type (ti_type_io item.2))
    (cad_top_inlets c) ->
  mirrors (opened p o c).
Proof.
  intros Hi Ho Hti Htop.
  assert (Hin : forall item : string * InputOutput,
            shows_input (input_row item) = true /\
            shows_output (input_row item) = false /\
            shows_top_inlet (input_row item) = false).
  { intros item. apply shows_side_input. reflexivity. }
  assert (Hout : forall item : string * InputOutput,
            shows_input (output_row item) = false /\
            shows_output (output_row item) = true /\
            shows_top_inlet (output_row item) = false).
  { intros item. apply shows_side_output. unfold output_row.
    destruct (decide (item.1 = "default")); [right|left]; reflexivity. }
  assert (Htp : forall item, In item (cad_top_inlets c) ->
            shows_input (top_inlet_row item) = false /\
            shows_output (top_inlet_row item) = false /\
            shows_top_inlet (top_inlet_row item) = true).
  { intros item Hitem. rewrite Forall_forall in Htop.
    destruct (Htop item (proj2 (list_elem_of_In _ _) Hitem))
      as (N1 & N2 & N3).
    apply shows_other; assumption. }
  split; unfold opened;
    cbn [table_io dict_inputs dict_outputs dict_top_inlets];
    rewrite ?dict_keys_restored; try assumption.
  - rewrite !names_shown_app.
    rewrite (names_shown_map _ input_row _ true),
      (names_shown_map _ output_row _ false),
      (names_shown_map _ top_inlet_row _ false).
    + rewrite !app_nil_r. reflexivity.
    + intros item Hitem. apply (Htp item Hitem).
    + reflexivity.
    + intros item _. apply (Hout item).
    + reflexivity.
    + intros item _. apply (Hin item).
    + reflexivity.
  - rewrite !names_shown_app.
    rewrite (names_shown_map _ input_row _ false),
      (names_shown_map _ output_row _ true),
      (names_shown_map _ top_inlet_row _ false).
    + rewrite !app_nil_r. reflexivity.
    + intros item Hitem. apply (Htp item Hitem).
    + reflexivity.
    + intros item _. apply (Hout item).
    + reflexivity.
    + intros item _. apply (Hin item).
    + reflexivity.
  - rewrite !names_shown_app.
    rewrite (names_shown_map _ input_row _ false),
      (names_shown_map _ output_row _ false),
      (names_shown_map _ top_inlet_row _ true).
    + reflexivity.
    + intros item Hitem. apply (Htp item Hitem).
    + reflexivity.
    + intros item _. apply (Hout item).
    + reflexivity.
    + intros item _. apply (Hin item).
    + reflexivity.
Qed.

(** X8. When the dialog opens, the table mirrors the registry: kind by
    kind, its rows name the keys of the dict, in the same order. This
    holds of a dialog that creates a module, whose table and registry
    are empty, and of a dialog opened on a CAD object, whose top inlets
    have a type the table does not show as a side I/O. *)
Theorem opening_establishes_mirror :
  forall (C : Collaborators) (parent_is_None : bool)
         (objects : list CadObj),
    mirrors (self (__init__ parent_is_None None objects).2) /\
    forall (o : ref) (c : CadObj),
      objects !! o = Some c ->
      py_in (cad_type_top c) TOPS = true ->
      py_in (cad_type_bottom c) list_bottoms = true ->
      NoDup (dict_keys (cad_inputs c)) ->
      NoDup (dict_keys (cad_outputs c)) ->
      NoDup (dict_keys (cad_top_inlets c)) ->
      Forall (fun item => top_inlet_type (ti_type_io item.2))
        (cad_top_inlets c) ->
      mirrors (self (__init__ parent_is_None (Some o) objects).2).
Proof.
  intros C p objects. split.
  - unfold __init__, restoreParams, the_self, l_debug, emit, update,
      read, bind, ret.
    destruct (py_in B_ROUND BOTTOMS); cbn [fst snd self with_trace];
      (split; [reflexivity..|apply NoDup_nil_2|apply NoDup_nil_2
                            |apply NoDup_nil_2]).
  - intros o c Hc Ht Hb Hi Ho Hti Htop.
    destruct (__init___opened p o c objects Hc Ht Hb Hi Ho Hti)
      as (t & E & _).
    rewrite E. apply mirrors_opened; assumption.
Qed.

Lemma opening_establishes_mirror_witness : mirrors (self Sample.editing).
Proof.
  destruct (opening_establishes_mirror Sample.C false [Sample.live])
    as [_ H].
  exact (H 0 Sample.live eq_refl eq_refl eq_refl
           (NoDup_singleton _) (NoDup_singleton _) NoDup_nil_2
           (Forall_nil_2 _)).
Defined.

Lemma dict_get_None_not_in {V} k (d : pydict V) :
  dict_get k d = None -> ~ In k (dict_keys d).
Proof.
  induction d as [|[k' v] d IH]; simpl; intros H; [intros []|].
  destruct (decide (k' = k)) as [->|N]; [discriminate|].
  intros [E|Hin]; [exact (N E)|exact (IH H Hin)].
Qed.

Lemma dict_mem_In {V} k (d : pydict V) :
  In k (dict_keys d) -> dict_mem k d = true.
Proof.
  intros Hin. destruct (dict_mem k d) eqn:E; [reflexivity|].
  apply dict_mem_false, dict_get_None_not_in in E. contradiction.
Qed.

Lemma names_shown_snoc P t r :
  names_shown P (t ++ [r]) =
    names_shown P t ++ (if P r then [row_name r] else []).
Proof.
  rewrite names_shown_app. unfold names_shown at 2. cbn [List.filter].
  destruct (P r); reflexivity.
Qed.

(** The keys of a dict once [d[name] = v] ran. *)
Lemma dict_set_keys {V} name (v : V) d :
  dict_keys (dict_set name v d) =
    if dict_mem name d then dict_keys d else dict_keys d ++ [name].
Proof.
  destruct (dict_mem name d) eqn:E.
  - apply dict_set_keys_present, E.
  - apply dict_mem_false in E. rewrite (dict_set_fresh _ _ _ E).
    apply dict_keys_app.
Qed.

Lemma dict_set_distinct {V} name (v : V) d :
  NoDup (dict_keys d) -> NoDup (dict_keys (dict_set name v d)).
Proof.
  intros Hnd. rewrite dict_set_keys. destruct (dict_mem name d) eqn:E;
    [exact Hnd|].
  apply dict_mem_false, dict_get_None_not_in in E.
  apply NoDup_app. split; [exact Hnd|]. split; [|apply NoDup_singleton].
  intros x Hx Hx'. apply list_elem_of_singleton in Hx'. subst x.
  apply E, list_elem_of_In, Hx.
Qed.

(** Storing a descriptor, with a new row when its name is new, in a
    dialog whose table mirrors its registry. *)
Lemma mirrors_add_input s name v r :
  mirrors s -> row_type r = SIDE_INPUT -> row_name r = name ->
  mirrors
    (with_dict_inputs (dict_set name v)
       (if dict_mem name (dict_inputs s) then s
        else with_table_io (fun tb => tb ++ [r]) s)).
Proof.
  intros [Mi Mo Mt Di Do Dt] Hr Hn.
  destruct (shows_side_input r Hr) as (Si & So & St).
  pose proof (dict_set_keys name v (dict_inputs s)) as Hk.
  pose proof (dict_set_distinct name v (dict_inputs s) Di) as Hd.
  destruct (dict_mem name (dict_inputs s));
    split; cbn [with_dict_inputs with_table_io table_io dict_inputs
                dict_outputs dict_top_inlets];
    rewrite ?names_shown_snoc, ?Si, ?So, ?St, ?app_nil_r, ?Hk, ?Hn;
    try assumption; congruence.
Qed.

Lemma mirrors_add_output s name v r :
  mirrors s -> row_type r = SIDE_OUTPUT -> row_name r = name ->
  mirrors
    (with_dict_outputs (dict_set name v)
       (if dict_mem name (dict_outputs s) then s
        else with_table_io (fun tb => tb ++ [r]) s)).
Proof.
  intros [Mi Mo Mt Di Do Dt] Hr Hn.
  destruct (shows_side_output r (or_introl Hr)) as (Si & So & St).
  pose proof (dict_set_keys name v (dict_outputs s)) as Hk.
  pose proof (dict_set_distinct name v (dict_outputs s) Do) as Hd.
  destruct (dict_mem name (dict_outputs s));
    split; cbn [with_dict_outputs with_table_io table_io dict_inputs
                dict_outputs dict_top_inlets];
    rewrite ?names_shown_snoc, ?Si, ?So, ?St, ?app_nil_r, ?Hk, ?Hn;
    try assumption; congruence.
Qed.

Lemma mirrors_add_top_inlet s name v r :
  mirrors s ->
  row_type r <> SIDE_INPUT -> row_type r <> SIDE_OUTPUT ->
  row_type r <> DEF_OUTPUT -> row_name r = name ->
  mirrors
    (with_dict_top_inlets (dict_set name v)
       (if dict_mem name (dict_top_inlets s) then s
        else with_table_io (fun tb => tb ++ [r]) s)).
Proof.
  intros [Mi Mo Mt Di Do Dt] N1 N2 N3 Hn.
  destruct (shows_other r N1 N2 N3) as (Si & So & St).
  pose proof (dict_set_keys name v (dict_top_inlets s)) as Hk.
  pose proof (dict_set_distinct name v (dict_top_inlets s) Dt) as Hd.
  destruct (dict_mem name (dict_top_inlets s));
    split; cbn [with_dict_top_inlets with_table_io table_io dict_inputs
                dict_outputs dict_top_inlets];
    rewrite ?names_shown_snoc, ?Si, ?So, ?St, ?app_nil_r, ?Hk, ?Hn;
    try assumption; congruence.
Qed.

(** What the three methods of the I/O dialog boxes leave of the dialog. *)
Lemma addInput_self name v t w :
  sio_type_io v = Some t ->
  (addInput name v w).1 = inr tt /\
  self (addInput name v w).2 =
    with_dict_inputs (dict_set name v)
      (if dict_mem name (dict_inputs (self w)) then self w
       else with_table_io (fun tb => tb ++ [new_row name t]) (self w)).
Proof.
  intros Ht.
  unfold addInput, getitem_type_io, _addNewRow, new_row, l_debug, emit,
    update, the_self, read, bind, ret, raise. cbn [fst snd self with_trace].
  destruct (dict_mem name (dict_inputs (self w))); cbn [negb];
    rewrite ?Ht; split; reflexivity.
Qed.

Lemma addOutput_self name v t w :
  sio_type_io v = Some t ->
  (addOutput name v w).1 = inr tt /\
  self (addOutput name v w).2 =
    with_dict_outputs (dict_set name v)
      (if dict_mem name (dict_outputs (self w)) then self w
       else with_table_io (fun tb => tb ++ [new_row name t]) (self w)).
Proof.
  intros Ht.
  unfold addOutput, getitem_type_io, _addNewRow, new_row, l_debug, emit,
    update, the_self, read, bind, ret, raise. cbn [fst snd self with_trace].
  destruct (dict_mem name (dict_outputs (self w))); cbn [negb];
    rewrite ?Ht; split; reflexivity.
Qed.

Lemma addTopInlet_self name v w :
  (addTopInlet name v w).1 = inr tt /\
  self (addTopInlet name v w).2 =
    with_dict_top_inlets (dict_set name v)
      (if dict_mem name (dict_top_inlets (self w)) then self w
       else with_table_io
              (fun tb => tb ++ [new_row name (tio_type_io v)]) (self w)).
Proof.
  unfold addTopInlet, _addNewRow, new_row, l_debug, emit,
    update, the_self, read, bind, ret, raise. cbn [fst snd self with_trace].
  destruct (dict_mem name (dict_top_inlets (self w))); cbn [negb];
    split; reflexivity.
Qed.

(** X9. The table goes on mirroring the registry when an I/O dialog box
    hands over a descriptor, new or not, as long as it names its type as
    the method it calls expects: ["Side input"] to [addInput],
    ["Side output"] to [addOutput], and to [addTopInlet] a type the
    table does not show as a side I/O. The three methods return. *)
Theorem adding_keeps_mirror :
  forall (w : World) (name : string) (side_in side_out : SideIO)
         (top : TopIO),
    mirrors (self w) ->
    sio_type_io side_in = Some SIDE_INPUT ->
    sio_type_io side_out = Some SIDE_OUTPUT ->
    top_inlet_type (tio_type_io top) ->
    ((addInput name side_in w).1 = inr tt /\
     mirrors (self (addInput name side_in w).2)) /\
    ((addOutput name side_out w).1 = inr tt /\
     mirrors (self (addOutput name side_out w).2)) /\
    ((addTopInlet name top w).1 = inr tt /\
     mirrors (self (addTopInlet name top w).2)).
Proof.
  intros w name side_in side_out top Hm Hi Ho (N1 & N2 & N3).
  destruct (addInput_self name side_in _ w Hi) as [Ri Ei].
  destruct (addOutput_self name side_out _ w Ho) as [Ro Eo].
  destruct (addTopInlet_self name top w) as [Rt Et].
  rewrite Ei, Eo, Et.
  split; [split; [exact Ri|]|split; [split; [exact Ro|]|split; [exact Rt|]]].
  - apply mirrors_add_input; [exact Hm|reflexivity..].
  - apply mirrors_add_output; [exact Hm|reflexivity..].
  - apply mirrors_add_top_inlet;
      [exact Hm|exact N1|exact N2|exact N3|reflexivity].
Qed.

Lemma custom_is_top_inlet_type : top_inlet_type "custom".
Proof. vm_compute. repeat split; intros H; discriminate H. Qed.

Lemma mirrors_editing : mirrors (self Sample.editing).
Proof.
  destruct (@__init___opened Sample.C false 0 Sample.live [Sample.live]
              eq_refl eq_refl eq_refl
              (NoDup_singleton _) (NoDup_singleton _) NoDup_nil_2)
    as (t & E & _).
  unfold Sample.editing.
  change (@__init__ Sample.C false (Some 0) [Sample.live])
    with (@__init__ Sample.C false (@Some ref 0) [Sample.live]).
  rewrite E. apply mirrors_opened.
  - apply NoDup_singleton.
  - apply NoDup_singleton.
  - apply NoDup_nil_2.
  - apply Forall_nil_2.
Qed.

Lemma adding_keeps_mirror_witness :
  mirrors (self (addInput "in2" (Sample.side SIDE_INPUT 2%Q)
                   Sample.editing).2).
Proof.
  destruct (adding_keeps_mirror Sample.editing "in2"
              (Sample.side SIDE_INPUT 2%Q) (Sample.side SIDE_OUTPUT 2%Q)
              (Sample.inlet "custom") mirrors_editing eq_refl eq_refl
              custom_is_top_inlet_type) as ((_ & H) & _).
  exact H.
Defined.

(** ** Deleting a row *)

Lemma names_shown_In P t row it :
  t !! row = Some it -> P it = true -> In (row_name it) (names_shown P t).
Proof.
  intros Hit HP. unfold names_shown. apply in_map, List.filter_In.
  split; [|exact HP]. apply list_elem_of_In, (list_elem_of_lookup_2 _ _ _ Hit).
Qed.

Lemma names_shown_delete_other P t row it :
  t !! row = Some it -> P it = false ->
  names_shown P (delete row t) = names_shown P t.
Proof.
  revert row. induction t as [|r t IH]; intros [|row] Hit HP;
    try discriminate.
  - injection Hit as ->. unfold names_shown. cbn [delete List.filter].
    rewrite HP. reflexivity.
  - change (delete (S row) (r :: t)) with (r :: delete row t).
    unfold names_shown in *. cbn [List.filter].
    rewrite (IH row Hit HP) || destruct (P r);
      cbn [map]; rewrite ?(IH row Hit HP); reflexivity.
Qed.

Lemma filter_ne_absent (k : string) l :
  ~ In k l -> filter (fun n => n <> k) l = l.
Proof.
  induction l as [|x l IH]; intros Hn; [reflexivity|].
  rewrite filter_cons. destruct (decide (x <> k)) as [N|E].
  - rewrite IH; [reflexivity|]. intros Hin. apply Hn. right. exact Hin.
  - apply dec_stable in E. destruct Hn. left. exact E.
Qed.

Lemma names_shown_delete_same P t row it :
  t !! row = Some it -> P it = true -> NoDup (names_shown P t) ->
  names_shown P (delete row t) =
    filter (fun n => n <> row_name it) (names_shown P t).
Proof.
  revert row. induction t as [|r t IH]; intros [|row] Hit HP Hnd;
    try discriminate.
  - injection Hit as ->. unfold names_shown in *.
    cbn [delete List.filter] in *. rewrite HP in *. cbn [map] in *.
    apply NoDup_cons in Hnd. destruct Hnd as [Hnin _].
    rewrite filter_cons. destruct (decide (row_name it <> row_name it));
      [contradiction|].
    symmetry. apply filter_ne_absent. intros Hin. apply Hnin.
    apply list_elem_of_In, Hin.
  - change (delete (S row) (r :: t)) with (r :: delete row t).
    change ((r :: t) !! S row) with (t !! row) in Hit.
    unfold names_shown in *. cbn [List.filter] in *.
    destruct (P r) eqn:HPr; cbn [map] in *.
    + apply NoDup_cons in Hnd. destruct Hnd as [Hnin Hnd].
      rewrite (IH row Hit HP Hnd). rewrite filter_cons.
      destruct (decide (row_name r <> row_name it)) as [N|E];
        [reflexivity|].
      apply dec_stable in E. destruct Hnin. rewrite E.
      apply list_elem_of_In, (names_shown_In P t row it Hit HP).
    + exact (IH row Hit HP Hnd).
Qed.

Lemma dict_keys_remove {V} k (d : pydict V) :
  dict_keys (dict_remove k d) = filter (fun n => n <> k) (dict_keys d).
Proof.
  unfold dict_keys, dict_remove.
  induction d as [|[k' v] d IH]; [reflexivity|].
  cbn [map]. rewrite !filter_cons. cbn [fst].
  destruct (decide (k' <> k)); cbn [map fst]; rewrite IH; reflexivity.
Qed.

Lemma NoDup_filter_ne (k : string) l :
  NoDup l -> NoDup (filter (fun n => n <> k) l).
Proof. apply NoDup_filter. Qed.

(** The dialog once [deleteIO] removed the row [row], which shows [it],
    and the entry of the registry it stands for. *)
Lemma mirrors_delete s row it :
  mirrors s ->
  table_io s !! row = Some it ->
  row_type it <> DEF_OUTPUT ->
  mirrors (with_table_io (delete row) (forget (row_type it) (row_name it) s)).
Proof.
  intros [Mi Mo Mt Di Do Dt] Hit Hnd. unfold forget.
  destruct (decide (row_type it = SIDE_INPUT)) as [Ei|Ni];
    [|destruct (decide (row_type it = SIDE_OUTPUT)) as [Eo|No]].
  - destruct (shows_side_input it Ei) as (Si & So & St).
    split; cbn [with_table_io with_dict_inputs table_io dict_inputs
                dict_outputs dict_top_inlets];
      rewrite ?dict_keys_remove.
    + rewrite (names_shown_delete_same _ _ _ _ Hit Si), Mi;
        [reflexivity|rewrite Mi; exact Di].
    + rewrite (names_shown_delete_other _ _ _ _ Hit So). exact Mo.
    + rewrite (names_shown_delete_other _ _ _ _ Hit St). exact Mt.
    + apply NoDup_filter_ne, Di.
    + exact Do.
    + exact Dt.
  - destruct (shows_side_output it (or_introl Eo)) as (Si & So & St).
    split; cbn [with_table_io with_dict_outputs table_io dict_inputs
                dict_outputs dict_top_inlets];
      rewrite ?dict_keys_remove.
    + rewrite (names_shown_delete_other _ _ _ _ Hit Si). exact Mi.
    + rewrite (names_shown_delete_same _ _ _ _ Hit So), Mo;
        [reflexivity|rewrite Mo; exact Do].
    + rewrite (names_shown_delete_other _ _ _ _ Hit St). exact Mt.
    + exact Di.
    + apply NoDup_filter_ne, Do.
    + exact Dt.
  - destruct (shows_other it Ni No Hnd) as (Si & So & St).
    split; cbn [with_table_io with_dict_top_inlets table_io dict_inputs
                dict_outputs dict_top_inlets];
      rewrite ?dict_keys_remove.
    + rewrite (names_shown_delete_other _ _ _ _ Hit Si). exact Mi.
    + rewrite (names_shown_delete_other _ _ _ _ Hit So). exact Mo.
    + rewrite (names_shown_delete_same _ _ _ _ Hit St), Mt;
        [reflexivity|rewrite Mt; exact Dt].
    + exact Di.
    + exact Do.
    + apply NoDup_filter_ne, Dt.
Qed.

(** A row of the table names an entry of the dict it stands for. *)
Lemma mirrors_registered s row it :
  mirrors s ->
  table_io s !! row = Some it ->
  row_type it <> DEF_OUTPUT ->
  registered (row_type it) (row_name it) s = true.
Proof.
  intros [Mi Mo Mt _ _ _] Hit Hnd. unfold registered.
  destruct (decide (row_type it = SIDE_INPUT)) as [Ei|Ni];
    [|destruct (decide (row_type it = SIDE_OUTPUT)) as [Eo|No]].
  - destruct (shows_side_input it Ei) as (Si & _).
    apply dict_mem_In. rewrite <- Mi.
    exact (names_shown_In _ _ _ _ Hit Si).
  - destruct (shows_side_output it (or_introl Eo)) as (_ & So & _).
    apply dict_mem_In. rewrite <- Mo.
    exact (names_shown_In _ _ _ _ Hit So).
  - destruct (shows_other it Ni No Hnd) as (_ & _ & St).
    apply dict_mem_In. rewrite <- Mt.
    exact (names_shown_In _ _ _ _ Hit St).
Qed.

(** X10. The table goes on mirroring the registry whenever [deleteIO]
    returns: with no row selected and on the row of the default output
    nothing changes, and otherwise the row leaves the table together
    with the entry it stands for. *)
Theorem deleting_keeps_mirror :
  forall (w : World) (rows : list nat),
    mirrors (self w) ->
    (deleteIO rows w).1 = inr tt ->
    mirrors (self (deleteIO rows w).2).
Proof.
  intros w rows Hm Hret.
  destruct rows as [|row rows]; [exact Hm|].
  destruct (table_io (self w) !! row) as [it|] eqn:Hit.
  - destruct (decide (row_type it = DEF_OUTPUT)) as [Ed|Hnd].
    { rewrite (deleteIO_default_output w row rows it Hit Ed). exact Hm. }
    pose proof (mirrors_delete (self w) row it Hm Hit Hnd) as Hm'.
    revert Hret. rewrite (deleteIO_row w row rows it Hit Hnd). cbv zeta.
    destruct (registered (row_type it) (row_name it) (self w));
      [|discriminate].
    destruct (cad_obj (self w)) as [o|]; [|intros _; exact Hm'].
    destruct (heap w !! o) as [c|]; [|discriminate].
    destruct (attached (row_type it) (row_name it) c); [|discriminate].
    intros _. exact Hm'.
  - revert Hret.
    unfold deleteIO, table_item, the_self, read, bind, ret, raise.
    cbn [fst snd]. rewrite Hit. discriminate.
Qed.

Lemma deleting_keeps_mirror_witness :
  mirrors (self (deleteIO [0] Sample.editing).2).
Proof.
  apply (deleting_keeps_mirror Sample.editing [0] mirrors_editing).
  reflexivity.
Defined.

(** X11. While a module is being created, every row of the table can be
    deleted: [deleteIO] returns, and unless the row is that of a default
    output, the row has left the table and its name the dict it stood
    for. No CAD object is touched. *)
Theorem deleting_while_creating_returns :
  forall (w : World) (row : nat) (rows : list nat) (it : Row),
    mirrors (self w) ->
    cad_obj (self w) = None ->
    table_io (self w) !! row = Some it ->
    (deleteIO (row :: rows) w).1 = inr tt /\
    heap (deleteIO (row :: rows) w).2 = heap w /\
    (row_type it <> DEF_OUTPUT ->
     table_io (self (deleteIO (row :: rows) w).2) =
       delete row (table_io (self w)) /\
     registered (row_type it) (row_name it)
       (self (deleteIO (row :: rows) w).2) = false).
Proof.
  intros w row rows it Hm Hco Hit.
  destruct (decide (row_type it = DEF_OUTPUT)) as [Ed|Hnd].
  { rewrite (deleteIO_default_output w row rows it Hit Ed).
    split; [reflexivity|]. split; [reflexivity|]. contradiction. }
  pose proof (mirrors_registered (self w) row it Hm Hit Hnd) as Hreg.
  destruct (deleteIO_once w row rows it Hit Hnd Hreg) as (Hr & Hf & Ht).
  { rewrite Hco. exact I. }
  split; [exact Hr|]. split; [|intros _; split; assumption].
  rewrite (deleteIO_row w row rows it Hit Hnd). cbv zeta.
  rewrite Hreg, Hco. reflexivity.
Qed.

Lemma mirrors_creating_with_input : mirrors (self creating_with_input).
Proof.
  split; try reflexivity; vm_compute;
    repeat first [apply NoDup_nil_2 | apply NoDup_singleton].
Qed.

Lemma deleting_while_creating_returns_witness :
  (deleteIO [0] creating_with_input).1 = inr tt /\
  table_io (self (deleteIO [0] creating_with_input).2) = [].
Proof.
  destruct (deleting_while_creating_returns creating_with_input 0 []
              (new_row "in2" SIDE_INPUT) mirrors_creating_with_input
              eq_refl eq_refl) as (Hr & _ & H).
  split; [exact Hr|].
  destruct H as [Ht _]; [vm_compute; intros E; discriminate E|].
  exact (eq_trans Ht eq_refl).
Defined.

(** * Opening an I/O of the table *)

Lemma getitem_eq {V} name (d : pydict V) w :
  getitem name d w =
    match dict_get name d with
    | Some v => (inr v, w)
    | None => (inl (Exn KeyError name), w)
    end.
Proof. unfold getitem. destruct (dict_get name d); reflexivity. Qed.

Lemma table_item_eq row it w :
  table_io (self w) !! row = Some it -> table_item row w = (inr it, w).
Proof.
  intros Hit. unfold table_item, the_self, read, bind, ret. cbn [fst snd].
  rewrite Hit. reflexivity.
Qed.

(** What [openIODialog] does on a row of the table: it looks the name up
    in the dict the text of the type stands for, the dict of the top
    inlets when the text is neither that of a side input nor that of a
    side output. *)
Lemma openIODialog_row w row it :
  table_io (self w) !! row = Some it ->
  let w1 :=
    with_trace
      (fun t => t ++ [Log DEBUG "Filter Reactor, opening I/O dialog box"])
      w in
  let name := row_name it in
  openIODialog row w =
    if decide (row_type it = SIDE_INPUT) then
      match dict_get name (dict_inputs (self w)) with
      | Some d => (inr (AddIODialogFR name (merge_side (row_type it) d)), w1)
      | None => (inl (Exn KeyError name), w1)
      end
    else if decide (row_type it = SIDE_OUTPUT) then
      match dict_get name (dict_outputs (self w)) with
      | Some d => (inr (AddIODialogFR name (merge_side (row_type it) d)), w1)
      | None => (inl (Exn KeyError name), w1)
      end
    else
      match dict_get name (dict_top_inlets (self w)) with
      | Some d => (inr (AddTopIODialogFR name d), w1)
      | None => (inl (Exn KeyError name), w1)
      end.
Proof.
  intros Hit w1 name. unfold openIODialog.
  returns. fold w1.
  returns_by ltac:(apply table_item_eq; exact Hit).
  returns. fold name.
  repeat case_decide; unfold bind; rewrite getitem_eq;
    change (self w1) with (self w);
    match goal with
    | |- context [dict_get ?n ?d] => destruct (dict_get n d)
    end; reflexivity.
Qed.

Lemma dict_get_is_Some {V} k (d : pydict V) :
  dict_mem k d = true -> exists v, dict_get k d = Some v.
Proof. intros H. apply dict_mem_true in H. destruct H as [v H]. eauto. Qed.

(** X12. In a dialog whose table mirrors its registry, a double click on
    a row other than that of the default output opens the dialog box of
    its kind on the descriptor the registry holds under the name of the
    row: [AddIODialogFR] for a side input or output, [AddTopIODialogFR]
    otherwise. The type the box is given is the one stored with the
    descriptor, and the text of the row when none is stored. The slot
    raises nothing and changes neither the dialog nor a CAD object. *)
Theorem opening_an_io_finds_its_descriptor :
  forall (w : World) (row : nat) (it : Row),
    mirrors (self w) ->
    table_io (self w) !! row = Some it ->
    row_type it <> DEF_OUTPUT ->
    let r := openIODialog row w in
    let name := row_name it in
    self r.2 = self w /\
    heap r.2 = heap w /\
    Forall is_log (drop (List.length (trace w)) (trace r.2)) /\
    ((row_type it = SIDE_INPUT /\
      exists d, dict_get name (dict_inputs (self w)) = Some d /\
                r.1 = inr (AddIODialogFR name (merge_side SIDE_INPUT d))) \/
     (row_type it = SIDE_OUTPUT /\
      exists d, dict_get name (dict_outputs (self w)) = Some d /\
                r.1 = inr (AddIODialogFR name (merge_side SIDE_OUTPUT d))) \/
     (row_type it <> SIDE_INPUT /\ row_type it <> SIDE_OUTPUT /\
      exists d, dict_get name (dict_top_inlets (self w)) = Some d /\
                r.1 = inr (AddTopIODialogFR name d))).
Proof.
  intros w row it Hm Hit Hnd r name.
  pose proof (mirrors_registered (self w) row it Hm Hit Hnd) as Hreg.
  unfold registered in Hreg. unfold r.
  rewrite (openIODialog_row w row it Hit). cbv zeta. fold name in Hreg |- *.
  assert (Hlog : forall l : list event,
            Forall is_log
              (drop (List.length l)
                 (l ++ [Log DEBUG
                          "Filter Reactor, opening I/O dialog box"]))).
  { intros l. rewrite drop_app_length. repeat constructor. }
  destruct (decide (row_type it = SIDE_INPUT)) as [Ei|Ni];
    [|destruct (decide (row_type it = SIDE_OUTPUT)) as [Eo|No]];
    destruct (dict_get_is_Some _ _ Hreg) as [d Hd]; rewrite Hd;
    cbn [fst snd self heap trace with_trace];
    (split; [reflexivity|]); (split; [reflexivity|]);
    (split; [apply Hlog|]).
  - left. split; [exact Ei|]. exists d. rewrite Ei. split; reflexivity.
  - right. left. split; [exact Eo|]. exists d. rewrite Eo.
    split; reflexivity.
  - right. right. split; [exact Ni|]. split; [exact No|]. exists d.
    split; reflexivity.
Qed.

Lemma opening_an_io_finds_its_descriptor_witness :
  (openIODialog 0 Sample.editing).1 =
    inr (AddIODialogFR "in1"
           {| sio_type_io := Some SIDE_INPUT; sio_height_per := 0.5%Q;
              sio_angle := 0%Q; sio_diameter := 2%Q;
              sio_external := false; sio_connected := Some false |}).
Proof.
  pose proof (opening_an_io_finds_its_descriptor Sample.editing 0
                (new_row "in1" SIDE_INPUT) mirrors_editing eq_refl) as H.
  cbv zeta in H. destruct H as (_ & _ & _ & [H|[H|H]]).
  - vm_compute. intros E. discriminate E.
  - destruct H as (_ & d & Hd & Hr). rewrite Hr.
    injection Hd as <-. reflexivity.
  - destruct H as (E & _). discriminate E.
  - destruct H as (N & _). destruct N. reflexivity.
Defined.

Lemma merge_side_same t d :
  sio_type_io d = Some t -> merge_side t d = d.
Proof. destruct d. cbn. intros ->. reflexivity. Qed.

Lemma names_shown_row P t n :
  In n (names_shown P t) ->
  exists row it, t !! row = Some it /\ row_name it = n /\ P it = true.
Proof.
  unfold names_shown. intros Hin. apply in_map_iff in Hin.
  destruct Hin as (it & Hn & Hin). apply List.filter_In in Hin.
  destruct Hin as [Hin HP]. apply list_elem_of_In in Hin.
  apply list_elem_of_lookup_1 in Hin. destruct Hin as [row Hrow].
  exists row, it. repeat split; assumption.
Qed.

Lemma dict_get_Some_In {V} k (d : pydict V) v :
  dict_get k d = Some v -> In k (dict_keys d).
Proof.
  induction d as [|[k' v'] d IH]; simpl; [discriminate|].
  destruct (decide (k' = k)) as [->|N]; [left; reflexivity|].
  intros H. right. exact (IH H).
Qed.

Lemma dict_keys_In_set {V} name (v : V) d :
  In name (dict_keys (dict_set name v d)).
Proof. exact (dict_get_Some_In _ _ _ (dict_get_set_eq name v d)). Qed.

(** X13. What an I/O dialog box hands over, a double click gives back:
    once [addInput], [addOutput] or [addTopInlet] stored a descriptor
    under a name, with its type named as the method expects, the table
    has a row of that kind with that name, and [openIODialog] on such a
    row opens the dialog box on that name and that very descriptor. *)
Theorem added_io_opens_with_its_descriptor :
  forall (w : World) (name : string) (side_in side_out : SideIO)
         (top : TopIO),
    mirrors (self w) ->
    sio_type_io side_in = Some SIDE_INPUT ->
    sio_type_io side_out = Some SIDE_OUTPUT ->
    top_inlet_type (tio_type_io top) ->
    (let w' := (addInput name side_in w).2 in
     (exists row it, table_io (self w') !! row = Some it /\
                     row_name it = name /\ row_type it = SIDE_INPUT) /\
     forall row it,
       table_io (self w') !! row = Some it ->
       row_name it = name -> row_type it = SIDE_INPUT ->
       (openIODialog row w').1 = inr (AddIODialogFR name side_in)) /\
    (let w' := (addOutput name side_out w).2 in
     (exists row it, table_io (self w') !! row = Some it /\
                     row_name it = name /\ shows_output it = true) /\
     forall row it,
       table_io (self w') !! row = Some it ->
       row_name it = name -> row_type it = SIDE_OUTPUT ->
       (openIODialog row w').1 = inr (AddIODialogFR name side_out)) /\
    (let w' := (addTopInlet name top w).2 in
     (exists row it, table_io (self w') !! row = Some it /\
                     row_name it = name /\ shows_top_inlet it = true) /\
     forall row it,
       table_io (self w') !! row = Some it ->
       row_name it = name -> shows_top_inlet it = true ->
       (openIODialog row w').1 = inr (AddTopIODialogFR name top)).
Proof.
  intros w name side_in side_out top Hm Hi Ho Htop.
  pose proof Htop as (N1 & N2 & N3).
  destruct (addInput_self name side_in _ w Hi) as [_ Ei].
  destruct (addOutput_self name side_out _ w Ho) as [_ Eo].
  destruct (addTopInlet_self name top w) as [_ Et].
  pose proof (mirrors_add_input (self w) name side_in
                (new_row name SIDE_INPUT) Hm eq_refl eq_refl) as Mi.
  pose proof (mirrors_add_output (self w) name side_out
                (new_row name SIDE_OUTPUT) Hm eq_refl eq_refl) as Mo.
  pose proof (mirrors_add_top_inlet (self w) name top
                (new_row name (tio_type_io top)) Hm N1 N2 N3 eq_refl) as Mt.
  rewrite <- Ei in Mi. rewrite <- Eo in Mo. rewrite <- Et in Mt.
  split; [|split]; cbv zeta.
  - assert (Hd : dict_get name (dict_inputs (self (addInput name side_in w).2))
                 = Some side_in).
    { rewrite Ei. apply dict_get_set_eq. }
    split.
    + destruct (names_shown_row shows_input
                  (table_io (self (addInput name side_in w).2)) name)
        as (row & it & Hit & Hn & Hs).
      { rewrite (mirrors_inputs _ Mi), Ei. apply dict_keys_In_set. }
      exists row, it. repeat split; try assumption.
      apply bool_decide_eq_true in Hs. exact Hs.
    + intros row it Hit Hn Ht.
      rewrite (openIODialog_row _ row it Hit). cbv zeta.
      rewrite Hn, Ht. cbn [decide]. rewrite decide_True by reflexivity.
      rewrite Hd. cbn [fst]. rewrite (merge_side_same _ _ Hi). reflexivity.
  - assert (Hd : dict_get name
                   (dict_outputs (self (addOutput name side_out w).2))
                 = Some side_out).
    { rewrite Eo. apply dict_get_set_eq. }
    split.
    + destruct (names_shown_row shows_output
                  (table_io (self (addOutput name side_out w).2)) name)
        as (row & it & Hit & Hn & Hs).
      { rewrite (mirrors_outputs _ Mo), Eo. apply dict_keys_In_set. }
      exists row, it. repeat split; assumption.
    + intros row it Hit Hn Ht.
      rewrite (openIODialog_row _ row it Hit). cbv zeta.
      rewrite Hn, Ht. rewrite decide_False by discriminate.
      rewrite decide_True by reflexivity.
      rewrite Hd. cbn [fst]. rewrite (merge_side_same _ _ Ho). reflexivity.
  - assert (Hd : dict_get name
                   (dict_top_inlets (self (addTopInlet name top w).2))
                 = Some top).
    { rewrite Et. apply dict_get_set_eq. }
    split.
    + destruct (names_shown_row shows_top_inlet
                  (table_io (self (addTopInlet name top w).2)) name)
        as (row & it & Hit & Hn & Hs).
      { rewrite (mirrors_top_inlets _ Mt), Et. apply dict_keys_In_set. }
      exists row, it. repeat split; assumption.
    + intros row it Hit Hn Hs.
      rewrite (openIODialog_row _ row it Hit). cbv zeta.
      unfold shows_top_inlet, shows_input, shows_output in Hs.
      apply andb_true_iff in Hs. destruct Hs as [Hs1 Hs2].
      apply negb_true_iff, bool_decide_eq_false in Hs1.
      apply negb_true_iff, orb_false_iff in Hs2. destruct Hs2 as [Hs2 _].
      apply bool_decide_eq_false in Hs2.
      rewrite !decide_False by assumption.
      rewrite Hn, Hd. reflexivity.
Qed.

Lemma added_io_opens_with_its_descriptor_witness :
  (openIODialog 2 (addInput "in2" (Sample.side SIDE_INPUT 2%Q)
                     Sample.editing).2).1 =
    inr (AddIODialogFR "in2" (Sample.side SIDE_INPUT 2%Q)).
Proof.
  destruct (added_io_opens_with_its_descriptor Sample.editing "in2"
              (Sample.side SIDE_INPUT 2%Q) (Sample.side SIDE_OUTPUT 2%Q)
              (Sample.inlet "custom") mirrors_editing eq_refl eq_refl
              custom_is_top_inlet_type) as ((_ & H) & _).
  apply (H 2 (new_row "in2" SIDE_INPUT)); reflexivity.
Defined.

(** * Closing the dialog *)

Section Closing.
Context {C : Collaborators}.

Lemma keeps_open_emit e :
  e <> Close -> preserves (grows keeps_open) (emit e).
Proof. intros He. apply grows_emit. exact He. Qed.

Lemma keeps_open_update_self f :
  preserves (grows keeps_open) (update (with_self f)).
Proof. intros w. exists []. split; [symmetry; apply app_nil_r|constructor]. Qed.

Lemma keeps_open_update_heap f :
  preserves (grows keeps_open) (update (with_heap f)).
Proof. intros w. exists []. split; [symmetry; apply app_nil_r|constructor]. Qed.

Lemma keeps_open_call o m : preserves (grows keeps_open) (call o m).
Proof. apply grows_call. intros raised. discriminate. Qed.

Lemma keeps_open_call_parent p :
  preserves (grows keeps_open) (call_parent p).
Proof.
  intros w. unfold call_parent. destruct (test (self w)); [reflexivity|].
  destruct (parent_method p (heap w)); cbn [snd];
    eexists [_]; (split; [reflexivity|]); repeat constructor; discriminate.
Qed.

Ltac keeps_open_with tac :=
  repeat first
    [ tac
    | apply keeps_open_call
    | apply keeps_open_call_parent
    | apply keeps_open_update_self
    | apply keeps_open_update_heap
    | apply keeps_open_emit; discriminate
    | progress cbv zeta
    | preserves_step ].

Lemma keeps_open_buildTopInlets_loop o items :
  preserves (grows keeps_open) (buildTopInlets_loop o items).
Proof.
  induction items as [|[name io] items IH]; cbn [buildTopInlets_loop];
    unfold l_debug; keeps_open_with ltac:(exact IH).
Qed.

Lemma keeps_open_build_ios o : preserves (grows keeps_open) (build_ios o).
Proof.
  unfold build_ios, buildInputs, buildOutputs, buildTopInlets, the_self,
    l_debug, critical.
  keeps_open_with ltac:(apply keeps_open_buildTopInlets_loop).
Qed.

Lemma keeps_open__buildCADObject :
  preserves (grows keeps_open) _buildCADObject.
Proof.
  unfold _buildCADObject, construct, the_self, l_debug.
  keeps_open_with fail.
Qed.

Lemma keeps_open__buildNewModule :
  preserves (grows keeps_open) _buildNewModule.
Proof.
  unfold _buildNewModule, l_debug, l_error, critical.
  keeps_open_with
    ltac:(first [ apply keeps_open__buildCADObject
                | apply keeps_open_build_ios ]).
Qed.

Lemma keeps_open__updateModule :
  preserves (grows keeps_open) _updateModule.
Proof.
  unfold _updateModule, update_attributes, set_cad_obj, the_cad_obj,
    the_self, l_debug, l_error, critical.
  keeps_open_with
    ltac:(first [ apply keeps_open__buildCADObject
                | apply keeps_open_build_ios ]).
Qed.
End Closing.

(** X14. The OK button closes the dialog exactly when its slot returns,
    and as the last thing it does: [self.close()] is called once, after
    everything else, whatever the commit reported, and it is not called
    when an exception leaves the slot. *)
Theorem commit_closes_exactly_when_it_returns :
  forall (C : Collaborators) (w : World),
    exists t,
      trace (buildModule w).2 = trace w ++ t /\
      match (buildModule w).1 with
      | inr _ => exists t0, t = t0 ++ [Close] /\ Forall keeps_open t0
      | inl _ => Forall keeps_open t
      end.
Proof.
  intros C w.
  set (w0 := (readForm w).2).
  assert (T0 : trace w0 = trace w ++ [Log DEBUG "Filter reactor, read form"])
    by reflexivity.
  set (commit :=
         if negb (test (self w0)) then
           match cad_obj (self w0) with
           | None => _buildNewModule ;; ret tt
           | Some _ => _updateModule ;; ret tt
           end
         else ret tt).
  assert (E : buildModule w =
              match commit w0 with
              | (inl e, w1) => (inl e, w1)
              | (inr _, w1) =>
                  (inr tt, with_trace (fun t => t ++ [Close]) w1)
              end).
  { unfold buildModule.
    eapply (bind_returns _ _ _ tt w0); [reflexivity|].
    eapply (bind_returns _ _ _ (self w0) w0); [reflexivity|].
    change (bind commit (fun _ => close) w0 =
            match commit w0 with
            | (inl e, w1) => (inl e, w1)
            | (inr _, w1) =>
                (inr tt, with_trace (fun t => t ++ [Close]) w1)
            end).
    unfold bind. destruct (commit w0) as [[e|[]] w1]; reflexivity. }
  assert (Hc : preserves (grows keeps_open) commit).
  { unfold commit. destruct (negb (test (self w0)));
      [|apply preserves_ret; tc_solve].
    destruct (cad_obj (self w0)).
    - apply preserves_bind; [tc_solve|apply keeps_open__updateModule|].
      intros ?. apply preserves_ret. tc_solve.
    - apply preserves_bind; [tc_solve|apply keeps_open__buildNewModule|].
      intros ?. apply preserves_ret. tc_solve. }
  destruct (Hc w0) as (t1 & T1 & K1). clearbody commit.
  rewrite E. destruct (commit w0) as [[e|[]] w1]; cbn [fst snd] in *.
  - exists (Log DEBUG "Filter reactor, read form" :: t1).
    split; [rewrite T1, T0, <- app_assoc; reflexivity|].
    constructor; [discriminate|exact K1].
  - exists ((Log DEBUG "Filter reactor, read form" :: t1) ++ [Close]).
    split.
    + cbn [trace with_trace].
      rewrite T1, T0, <- !app_assoc. reflexivity.
    + eexists. split; [reflexivity|].
      constructor; [discriminate|exact K1].
Qed.

(** * An assignment that raises *)

Section Assignments.
Context {C : Collaborators}.

(** An exception that leaves the assignments of [_updateModule] is that
    of the last of them, the only one that raised. *)
Lemma update_attributes_raised o w e :
  cad_obj (self w) = Some o ->
  is_Some (heap w !! o) ->
  (update_attributes w).1 = inl e ->
  exists t0 a,
    trace (update_attributes w).2 =
      trace w ++ t0 ++ [Call o (setattr a) (Some e)] /\
    Forall returned t0 /\
    In a (radius_assignment (params (self w)) ::
          other_assignments (params (self w))).
Proof.
  intros Ho Hsome. rewrite (update_attributes_eq o w Ho).
  set (a1 := radius_assignment (params (self w))).
  set (rest := other_assignments (params (self w))).
  pose proof (only_object_call o (setattr a1) w) as Hoo1.
  destruct Hsome as [c Hc]. rewrite (call_eq o _ w c Hc) in *.
  destruct (cad_method (setattr a1) c) as [raised c1].
  cbn [fst snd] in *.
  set (w1 := with_trace (fun t => t ++ [Call o (setattr a1) raised])
               (with_heap (fun h => <[o := c1]> h) w)) in *.
  destruct raised as [e1|]; cbn [fst snd].
  { intros [= <-]. exists [], a1. split; [reflexivity|].
    split; [constructor|left; reflexivity]. }
  set (lg := Log DEBUG "Filter reactor, buildModule w cad_obj").
  set (w2 := with_trace (fun t => t ++ [lg]) w1).
  assert (Hs2 : is_Some (heap w2 !! o)).
  { apply (only_object_is_Some o w); [exact Hoo1|]. rewrite Hc. eauto. }
  destruct (for_each_outcome (fun a => Some (setattr a)) rest o w2 Hs2
              (setattr_side rest)) as (t & Ht & Hcase).
  cbv zeta in Hcase. rewrite omap_Some_map in Hcase.
  intros Hres.
  destruct Hcase as [(Hr & _)|(e' & Hr & Hout)]; [congruence|].
  assert (e' = e) as -> by congruence.
  specialize (Hout []). rewrite app_nil_r in Hout.
  inversion Hout as [| | |t0 m e0 Et Hret _ _ Hpre _]. subst t.
  assert (Hm : In m (map setattr rest)).
  { apply (prefix_In _ _ _ Hpre). rewrite calls_on_app, calls_on_same.
    apply in_or_app. right. left. reflexivity. }
  apply in_map_iff in Hm. destruct Hm as (a & <- & Ha).
  exists (Call o (setattr a1) None :: lg :: t0), a.
  split; [rewrite Ht; cbn [trace with_trace w2 w1];
          rewrite <- !app_assoc; reflexivity|].
  split; [constructor; [exact I|constructor; [exact I|exact Hret]]|].
  right. exact Ha.
Qed.
End Assignments.

Lemma silent_above_keeps_open n t :
  Forall (silent_above n) t -> Forall keeps_open t.
Proof.
  intros Hall. eapply Forall_impl; [exact Hall|].
  intros [] H; try discriminate; destruct H.
Qed.

Lemma attaching_keeps_open o t :
  Forall (attaching o) t -> Forall keeps_open t.
Proof.
  intros Hall. eapply Forall_impl; [exact Hall|].
  intros [] H; try discriminate; destruct H.
Qed.

Lemma returned_calls t o m raised :
  Forall returned t -> In (Call o m raised) t -> raised = None.
Proof.
  intros Hret Hin. destruct raised as [e|]; [|reflexivity].
  destruct (returned_not_raised _ _ _ _ Hret Hin).
Qed.

(** X15. An update commit whose validation object was built lets an
    exception leave the slot only when an assignment to the CAD object
    under edit raised it. That assignment is the last thing the slot
    did: every assignment before it returned and stays, no I/O was
    attached, no message was shown, the parent was not called and the
    dialog is still open. *)
Theorem update_assignment_error_escapes :
  forall (C : Collaborators) (w : World) (o : ref) (c : CadObj) (e : exn),
    test (self w) = false ->
    cad_obj (self w) = Some o ->
    heap w !! o = Some c ->
    build_raises (snapshot (form (self w))) = None ->
    (buildModule w).1 = inl e ->
    let p := snapshot (form (self w)) in
    exists t a,
      trace (buildModule w).2 =
        trace w ++ t ++ [Call o (setattr a) (Some e)] /\
      In a (radius_assignment p :: other_assignments p) /\
      (forall m raised, In (Call o m raised) t ->
         raised = None /\ exists a', m = setattr a') /\
      dialogs t = [] /\
      parent_calls t = [] /\
      Forall keeps_open t /\
      heap (buildModule w).2 !! o =
        Some (replay (calls_on o t ++ [setattr a]) c).
Proof.
  intros C w o c e Ht Ho Hc Hb Hres p.
  destruct (replays_buildModule o w c Hc) as (tall & Htall & Hrep & _).
  revert Hres Htall Hrep.
  rewrite (buildModule_update_eq w o Ht Ho).
  set (w0 := (readForm w).2).
  assert (Hp0 : params (self w0) = p) by reflexivity.
  assert (Htr0 : trace w0 =
                 trace w ++ [Log DEBUG "Filter reactor, read form"])
    by reflexivity.
  assert (Hh0 : heap w0 = heap w) by reflexivity.
  assert (Ht0 : test (self w0) = false) by exact Ht.
  assert (Ho0 : cad_obj (self w0) = Some o) by exact Ho.
  clearbody w0.
  rewrite (_updateModule_valid_eq w0) by (rewrite Hp0; exact Hb).
  cbv zeta.
  set (w1 := with_trace
               (fun t => t ++ [Log DEBUG "Filter reactor, _updateModule"])
               w0).
  destruct (_buildCADObject_validation_only w1)
    as (Hs2 & Hh2 & tv & Htv & Hsil).
  set (w2 := (_buildCADObject w1).2) in *.
  change (heap w1) with (heap w0) in Hh2, Hsil.
  rewrite Hh0 in Hh2, Hsil.
  assert (Hc2 : heap w2 !! o = Some c) by (apply Hh2; exact Hc).
  assert (Ho2 : cad_obj (self w2) = Some o)
    by (rewrite Hs2; exact Ho0).
  assert (Hp2 : params (self w2) = p) by (rewrite Hs2; exact Hp0).
  assert (Htr2 : trace w2 =
            trace w ++ [Log DEBUG "Filter reactor, read form";
                        Log DEBUG "Filter reactor, _updateModule"] ++ tv).
  { rewrite Htv. cbn [trace w1 with_trace]. rewrite Htr0, <- !app_assoc.
    reflexivity. }
  assert (Hon : o < List.length (heap w))
    by (apply (lookup_lt_Some _ _ c); exact Hc).
  destruct (update_attributes_events o w2 Ho2 (ex_intro _ c Hc2))
    as (ta & Hta & Hatt & Hda & Hpre & _ & _ & _).
  pose proof (update_attributes_raised o w2) as Hraised.
  destruct (update_attributes w2) as [[e'|[]] w3]; cbn [fst snd] in *.
  - intros [= <-] Htall Hrep.
    destruct (Hraised e' Ho2 (ex_intro _ c Hc2) eq_refl)
      as (t0 & a & Ht3 & Hret & Ha).
    rewrite Hp2 in Ha.
    assert (ta = t0 ++ [Call o (setattr a) (Some e')]) as ->.
    { rewrite Hta in Ht3. apply app_inv_head in Ht3. exact Ht3. }
    apply Forall_app in Hatt. destruct Hatt as [Hatt0 _].
    rewrite dialogs_app in Hda. apply app_eq_nil in Hda.
    destruct Hda as [Hda0 _].
    destruct (silent_above_quiet _ _ Hsil) as (Hdv & Hpv & Hcv).
    destruct (attaching_quiet _ _ Hatt0) as (Hpa & _ & _).
    set (t := [Log DEBUG "Filter reactor, read form";
               Log DEBUG "Filter reactor, _updateModule"] ++ tv ++ t0).
    assert (Etr : trace w3 =
                  trace w ++ t ++ [Call o (setattr a) (Some e')]).
    { rewrite Hta, Htr2. unfold t. rewrite <- !app_assoc. reflexivity. }
    assert (tall = t ++ [Call o (setattr a) (Some e')]) as ->.
    { rewrite Etr in Htall. apply app_inv_head in Htall. congruence. }
    exists t, a. split; [exact Etr|]. split; [exact Ha|].
    split.
    { intros m raised Hin. unfold t in Hin.
      apply in_app_or in Hin.
      destruct Hin as [Hin|Hin]; [destruct Hin as [E|[E|[]]]; discriminate E|].
      apply in_app_or in Hin. destruct Hin as [Hin|Hin].
      - destruct (silent_above_no_call _ _ _ _ _ Hsil Hon Hin).
      - split; [exact (returned_calls _ _ _ _ Hret Hin)|].
        assert (Hm : In m (calls_on o
                             (t0 ++ [Call o (setattr a) (Some e')]))).
        { rewrite calls_on_app. apply in_or_app. left.
          exact (In_calls_on _ _ _ _ Hin). }
        apply (prefix_In _ _ _ Hpre) in Hm.
        apply in_map_iff in Hm. destruct Hm as (a' & <- & _).
        exists a'. reflexivity. }
    split; [unfold t; rewrite !dialogs_app, Hdv, Hda0; reflexivity|].
    split; [unfold t; rewrite !parent_calls_app, Hpv, Hpa; reflexivity|].
    split.
    { unfold t. repeat constructor; try discriminate.
      apply Forall_app. split.
      - exact (silent_above_keeps_open _ _ Hsil).
      - exact (attaching_keeps_open _ _ Hatt0). }
    rewrite calls_on_app, calls_on_same in Hrep. exact Hrep.
  - intros Hres. exfalso. revert Hres.
    destruct (the_cad_obj w3) as [[e1|o1] w4]; [discriminate|].
    destruct (build_ios o1 w3) as [[e1|[]] w5]; [discriminate|].
    destruct (call_parent parent_refresh w5) as [[e1|[]] w6];
      discriminate.
Qed.

Lemma update_assignment_error_escapes_witness :
  exists t a,
    trace (@buildModule strict too_voluminous).2 =
      trace too_voluminous ++ t ++
        [Call 0 (setattr a) (Some (Exn ValueError "volume too large"))] /\
    dialogs t = [].
Proof.
  destruct (update_assignment_error_escapes strict too_voluminous 0
              Sample.live (Exn ValueError "volume too large")
              eq_refl eq_refl eq_refl eq_refl eq_refl)
    as (t & a & Ht & _ & _ & Hd & _).
  exists t, a. split; assumption.
Defined.

(** * The radius of a new module *)

Section NewRadius.
Context {C : Collaborators}.

(** The events of [_buildCADObject] when it returns: the constructor,
    then the assignment of the radius if the box is ticked and the top
    is not threaded. *)
Lemma _buildCADObject_events w :
  build_raises (params (self w)) = None ->
  let p := params (self w) in
  let reactor := List.length (heap w) in
  trace (_buildCADObject w).2 =
    trace w ++
      [Log DEBUG "Filter reactor, buildModule wo cad_obj";
       New (inr reactor)] ++
      (if p_r_constrained p && negb (py_in (p_type_top p) THREADED_TOPS)
       then [Call reactor (setattr (Set_r (p_r p))) None]
       else []).
Proof.
  unfold build_raises, _buildCADObject, construct, the_self, l_debug, emit,
    update, read, bind, ret, raise. cbn [fst snd self].
  destruct (f_rea _ _ _ _ _ _ _ _) as [e|c]; [discriminate|].
  cbn [fst snd].
  destruct (p_r_constrained (params (self w)) &&
            negb (py_in (p_type_top (params (self w))) THREADED_TOPS)).
  - intros Hr. unfold call. cbn [heap with_trace with_heap].
    rewrite list_lookup_middle by reflexivity.
    destruct (cad_method _ c) as [[e|] c']; [discriminate|].
    unfold with_trace, with_heap. cbn [fst snd trace self heap].
    repeat first [progress cbn [app] | rewrite <- app_assoc]. reflexivity.
  - intros _. unfold with_trace, with_heap. cbn [fst snd trace self heap].
    repeat first [progress cbn [app] | rewrite <- app_assoc]. reflexivity.
Qed.
End NewRadius.

Lemma calls_on_log o lv msg t :
  calls_on o (Log lv msg :: t) = calls_on o t.
Proof. reflexivity. Qed.

(** X16. A create commit whose object can be built makes one object and
    calls nothing but that object. The radius of the form reaches it by
    an assignment, the first call on it, exactly when the box is ticked
    and the top is not threaded; the constraint itself is never
    assigned. The calls that follow attach the registry. *)
Theorem create_commit_assigns_radius :
  forall (C : Collaborators) (w : World),
    test (self w) = false ->
    cad_obj (self w) = None ->
    build_raises (snapshot (form (self w))) = None ->
    let p := snapshot (form (self w)) in
    let reactor := List.length (heap w) in
    exists t attached,
      trace (buildModule w).2 = trace w ++ t /\
      constructions t = [inr reactor] /\
      calls_on reactor t =
        (if p_r_constrained p && negb (py_in (p_type_top p) THREADED_TOPS)
         then [setattr (Set_r (p_r p))] else []) ++ attached /\
      prefix attached (attach_calls (self w)) /\
      (forall o m raised, In (Call o m raised) t -> o = reactor) /\
      (forall b, ~ In (setattr (Set_r_constrained b)) (calls_on reactor t)).
Proof.
  intros C w Ht Ho Hb p reactor. fold p in Hb.
  rewrite (buildModule_create_eq w Ht Ho).
  set (w0 := (readForm w).2).
  assert (Hp0 : params (self w0) = p) by reflexivity.
  assert (Htr0 : trace w0 =
                 trace w ++ [Log DEBUG "Filter reactor, read form"])
    by reflexivity.
  assert (Hh0 : heap w0 = heap w) by reflexivity.
  assert (Hd0 : attach_calls (self w0) = attach_calls (self w))
    by reflexivity.
  assert (Ht0 : test (self w0) = false) by exact Ht.
  clearbody w0.
  rewrite (_buildNewModule_eq w0). cbv zeta.
  set (w1 := with_trace
               (fun t => t ++ [Log DEBUG "Filter reactor, _buildNewModule"])
               w0).
  destruct (_buildCADObject_validation_only w1) as (Hs2 & _ & _).
  pose proof (_buildCADObject_result w1) as Hres.
  pose proof (_buildCADObject_fresh w1) as Hfresh.
  pose proof (_buildCADObject_events w1) as Hev.
  change (heap w1) with (heap w0) in Hres, Hfresh, Hev.
  change (params (self w1)) with (params (self w0)) in Hres, Hev.
  rewrite Hh0 in Hres, Hfresh, Hev. rewrite Hp0 in Hres, Hev.
  rewrite Hb in Hres. specialize (Hev Hb). cbv zeta in Hev.
  fold reactor in Hres, Hfresh, Hev.
  set (radius := if p_r_constrained p &&
                    negb (py_in (p_type_top p) THREADED_TOPS)
                 then [setattr (Set_r (p_r p))] else []).
  set (t_build :=
         [Log DEBUG "Filter reactor, read form";
          Log DEBUG "Filter reactor, _buildNewModule";
          Log DEBUG "Filter reactor, buildModule wo cad_obj";
          New (inr reactor)] ++
         map (fun m => Call reactor m None) radius).
  assert (Hcb : calls_on reactor t_build = radius).
  { unfold t_build, radius. rewrite calls_on_app.
    destruct (p_r_constrained p && negb (py_in (p_type_top p) THREADED_TOPS));
      cbn [map]; [rewrite calls_on_same|]; reflexivity. }
  assert (Hnb : constructions t_build = [inr reactor]).
  { unfold t_build, radius.
    destruct (p_r_constrained p && negb (py_in (p_type_top p) THREADED_TOPS));
      reflexivity. }
  assert (Hob : forall o m raised, In (Call o m raised) t_build ->
                                   o = reactor).
  { unfold t_build, radius. intros o m raised Hin.
    destruct (p_r_constrained p && negb (py_in (p_type_top p) THREADED_TOPS));
      cbn in Hin; intuition congruence. }
  destruct (_buildCADObject w1) as [[e|r] w2]; cbn [fst snd] in *;
    [discriminate|].
  injection Hres as ->.
  assert (Htr2 : trace w2 = trace w ++ t_build).
  { rewrite Hev. cbn [trace w1 with_trace]. rewrite Htr0. unfold t_build,
      radius.
    destruct (p_r_constrained p && negb (py_in (p_type_top p) THREADED_TOPS));
      cbn [map app]; rewrite <- !app_assoc; reflexivity. }
  destruct (Hfresh reactor w2 eq_refl) as [_ Hsome].
  destruct (build_ios_events reactor w2 Hsome)
    as (tio & Htio & Hout & Hattio & Hs3 & _).
  assert (Hscript : attach_calls (self w2) = attach_calls (self w)).
  { rewrite Hs2. exact Hd0. }
  rewrite Hscript in Hout.
  pose proof (attach_outcome_prefix _ _ _ _ Hout) as Hpre.
  destruct (attaching_quiet _ _ Hattio) as (_ & Hnio & _).
  assert (Hoio : forall o m raised, In (Call o m raised) tio ->
                                    o = reactor).
  { intros o m raised Hin. rewrite Forall_forall in Hattio.
    exact (Hattio _ (proj2 (list_elem_of_In _ _) Hin)). }
  assert (Hsetattr : forall b,
            ~ In (setattr (Set_r_constrained b))
                (radius ++ calls_on reactor tio)).
  { intros b Hin. apply in_app_or in Hin. destruct Hin as [Hin|Hin].
    - unfold radius in Hin.
      destruct (p_r_constrained p &&
                negb (py_in (p_type_top p) THREADED_TOPS));
        cbn in Hin; intuition discriminate.
    - apply (prefix_In _ _ _ Hpre) in Hin. unfold attach_calls in Hin.
      repeat (apply in_app_or in Hin; destruct Hin as [Hin|Hin]).
      + destruct (input_calls_side _ _ Hin) as [_ H].
        apply list_elem_of_In, list_elem_of_omap in Hin.
        destruct Hin as (x & _ & Hx). discriminate Hx.
      + apply list_elem_of_In, list_elem_of_omap in Hin.
        destruct Hin as (x & _ & Hx). unfold output_call in Hx.
        destruct (decide (x.1 = "default")); discriminate Hx.
      + apply in_map_iff in Hin. destruct Hin as (x & Hx & _).
        discriminate Hx.
      + destruct Hin as [Hx|[]]. discriminate Hx. }
  destruct (build_ios reactor w2) as [[e|[]] w3]; cbn [fst snd] in *.
  { exists (t_build ++ tio ++
            [Log ERROR (ios_error e); MessageBox "I/Os error" (ios_error e);
             Close]),
      (calls_on reactor tio).
    split; [cbn [trace with_trace]; rewrite Htio, Htr2, <- !app_assoc;
            reflexivity|].
    rewrite !constructions_app, !calls_on_app, Hnb, Hnio, Hcb.
    cbn [constructions calls_on omap]. rewrite !app_nil_r.
    split; [reflexivity|]. split; [reflexivity|]. split; [exact Hpre|].
    split; [|exact Hsetattr].
    intros o m raised Hin. apply in_app_or in Hin.
    destruct Hin as [Hin|Hin]; [exact (Hob _ _ _ Hin)|].
    apply in_app_or in Hin. destruct Hin as [Hin|Hin];
      [exact (Hoio _ _ _ Hin)|].
    cbn in Hin. intuition discriminate. }
  assert (Ht3 : test (self w3) = false).
  { rewrite Hs3, Hs2. exact Ht0. }
  rewrite (call_parent_eq (parent_buildModule reactor) w3 Ht3).
  set (raised := parent_method (parent_buildModule reactor) (heap w3)).
  exists (t_build ++ tio ++
          Parent (parent_buildModule reactor) raised ::
          match raised with Some _ => [] | None => [Close] end),
    (calls_on reactor tio).
  split.
  { destruct raised; cbn [fst snd trace with_trace];
      rewrite Htio, Htr2, <- !app_assoc; reflexivity. }
  rewrite !constructions_app, !calls_on_app, Hnb, Hnio, Hcb.
  split; [destruct raised; reflexivity|].
  split; [destruct raised; cbn [calls_on omap]; rewrite app_nil_r;
          reflexivity|].
  split; [exact Hpre|].
  split.
  - intros o m r Hin. apply in_app_or in Hin.
    destruct Hin as [Hin|Hin]; [exact (Hob _ _ _ Hin)|].
    apply in_app_or in Hin. destruct Hin as [Hin|Hin];
      [exact (Hoio _ _ _ Hin)|].
    destruct raised; cbn in Hin; intuition discriminate.
  - destruct raised; cbn [calls_on omap]; rewrite app_nil_r;
      exact Hsetattr.
Qed.

Lemma create_commit_assigns_radius_witness :
  exists t attached,
    trace (@buildModule Sample.C Sample.creating).2 =
      trace Sample.creating ++ t /\
    calls_on 0 t = [] ++ attached.
Proof.
  destruct (create_commit_assigns_radius Sample.C Sample.creating
              eq_refl eq_refl eq_refl)
    as (t & attached & Ht & _ & Hc & _).
  exists t, attached. split; [exact Ht|exact Hc].
Defined.

(** * The Delete button *)

(** X17. The Delete button asks the parent window, once, to delete the
    CAD object of the dialog, [None] while a module is being created,
    and closes the dialog when the parent returns; an exception of the
    parent leaves the slot and the dialog open. The dialog itself
    deletes nothing: no CAD object and nothing of its registry changes.
    A dialog with no parent raises [AttributeError] and stays open. *)
Theorem deleteModule_hands_over :
  forall (C : Collaborators) (w : World),
    let r := deleteModule w in
    let asked := parent_deleteModule (cad_obj (self w)) in
    let raised := parent_method asked (heap w) in
    self r.2 = self w /\
    heap r.2 = heap w /\
    if test (self w) then
      (exists e, r.1 = inl e /\ exn_cls e = AttributeError) /\
      trace r.2 = trace w ++ [Log DEBUG "Reactor, deleteModule"]
    else
      r.1 = match raised with Some e => inl e | None => inr tt end /\
      trace r.2 =
        trace w ++
          [Log DEBUG "Reactor, deleteModule"; Parent asked raised] ++
          match raised with Some _ => [] | None => [Close] end.
Proof.
  intros C w r asked raised. unfold r, deleteModule, call_parent, close,
    l_debug, emit, update, the_self, read, bind, ret.
  cbn [fst snd self heap with_trace].
  destruct (test (self w)); cbn [fst snd self heap trace with_trace].
  - split; [reflexivity|]. split; [reflexivity|].
    split; [eexists; split; reflexivity|reflexivity].
  - fold asked. fold raised.
    destruct raised; cbn [fst snd self heap trace with_trace];
      rewrite <- ?app_assoc; repeat split; reflexivity.
Qed.

(** * A descriptor without its type *)

(** X18. [addInput] and [addOutput] read the type of a descriptor only
    when its name is new: a descriptor with no ["type_io"] replaces the
    one stored under its name, and the table stays as it is, but under a
    new name it raises [KeyError] and nothing is stored. *)
Theorem side_io_without_type :
  forall (w : World) (name : string) (v : SideIO),
    sio_type_io v = None ->
    (if dict_mem name (dict_inputs (self w)) then
       (addInput name v w).1 = inr tt /\
       dict_get name (dict_inputs (self (addInput name v w).2)) = Some v /\
       table_io (self (addInput name v w).2) = table_io (self w)
     else
       (exists e, (addInput name v w).1 = inl e /\ exn_cls e = KeyError) /\
       self (addInput name v w).2 = self w) /\
    (if dict_mem name (dict_outputs (self w)) then
       (addOutput name v w).1 = inr tt /\
       dict_get name (dict_outputs (self (addOutput name v w).2)) = Some v /\
       table_io (self (addOutput name v w).2) = table_io (self w)
     else
       (exists e, (addOutput name v w).1 = inl e /\ exn_cls e = KeyError) /\
       self (addOutput name v w).2 = self w).
Proof.
  intros w name v Hv. split.
  - unfold addInput, getitem_type_io, _addNewRow, l_debug, emit, update,
      the_self, read, bind, ret, raise. cbn [fst snd self with_trace].
    destruct (dict_mem name (dict_inputs (self w))); cbn [negb];
      rewrite ?Hv; cbn [fst snd self with_trace with_self with_dict_inputs
                        dict_inputs table_io].
    + split; [reflexivity|]. split; [apply dict_get_set_eq|reflexivity].
    + split; [eexists; split; reflexivity|reflexivity].
  - unfold addOutput, getitem_type_io, _addNewRow, l_debug, emit, update,
      the_self, read, bind, ret, raise. cbn [fst snd self with_trace].
    destruct (dict_mem name (dict_outputs (self w))); cbn [negb];
      rewrite ?Hv; cbn [fst snd self with_trace with_self with_dict_outputs
                        dict_outputs table_io].
    + split; [reflexivity|]. split; [apply dict_get_set_eq|reflexivity].
    + split; [eexists; split; reflexivity|reflexivity].
Qed.

Lemma side_io_without_type_witness :
  let v := restored_side (C := Sample.C) Sample.live
             (SpecCAD.new_io 0.5%Q 0%Q 2%Q false) in
  (exists e, (addInput "in2" v Sample.editing).1 = inl e /\
             exn_cls e = KeyError) /\
  (addInput "in1" v Sample.editing).1 = inr tt.
Proof.
  intros v. split.
  - destruct (side_io_without_type Sample.editing "in2" v eq_refl)
      as [H _]. exact (proj1 H).
  - destruct (side_io_without_type Sample.editing "in1" v eq_refl)
      as [H _]. exact (proj1 H).
Defined.

(** * Building the CAD object *)

(** X19. [_buildCADObject] does what its docstring says, "no GUI task
    here": it changes nothing of the dialog, shows no message, does not
    call the parent and does not close the dialog, and it leaves every
    CAD object that existed as it was. It returns a reference to a new
    object, or raises what the constructor or the assignment of the
    radius raised. *)
Theorem _buildCADObject_does_no_gui_task :
  forall (C : Collaborators) (w : World),
    self (_buildCADObject w).2 = self w /\
    (forall o c, heap w !! o = Some c ->
                 heap (_buildCADObject w).2 !! o = Some c) /\
    (_buildCADObject w).1 =
      match build_raises (params (self w)) with
      | Some e => inl e
      | None => inr (List.length (heap w))
      end /\
    exists t,
      trace (_buildCADObject w).2 = trace w ++ t /\
      dialogs t = [] /\
      parent_calls t = [] /\
      Forall keeps_open t /\
      forall o m raised, In (Call o m raised) t -> List.length (heap w) <= o.
Proof.
  intros C w.
  destruct (_buildCADObject_validation_only w) as (Hs & Hh & t & Ht & Hsil).
  split; [exact Hs|]. split; [exact Hh|].
  split; [apply _buildCADObject_result|].
  destruct (silent_above_quiet _ _ Hsil) as (Hd & Hp & _).
  exists t. split; [exact Ht|]. split; [exact Hd|]. split; [exact Hp|].
  split; [exact (silent_above_keeps_open _ _ Hsil)|].
  intros o m raised Hin. rewrite Forall_forall in Hsil.
  exact (Hsil _ (proj2 (list_elem_of_In _ _) Hin)).
Qed.

(** * An empty registry *)

Lemma no_output_calls (d : pydict SideIO) :
  Forall (fun item => item.1 = "default") d -> omap output_call d = [].
Proof.
  induction 1 as [|item d Hitem _ IH]; [reflexivity|].
  cbn [omap list_omap]. unfold output_call at 1.
  destruct (decide (item.1 = "default")); [exact IH|contradiction].
Qed.

(** X20. With nothing to attach, the inputs and the top inlets of the
    registry empty and no output but the default one, the build methods
    still call [autoPlaceTopInlets], once, and call nothing else on the
    CAD object. *)
Theorem empty_registry_still_auto_places :
  forall (C : Collaborators) (w : World) (o : ref),
    is_Some (heap w !! o) ->
    dict_inputs (self w) = [] ->
    Forall (fun item => item.1 = "default") (dict_outputs (self w)) ->
    dict_top_inlets (self w) = [] ->
    attach_calls (self w) = [autoPlaceTopInlets] /\
    exists t,
      trace (build_ios o w).2 = trace w ++ t /\
      calls_on o t = [autoPlaceTopInlets].
Proof.
  intros C w o Hsome Hi Ho Ht.
  assert (Hcalls : attach_calls (self w) = [autoPlaceTopInlets]).
  { unfold attach_calls. rewrite Hi, Ht, (no_output_calls _ Ho).
    reflexivity. }
  split; [exact Hcalls|].
  destruct (build_ios_outcome o w Hsome) as (t & Htr & Hout).
  rewrite Hcalls in Hout. exists t. split; [exact Htr|].
  destruct Hout as [_ Hc _|t0 m e -> _ Hm _ Hpre _ _
                   |t0 e -> _ _ Hc _|t0 m e -> _ _ _ Hpre _].
  - exact Hc.
  - exfalso.
    assert (Hin : In m [autoPlaceTopInlets]).
    { apply (prefix_In _ _ _ Hpre). rewrite calls_on_app.
      apply in_or_app. right. cbn [calls_on omap list_omap].
      rewrite decide_True by reflexivity. left. reflexivity. }
    destruct Hin as [<-|[]]. destruct Hm.
  - exact Hc.
  - assert (Hin : In m (calls_on o (t0 ++ [Call o m (Some e)]))).
    { rewrite calls_on_app, calls_on_same. apply in_or_app. right. left.
      reflexivity. }
    destruct Hpre as [k Hk].
    destruct (calls_on o (t0 ++ [Call o m (Some e)])) as [|m1 l1];
      [destruct Hin|].
    injection Hk as <- Hk. symmetry in Hk. apply app_eq_nil in Hk.
    destruct Hk as [-> _]. reflexivity.
Qed.

Lemma empty_registry_still_auto_places_witness :
  exists t,
    trace (@build_ios Sample.C 0 emptied).2 = trace emptied ++ t /\
    calls_on 0 t = [autoPlaceTopInlets].
Proof.
  destruct (empty_registry_still_auto_places Sample.C emptied 0)
    as (_ & t & Ht & Hc).
  - eexists. reflexivity.
  - reflexivity.
  - repeat constructor.
  - reflexivity.
  - exists t. split; assumption.
Defined.
